(** * Satellite Proximity Explorer: coordinate conversion and TLE parsing

    A shallow embedding of [coordinate_converter.py], of
    [satellite_data_manager.py], of the geometry of
    [satellite_visualizer.py] and of two handlers of
    [satellite_tracker_gui.py], with the properties the specification
    states about them and further properties read off the code.

    Python's [float] is modelled twice, through one interface ([PyFloat]):
    - [ideal]: floats read as real numbers (exact arithmetic, the frame in
      which the specification speaks of "a total function over the reals");
    - [binary64]: IEEE 754 double precision, as CPython computes, with the
      platform's libm left as a parameter on ordinary arguments.
    The converter is written once, over the interface, and read at both. *)

From Stdlib Require Import Reals Lra Lia Psatz ZArith QArith Qreals Floats.
From Stdlib Require Import List String Ascii Bool Classical_Prop DecimalString.
Import ListNotations.

Set Warnings "-inexact-float,-register-all".

(** ** Python outcomes: a value or a raised exception *)

Inductive exn : Type :=
| ZeroDivisionError   (* float division by zero *)
| ValueError          (* math domain error; invalid literal for int() *)
| OverflowError       (* math range error *)
| UnboundLocalError   (* a local read before any assignment *)
| KeyError            (* a missing dictionary key *)
| IndexError.         (* a list index out of range *)

Inductive result (A : Type) : Type :=
| Ret (a : A)
| Raise (e : exn).

Arguments Ret {A} a.
Arguments Raise {A} e.

Definition bind {A B : Type} (m : result A) (k : A -> result B) : result B :=
  match m with
  | Ret a => k a
  | Raise e => Raise e
  end.

Declare Scope py_scope.
Delimit Scope py_scope with py.
Notation "x <- m ;; k" := (bind m (fun x => k))
  (at level 61, m at next level, right associativity) : py_scope.
Notation "' pat <- m ;; k" := (bind m (fun x => match x with pat => k end))
  (at level 61, pat pattern, m at next level, right associativity) : py_scope.

(** [for v in xs: s = body v s], the loop state [s] threaded through; an
    exception in the body leaves the loop. *)
Fixpoint for_in {A S : Type} (xs : list A) (body : A -> S -> result S) (s : S)
  : result S :=
  match xs with
  | [] => Ret s
  | v :: xs' => bind (body v s) (for_in xs' body)
  end.

(** [range(start, stop, step)] for a positive step, and [range(n)]. *)
Definition range3 (start stop step : nat) : list nat :=
  map (fun k => start + k * step)%nat
      (seq 0 ((stop - start + (step - 1)) / step)).

Definition range (n : nat) : list nat := range3 0 n 1.

(** A value was returned (no exception left the call). *)
Definition returns {A : Type} (r : result A) : Prop := exists a, r = Ret a.

(** The arithmetic faults of the [float] operators and of [math]. *)
Definition arithmetic_fault {A : Type} (r : result A) : Prop :=
  r = Raise ZeroDivisionError \/ r = Raise ValueError.

(** ** The float interface

    What [coordinate_converter.py] uses of Python's [float] and [math]:
    the operators, with [/] raising on a zero divisor, int operands and
    decimal literals converted to float, and five [math] functions. *)

Class PyFloat (F : Type) : Type := {
  of_int : Z -> F;                 (* an int operand, e.g. [x * 1000] *)
  of_lit : Q -> F;                 (* a decimal literal, e.g. [6378137.0] *)
  fadd : F -> F -> F;
  fsub : F -> F -> F;
  fmul : F -> F -> F;
  truediv : F -> F -> result F;    (* [x / y]: ZeroDivisionError *)
  math_sqrt : F -> result F;       (* ValueError below zero *)
  math_sin : F -> result F;        (* ValueError at an infinity *)
  math_cos : F -> result F;
  math_atan2 : F -> F -> result F;
  math_degrees : F -> F;
  math_radians : F -> F
}.

Declare Scope pyfloat_scope.
Delimit Scope pyfloat_scope with pyfloat.
Infix "+" := fadd : pyfloat_scope.
Infix "-" := fsub : pyfloat_scope.
Infix "*" := fmul : pyfloat_scope.

(** ** coordinate_converter.py *)

Module CoordinateConverter.
Section Converter.
Context {F : Type} `{PyFloat F}.
Local Open Scope py_scope.
Local Open Scope pyfloat_scope.

(** One pass of the body of [for _ in range(5)]. The loop state is
    [(lat, alt)]; [alt] has no binding before the first pass. *)
Definition refine_latitude (a e2 p z_m : F) (_ : nat) (st : F * option F)
  : result (F * option F) :=
  let lat := fst st in
  s1 <- math_sin lat ;;
  s2 <- math_sin lat ;;
  r <- math_sqrt (of_int 1 - e2 * s1 * s2) ;;
  N <- truediv a r ;;
  c <- math_cos lat ;;
  q <- truediv p c ;;
  let alt := q - N in
  t <- truediv (e2 * N) (N + alt) ;;
  lat <- math_atan2 z_m (p * (of_int 1 - t)) ;;
  Ret (lat, Some alt).

Definition cartesian_to_geodetic (x y z : F) : result (F * F * F) :=
  let x_m := x * of_int 1000 in
  let y_m := y * of_int 1000 in
  let z_m := z * of_int 1000 in
  let a := of_lit 6378137.0 in
  f <- truediv (of_int 1) (of_lit 298.257223563) ;;
  let e2 := of_int 2 * f - f * f in
  lon <- math_atan2 y_m x_m ;;
  p <- math_sqrt (x_m * x_m + y_m * y_m) ;;
  lat <- math_atan2 z_m (p * (of_int 1 - e2)) ;;
  st <- for_in (range 5) (refine_latitude a e2 p z_m) (lat, None) ;;
  let lat := fst st in
  alt <- match snd st with
         | Some alt => Ret alt
         | None => Raise UnboundLocalError
         end ;;
  let lat_deg := math_degrees lat in
  let lon_deg := math_degrees lon in
  alt_km <- truediv alt (of_int 1000) ;;
  Ret (lat_deg, lon_deg, alt_km).

Definition geodetic_to_cartesian (lat lon alt : F) : result (F * F * F) :=
  let lat_rad := math_radians lat in
  let lon_rad := math_radians lon in
  let alt_m := alt * of_int 1000 in
  let a := of_lit 6378137.0 in
  f <- truediv (of_int 1) (of_lit 298.257223563) ;;
  let e2 := of_int 2 * f - f * f in
  s1 <- math_sin lat_rad ;;
  s2 <- math_sin lat_rad ;;
  r <- math_sqrt (of_int 1 - e2 * s1 * s2) ;;
  N <- truediv a r ;;
  cx <- math_cos lat_rad ;;
  clx <- math_cos lon_rad ;;
  let x := (N + alt_m) * cx * clx in
  cy <- math_cos lat_rad ;;
  sly <- math_sin lon_rad ;;
  let y := (N + alt_m) * cy * sly in
  sz <- math_sin lat_rad ;;
  let z := (N * (of_int 1 - e2) + alt_m) * sz in
  x_km <- truediv x (of_int 1000) ;;
  y_km <- truediv y (of_int 1000) ;;
  z_km <- truediv z (of_int 1000) ;;
  Ret (x_km, y_km, z_km).

End Converter.
End CoordinateConverter.

(** ** Floats as real numbers *)

Module Ideal.
Local Open Scope R_scope.

(** The angle of the point [(x, y)], in (-pi, pi]; [atan2 0 0 = 0] as in
    Python. *)
Definition atan2 (y x : R) : R :=
  if Rlt_dec 0 x then atan (y / x)
  else if Rlt_dec x 0 then
    if Rle_dec 0 y then atan (y / x) + PI else atan (y / x) - PI
  else if Rlt_dec 0 y then PI / 2
  else if Rlt_dec y 0 then - (PI / 2)
  else 0.

Definition div (x y : R) : result R :=
  if Req_dec_T y 0 then Raise ZeroDivisionError else Ret (x / y).

Definition sqrt (x : R) : result R :=
  if Rlt_dec x 0 then Raise ValueError else Ret (R_sqrt.sqrt x).

#[export] Instance ideal : PyFloat R := {|
  of_int := IZR;
  of_lit := Q2R;
  fadd := Rplus;
  fsub := Rminus;
  fmul := Rmult;
  truediv := div;
  math_sqrt := sqrt;
  math_sin := fun x => Ret (sin x);
  math_cos := fun x => Ret (cos x);
  math_atan2 := fun y x => Ret (atan2 y x);
  math_degrees := fun x => x * (180 / PI);
  math_radians := fun x => x * (PI / 180)
|}.
End Ideal.

(** ** Floats as IEEE 754 binary64

    The operators are the primitive ones (round to nearest, ties to even).
    The [math] functions follow CPython's [mathmodule.c]: [math_1] and
    [math_2] turn a NaN or an infinity computed from finite arguments into
    an exception, [m_atan2] settles the special cases of atan2 itself, and
    [sin], [cos] at zero, NaN and the infinities are as C99 Annex F fixes
    them. On the remaining arguments the C library decides ([Libm]). *)

Module Binary64.
Local Open Scope float_scope.

Record Libm : Type := {
  libm_sin : float -> float;
  libm_cos : float -> float;
  libm_atan2 : float -> float -> float
}.

Definition Py_MATH_PI : float := 0x1.921fb54442d18p+1.
Definition degToRad : float := Py_MATH_PI / 180.
Definition radToDeg : float := 180 / Py_MATH_PI.

Definition int_to_float (z : Z) : float :=
  if (z <? 0)%Z then - of_uint63 (Uint63.of_Z (- z))
  else of_uint63 (Uint63.of_Z z).

(** A decimal literal with numerator and denominator below 2^53: both
    convert exactly and the quotient rounds once, as the literal does. *)
Definition literal (q : Q) : float :=
  int_to_float (Qnum q) / int_to_float (Zpos (Qden q)).

Definition copysign (x y : float) : float :=
  if get_sign y then - abs x else abs x.

Definition float_div (x y : float) : result float :=
  if y =? 0 then Raise ZeroDivisionError else Ret (x / y).

Definition math_1 (func : float -> float) (x : float) : result float :=
  let r := func x in
  if is_nan r && negb (is_nan x) then Raise ValueError
  else if is_infinity r && is_finite x then Raise ValueError
  else Ret r.

Definition math_2 (func : float -> float -> float) (x y : float)
  : result float :=
  let r := func x y in
  if is_nan r && negb (is_nan x) && negb (is_nan y) then Raise ValueError
  else if is_infinity r && is_finite x && is_finite y
       then Raise OverflowError
  else Ret r.

Definition c_sin (M : Libm) (x : float) : float :=
  if is_nan x || is_infinity x then nan
  else if x =? 0 then x
  else libm_sin M x.

Definition c_cos (M : Libm) (x : float) : float :=
  if is_nan x || is_infinity x then nan
  else if x =? 0 then 1
  else libm_cos M x.

Definition m_atan2 (M : Libm) (y x : float) : float :=
  if is_nan x || is_nan y then nan
  else if is_infinity y then
    if is_infinity x then
      if get_sign x then copysign (0.75 * Py_MATH_PI) y
      else copysign (0.25 * Py_MATH_PI) y
    else copysign (0.5 * Py_MATH_PI) y
  else if is_infinity x || (y =? 0) then
    if get_sign x then copysign Py_MATH_PI y else copysign 0 y
  else libm_atan2 M y x.

Definition binary64 (M : Libm) : PyFloat float := {|
  of_int := int_to_float;
  of_lit := literal;
  fadd := PrimFloat.add;
  fsub := PrimFloat.sub;
  fmul := PrimFloat.mul;
  truediv := float_div;
  math_sqrt := math_1 PrimFloat.sqrt;
  math_sin := math_1 (c_sin M);
  math_cos := math_1 (c_cos M);
  math_atan2 := math_2 (m_atan2 M);
  math_degrees := fun x => x * radToDeg;
  math_radians := fun x => x * degToRad
|}.
End Binary64.


(** ** satellite_visualizer.py: the distance of a marker from the Earth's
    centre ([distance_from_center] in [visualize_satellites]), in exact
    arithmetic. *)

Definition distance_from_center (sat_x sat_y sat_z : R) : result R :=
  Ideal.sqrt (sat_x ^ 2 + sat_y ^ 2 + sat_z ^ 2)%R.

(** ** The conversion as the specification words it (section 4.1)

    Plain real functions: the WGS84 constants, the prime-vertical radius
    of curvature, the forward formulas, and the inverse as an initial
    guess refined exactly five times. *)

Module Spec.
Local Open Scope R_scope.

Definition a : R := 6378137.
Definition f : R := 1 / 298.257223563.
Definition e2 : R := 2 * f - f ^ 2.

Definition radians (deg : R) : R := deg * PI / 180.
Definition degrees (rad : R) : R := rad * 180 / PI.

(** N = a / sqrt(1 - e2 sin^2(lat)) *)
Definition prime_vertical_radius (lat : R) : R :=
  a / R_sqrt.sqrt (1 - e2 * (sin lat) ^ 2).

Definition spec_geodetic_to_cartesian (lat_deg lon_deg alt_km : R)
  : R * R * R :=
  let lat := radians lat_deg in
  let lon := radians lon_deg in
  let alt := alt_km * 1000 in
  let N := prime_vertical_radius lat in
  ((N + alt) * cos lat * cos lon / 1000,
   (N + alt) * cos lat * sin lon / 1000,
   (N * (1 - e2) + alt) * sin lat / 1000).

(** One refinement: from the current latitude, N, then the altitude,
    then the next latitude. The altitude returned at the end is the one
    recomputed in the fifth pass, that is, from the latitude after four. *)
Definition altitude_at (p lat : R) : R :=
  p / cos lat - prime_vertical_radius lat.

Definition next_latitude (p z lat : R) : R :=
  let N := prime_vertical_radius lat in
  let alt := altitude_at p lat in
  Ideal.atan2 z (p * (1 - e2 * N / (N + alt))).

(** The latitude after [k] refinements of the initial guess. *)
Definition latitude_after (k : nat) (p z : R) : R :=
  Nat.iter k (next_latitude p z) (Ideal.atan2 z (p * (1 - e2))).

Definition spec_cartesian_to_geodetic (x_km y_km z_km : R) : R * R * R :=
  let x := x_km * 1000 in
  let y := y_km * 1000 in
  let z := z_km * 1000 in
  let lon := Ideal.atan2 y x in
  let p := R_sqrt.sqrt (x ^ 2 + y ^ 2) in
  (degrees (latitude_after 5 p z),
   degrees lon,
   altitude_at p (latitude_after 4 p z) / 1000).

(** The divisors the five refinements meet: cos(lat) and N + alt. *)
Definition refinement_defined (p lat : R) : Prop :=
  cos lat <> 0 /\
  prime_vertical_radius lat + altitude_at p lat <> 0.

Definition refinements_defined (x_km y_km z_km : R) : Prop :=
  let x := x_km * 1000 in
  let y := y_km * 1000 in
  let z := z_km * 1000 in
  let p := R_sqrt.sqrt (x ^ 2 + y ^ 2) in
  forall k : nat, (k < 5)%nat -> refinement_defined p (latitude_after k p z).
End Spec.

(** ** satellite_data_manager.py *)

Module SatelliteDataManager.
Local Open Scope string_scope.
Local Open Scope py_scope.

(** The values held by the dictionaries: JSON data, and what [parse_tle]
    builds. A dict keeps its keys in insertion order. *)
Inductive pyvalue : Type :=
| PNone
| PBool (b : bool)
| PInt (z : Z)
| PFloat (x : float)
| PStr (s : string)
| PList (xs : list pyvalue)
| PDict (items : list (string * pyvalue)).

(** config.py *)
Definition N2YO_API_KEY : string := "".
Definition N2YO_BASE_URL : string := "https://api.n2yo.com/rest/v1/satellite".
Definition CELESTRAK_TLE_URL : string := "https://celestrak.com/NORAD/elements/".

(** The instance: the key is a [str], or [None] as the test suite sets
    it. *)
Record t : Type := {
  n2yo_api_key : option string;
  base_urls : list (string * string)
}.

Definition __init__ : t := {|
  n2yo_api_key := Some N2YO_API_KEY;
  base_urls := [("n2yo", N2YO_BASE_URL); ("celestrak", CELESTRAK_TLE_URL)]
|}.

Definition set_n2yo_api_key (self : t) (api_key : string) : t :=
  {| n2yo_api_key := Some api_key; base_urls := base_urls self |}.

(** Truth value of the key: [None] and [""] are false. *)
Definition truthy (key : option string) : bool :=
  match key with
  | None => false
  | Some "" => false
  | Some _ => true
  end.

Fixpoint getitem_dict (d : list (string * string)) (k : string)
  : result string :=
  match d with
  | [] => Raise KeyError
  | (k', v) :: d' => if String.eqb k k' then Ret v else getitem_dict d' k
  end.

(** The network: every [requests.get] is logged; what comes back is
    either the decoded JSON body, a [RequestException] (connection
    failure, timeout, or the HTTP error of [raise_for_status]) with its
    message, or another exception. *)
Record request : Type := { url : string; timeout : Z }.

Inductive reply : Type :=
| Json (body : pyvalue)
| RequestException (msg : string)
| OtherException (e : exn).

Definition io (A : Type) : Type := list request -> list request * result A.

Section Environment.
(** [format(v)] of an argument inside an f-string, and the remote
    servers. *)
Variable format : pyvalue -> string.
Variable network : list request -> request -> reply.
(** The built-ins [str.strip] and [int] on strings. *)
Variable str_strip : string -> string.
Variable int : string -> result Z.

Definition requests_get_json (u : string) (tmo : Z) : io pyvalue :=
  fun log =>
    let rq := {| url := u; timeout := tmo |} in
    ((log ++ [rq])%list,
     match network log rq with
     | Json body => Ret body
     | RequestException msg =>
         Ret (PDict [("error", PStr ("Request failed: " ++ msg))])
     | OtherException e => Raise e
     end).

Definition key_text (key : option string) : string :=
  match key with
  | Some s => s
  | None => "None"
  end.

Definition get_satellites_above (self : t)
           (lat lon alt radius category : pyvalue) : io pyvalue :=
  fun log =>
    if negb (truthy (n2yo_api_key self)) then
      (log, Ret (PDict [("error", PStr "N2YO API key not set")]))
    else
      match getitem_dict (base_urls self) "n2yo" with
      | Raise e => (log, Raise e)
      | Ret base =>
          let u := base ++ "/above/" ++ format lat ++ "/" ++ format lon
                     ++ "/" ++ format alt ++ "/" ++ format radius
                     ++ "/" ++ format category ++ "/&apiKey="
                     ++ key_text (n2yo_api_key self) in
          requests_get_json u 10 log
      end.

Definition get_satellite_positions (self : t)
           (norad_id lat lon alt seconds : pyvalue) : io pyvalue :=
  fun log =>
    if negb (truthy (n2yo_api_key self)) then
      (log, Ret (PDict [("error", PStr "N2YO API key not set")]))
    else
      match getitem_dict (base_urls self) "n2yo" with
      | Raise e => (log, Raise e)
      | Ret base =>
          let u := base ++ "/positions/" ++ format norad_id ++ "/"
                     ++ format lat ++ "/" ++ format lon ++ "/"
                     ++ format alt ++ "/" ++ format seconds
                     ++ "/&apiKey=" ++ key_text (n2yo_api_key self) in
          requests_get_json u 10 log
      end.

(** [s[lo:hi]] for [0 <= lo <= hi]: shorter when [s] ends early. *)
Definition slice (lo hi : nat) (s : string) : string :=
  substring lo (hi - lo) s.

(** [xs[i]] on a list: in range under the guard of [parse_tle]. *)
Definition getitem (xs : list string) (i : nat) : result string :=
  match nth_error xs i with
  | Some s => Ret s
  | None => Raise IndexError
  end.

Definition parse_tle_step (tle_lines : list string) (i : nat)
           (satellites : list pyvalue) : result (list pyvalue) :=
  if (i + 2 <? List.length tle_lines)%nat then
    l0 <- getitem tle_lines i ;;
    let name := str_strip l0 in
    line1 <- getitem tle_lines (i + 1) ;;
    line2 <- getitem tle_lines (i + 2) ;;
    norad_id <- int (slice 2 7 line1) ;;
    Ret (satellites ++
           [PDict [("name", PStr name); ("norad_id", PInt norad_id);
                   ("line1", PStr line1); ("line2", PStr line2)]])%list
  else Ret satellites.

Definition parse_tle (tle_lines : list string) : result (list pyvalue) :=
  for_in (range3 0 (List.length tle_lines) 3) (parse_tle_step tle_lines) [].

(** Reading aids for the statements about [parse_tle]: line [i] of the
    input, the NORAD field [line1[2:7]] of triple [k], and the record
    built from triple [k]. *)
Definition line (tle_lines : list string) (i : nat) : string :=
  nth i tle_lines "".

Definition norad_field (tle_lines : list string) (k : nat) : string :=
  slice 2 7 (line tle_lines (3 * k + 1)).

Definition record_of (tle_lines : list string) (k : nat) (norad_id : Z)
  : pyvalue :=
  PDict [("name", PStr (str_strip (line tle_lines (3 * k))));
         ("norad_id", PInt norad_id);
         ("line1", PStr (line tle_lines (3 * k + 1)));
         ("line2", PStr (line tle_lines (3 * k + 2)))].

Definition parsed_or_zero (s : string) : Z :=
  match int s with
  | Ret v => v
  | Raise _ => 0%Z
  end.
End Environment.

(** Plain instances of the environment, for running the model: blanks
    stripped at both ends, and unsigned decimal text read as an int
    (what the NORAD field of a well-formed TLE holds). *)
Definition is_blank (c : ascii) : bool :=
  let n := nat_of_ascii c in
  ((9 <=? n) && (n <=? 13) || (28 <=? n) && (n <=? 32))%nat.

Fixpoint lstrip (s : string) : string :=
  match s with
  | String c s' => if is_blank c then lstrip s' else s
  | EmptyString => s
  end.

Fixpoint rstrip (s : string) : string :=
  match s with
  | String c s' =>
      match rstrip s' with
      | EmptyString => if is_blank c then "" else String c ""
      | r => String c r
      end
  | EmptyString => s
  end.

Definition strip (s : string) : string := rstrip (lstrip s).

Definition digit_of (c : ascii) : option Z :=
  let n := nat_of_ascii c in
  if ((48 <=? n) && (n <=? 57))%nat then Some (Z.of_nat n - 48)%Z else None.

Fixpoint digits_value (acc : Z) (s : string) : result Z :=
  match s with
  | EmptyString => Ret acc
  | String c s' =>
      match digit_of c with
      | Some d => digits_value (10 * acc + d)%Z s'
      | None => Raise ValueError
      end
  end.

Definition decimal_int (s : string) : result Z :=
  match strip s with
  | EmptyString => Raise ValueError
  | body => digits_value 0 body
  end.

(** A sample input: one element set and the name line of the next. *)
Definition iss_tle : list string :=
  ["ISS (ZARYA)             ";
   "1 25544U 98067A   24001.00000000  .00016717  00000-0  10270-3 0  9005";
   "2 25544  51.6400 208.9163 0006703  69.9862  25.2906 15.49560532    13";
   "CSS (TIANHE)"].
End SatelliteDataManager.

(** ** The quantities of the monotonicity property *)

(** Distance from the Earth's centre of the point at a geodetic position:
    the converter followed by [distance_from_center]. *)
Definition distance_of_geodetic (lat lon alt : R) : result R :=
  bind (@CoordinateConverter.geodetic_to_cartesian R Ideal.ideal lat lon alt)
       (fun xyz =>
          distance_from_center (fst (fst xyz)) (snd (fst xyz)) (snd xyz)).

(** The same distance squared (km^2), from the specification's formulas. *)
Definition squared_distance (lat lon alt : R) : R :=
  let xyz := Spec.spec_geodetic_to_cartesian lat lon alt in
  (fst (fst xyz) ^ 2 + snd (fst xyz) ^ 2 + snd xyz ^ 2)%R.

(** ** A point off the polar axis where exact arithmetic divides by zero:
    its distance from the axis, in metres (about 30 km). *)
Definition critical_radius : R :=
  (Spec.e2 * Spec.a / R_sqrt.sqrt (2 - Spec.e2))%R.

(** ** The refinement seen through t = tan(lat)

    With g(t) = a / sqrt(1 + (1 - e2) t^2), one pass of the loop sends
    tan(lat) to z / (p - e2 g(tan(lat))). *)

Section TangentDefinitions.
Local Open Scope R_scope.
Definition reduced_radius (t : R) : R :=
  Spec.a / R_sqrt.sqrt (1 + (1 - Spec.e2) * t ^ 2).

Definition next_tangent (p z t : R) : R := z / (p - Spec.e2 * reduced_radius t).

Definition tangent_after (k : nat) (p z : R) : R :=
  Nat.iter k (next_tangent p z) (z / (p * (1 - Spec.e2))).


(** The point at geodetic latitude [phi] (radians) and height [h] (m):
    distance from the polar axis and height above the equatorial plane. *)
Definition axis_distance (phi h : R) : R :=
  (Spec.prime_vertical_radius phi + h) * cos phi.

Definition plane_height (phi h : R) : R :=
  (Spec.prime_vertical_radius phi * (1 - Spec.e2) + h) * sin phi.


(** Where the iterates live: |t| >= Z / P. There the refinement contracts
    the error in the tangent by a factor 100. *)
Definition admissible (phi h t : R) : Prop :=
  plane_height phi h ^ 2 <= t ^ 2 * axis_distance phi h ^ 2.

End TangentDefinitions.


(** ** satellite_data_manager.py: the TLE download *)

Module Celestrak.
Import SatelliteDataManager.
Local Open Scope string_scope.

(** What [requests.get] followed by [raise_for_status] and
    [response.text] gives: the body as text, a [RequestException] with its
    message, or another exception. *)
Inductive text_reply : Type :=
| Text (body : string)
| TextRequestException (msg : string)
| TextOtherException (e : exn).

(** [s.split('\n')]: the pieces between the line feeds, one more than
    there are line feeds. *)
Fixpoint split_newline (s : string) : list string :=
  match s with
  | EmptyString => [""]
  | String c s' =>
      if Ascii.eqb c "010" then "" :: split_newline s'
      else match split_newline s' with
           | piece :: pieces => String c piece :: pieces
           | [] => [String c ""]
           end
  end.

(** ['\n'.join(pieces)] *)
Fixpoint join_newline (pieces : list string) : string :=
  match pieces with
  | [] => ""
  | [piece] => piece
  | piece :: rest => piece ++ String "010" (join_newline rest)
  end.

Section Environment.
Variable network : list request -> request -> text_reply.
Variable str_strip : string -> string.

Definition get_celestrak_tle_data (self : t) (category : string)
  : io (list string) :=
  fun log =>
    match getitem_dict (base_urls self) "celestrak" with
    | Raise e => (log, Raise e)
    | Ret base =>
        let u := base ++ "?GROUP=" ++ category ++ "&FORMAT=tle" in
        let rq := {| url := u; timeout := 10 |} in
        ((log ++ [rq])%list,
         match network log rq with
         | Text body => Ret (split_newline (str_strip body))
         | TextRequestException _ => Ret []
         | TextOtherException e => Raise e
         end)
    end.
End Environment.

(** The addresses are as the constructor set them (no method of the class
    changes [base_urls]). *)
Definition configured (self : t) : Prop :=
  base_urls self = base_urls __init__.
End Celestrak.

(** ** satellite_visualizer.py, in exact arithmetic *)

Module SatelliteVisualizer.
Local Open Scope R_scope.
Local Open Scope py_scope.

(** config.py *)
Definition EARTH_RADIUS_KM : R := 6371.0.

(** The instance: [fig] and [ax] are plotting handles, left out. *)
Record t : Type := { earth_radius : R }.

Definition __init__ : t := {| earth_radius := EARTH_RADIUS_KM |}.

(** [np.linspace(start, stop, num)] for [num > 1]: [arange(num) * step +
    start] with [step = (stop - start) / (num - 1)], the last sample set
    to [stop]. *)
Definition linspace (start stop : R) (num : nat) : list R :=
  let step := (stop - start) / INR (num - 1) in
  (map (fun i => INR i * step + start) (seq 0 (num - 1)) ++ [stop])%list.

(** [np.outer(a, b)]: row [i], column [j] holds [a[i] * b[j]]. *)
Definition outer (a b : list R) : list (list R) :=
  map (fun ai => map (fun bj => ai * bj) b) a.

(** [c * m] for a scalar and a 2-d array. *)
Definition scalar_times (c : R) (m : list (list R)) : list (list R) :=
  map (map (fun v => c * v)) m.

Definition create_earth_sphere (self : t)
  : list (list R) * list (list R) * list (list R) :=
  let u := linspace 0 (2 * PI) 100 in
  let v := linspace 0 PI 100 in
  let x := scalar_times (earth_radius self) (outer (map cos u) (map sin v)) in
  let y := scalar_times (earth_radius self) (outer (map sin u) (map sin v)) in
  let z := scalar_times (earth_radius self)
                        (outer (map (fun _ => 1) u) (map cos v)) in
  (x, y, z).

(** [m[i][j]] of a 2-d array, for indices in range. *)
Definition entry (m : list (list R)) (i j : nat) : R :=
  nth j (nth i m []) 0.

(** The dictionary [create_cone] returns, its five keys as fields. *)
Record cone : Type := {
  apex : Z * Z * Z;
  axis : R * R * R;
  height : Z;
  angle : R;
  target_surface : R * R * R
}.

Definition create_cone (self : t) (target_lat target_lon radius_km : R)
  : result cone :=
  target <- @CoordinateConverter.geodetic_to_cartesian R Ideal.ideal
              target_lat target_lon 0 ;;
  let cone_height := 20000%Z in
  q <- Ideal.div radius_km (earth_radius self) ;;
  let cone_angle := atan q in
  Ret {| apex := (0%Z, 0%Z, 0%Z);
         axis := target;
         height := cone_height;
         angle := cone_angle;
         target_surface := target |}.

(** The foot of a satellite's pin in [visualize_satellites], for a
    satellite whose ['x'], ['y'], ['z'] are numbers: the statements from
    [distance_from_center = ...] to the plotted line. [None] when the
    guard [distance_from_center > 0] fails and no pin is drawn. Exact
    arithmetic: the [OverflowError] that [sat_x**2] raises on a float
    beyond about 1e154, and the underflow of the square to 0.0 below
    about 1e-162, are outside this reading, and the properties are
    stated on a range of positions that stays clear of both. *)
Definition surface_xyz (self : t) (sat_x sat_y sat_z : R)
  : result (option (R * R * R)) :=
  d <- distance_from_center sat_x sat_y sat_z ;;
  if Rlt_dec 0 d then
    surface_x <- Ideal.div (sat_x * earth_radius self) d ;;
    surface_y <- Ideal.div (sat_y * earth_radius self) d ;;
    surface_z <- Ideal.div (sat_z * earth_radius self) d ;;
    Ret (Some (surface_x, surface_y, surface_z))
  else Ret None.
End SatelliteVisualizer.

(** ** satellite_tracker_gui.py: the key entry and the local ephemeris
    file

    The window is a record of what the handlers read and write: the entry
    field of the key, the data manager, the result list, the rows of the
    tree view, the status line, and the message boxes shown so far. *)

Module SatelliteTrackerGUI.
Local Open Scope string_scope.

Inductive dialog : Type :=
| showinfo (title message : string)
| showwarning (title message : string)
| showerror (title message : string).

(** [str(n)] of a non-negative int. *)
Definition str_nat (n : nat) : string :=
  NilEmpty.string_of_uint (Nat.to_uint n).

(** What [pd.read_csv] gives: the rows of the frame, or an exception with
    its message. The frame has the four columns the handler reads, the
    coordinates as floats. *)
Inductive frame (row : Type) : Type :=
| Frame (rows : list row)
| CsvException (msg : string).

Arguments Frame {row} rows.
Arguments CsvException {row} msg.

Section Gui.
Context {F : Type} `{PyFloat F}.

(** One row of the ephemeris file: ['x (km)'], ['y (km)'], ['z (km)'] and
    ['Time (UTCJ4)']. *)
Record row : Type := {
  row_x : F;
  row_y : F;
  row_z : F;
  row_time : string
}.

(** The entry of [current_results] built from a row: the keys ['name'],
    ['id'], ['latitude'], ['longitude'], ['altitude'], ['x'], ['y'], ['z']
    and ['time']. *)
Record sat_data : Type := {
  sat_name : string;
  sat_id : string;
  sat_latitude : F;
  sat_longitude : F;
  sat_altitude : F;
  sat_x : F;
  sat_y : F;
  sat_z : F;
  sat_time : string
}.

Record gui : Type := {
  api_key_var : string;
  data_manager : SatelliteDataManager.t;
  current_results : list sat_data;
  results_tree : list (string * string * string * string * string);
  status_var : string;
  dialogs : list dialog
}.

(** The window after [__init__] and [setup_gui]. *)
Definition __init__ : gui := {|
  api_key_var := "";
  data_manager := SatelliteDataManager.__init__;
  current_results := [];
  results_tree := [];
  status_var := "Ready";
  dialogs := []
|}.

(** The user types into the key field. *)
Definition type_api_key (g : gui) (text : string) : gui := {|
  api_key_var := text;
  data_manager := data_manager g;
  current_results := current_results g;
  results_tree := results_tree g;
  status_var := status_var g;
  dialogs := dialogs g
|}.

Definition set_status (g : gui) (s : string) : gui := {|
  api_key_var := api_key_var g;
  data_manager := data_manager g;
  current_results := current_results g;
  results_tree := results_tree g;
  status_var := s;
  dialogs := dialogs g
|}.

Definition show (g : gui) (d : dialog) : gui := {|
  api_key_var := api_key_var g;
  data_manager := data_manager g;
  current_results := current_results g;
  results_tree := results_tree g;
  status_var := status_var g;
  dialogs := (dialogs g ++ [d])%list
|}.

Section Environment.
(** [str.strip], [f"{v:.<digits>f}"] of a float, [str(e)] of an
    exception, the path the file dialog returns (empty when cancelled)
    and the CSV reader. *)
Variable str_strip : string -> string.
Variable format_fixed : nat -> F -> string.
Variable str_exn : exn -> string.
Variable askopenfilename : string.
Variable read_csv : string -> frame row.

Definition set_api_key (g : gui) : gui :=
  let api_key := str_strip (api_key_var g) in
  match api_key with
  | EmptyString =>
      show g (showwarning "Warning" "Please enter a valid API key")
  | _ =>
      let g1 := {|
        api_key_var := api_key_var g;
        data_manager :=
          SatelliteDataManager.set_n2yo_api_key (data_manager g) api_key;
        current_results := current_results g;
        results_tree := results_tree g;
        status_var := status_var g;
        dialogs := dialogs g
      |} in
      show (set_status g1 "API Key set successfully")
           (showinfo "Success" "API Key set successfully!")
  end.

(** The body of the loop over [df.iterrows()], after the [break] test:
    convert, append to [current_results], insert into the tree. An
    exception of the converter leaves the window as the earlier rows made
    it. *)
Definition load_row (idx : nat) (r : row) (g : gui) : gui * result unit :=
  let x := row_x r in
  let y := row_y r in
  let z := row_z r in
  match CoordinateConverter.cartesian_to_geodetic x y z with
  | Raise e => (g, Raise e)
  | Ret (lat, lon, alt) =>
      let sat := {|
        sat_name := "Satellite_" ++ str_nat (idx + 1);
        sat_id := "LOCAL_" ++ str_nat (idx + 1);
        sat_latitude := lat;
        sat_longitude := lon;
        sat_altitude := alt;
        sat_x := x;
        sat_y := y;
        sat_z := z;
        sat_time := row_time r
      |} in
      ({| api_key_var := api_key_var g;
          data_manager := data_manager g;
          current_results := (current_results g ++ [sat])%list;
          results_tree :=
            (results_tree g ++
             [(sat_name sat, sat_id sat, format_fixed 4 lat,
               format_fixed 4 lon, format_fixed 2 alt)])%list;
          status_var := status_var g;
          dialogs := dialogs g |},
       Ret tt)
  end.

(** [for idx, row in df.iterrows(): if idx >= 100: break; ...], the index
    counting the rows from 0. *)
Fixpoint load_rows (idx : nat) (rows : list row) (g : gui)
  : gui * result unit :=
  match rows with
  | [] => (g, Ret tt)
  | r :: rows' =>
      if (100 <=? idx)%nat then (g, Ret tt)
      else
        match load_row idx r g with
        | (g', Ret _) => load_rows (S idx) rows' g'
        | (g', Raise e) => (g', Raise e)
        end
  end.

(** The [except Exception] branch of [load_local_data]. *)
Definition load_failed (g : gui) (msg : string) : gui :=
  set_status (show g (showerror "Error" ("Failed to load file: " ++ msg)))
             "Load failed".

Definition load_local_data (g : gui) : gui :=
  let file_path := askopenfilename in
  match file_path with
  | EmptyString => g
  | _ =>
      let g1 := set_status g "Loading local data..." in
      match read_csv file_path with
      | CsvException msg => load_failed g1 msg
      | Frame rows =>
          let g2 := {|
            api_key_var := api_key_var g1;
            data_manager := data_manager g1;
            current_results := [];
            results_tree := [];
            status_var := status_var g1;
            dialogs := dialogs g1
          |} in
          match load_rows 0 rows g2 with
          | (g3, Ret _) =>
              set_status g3
                ("Loaded " ++ str_nat (List.length (current_results g3))
                 ++ " satellite positions from local data")
          | (g3, Raise e) => load_failed g3 (str_exn e)
          end
      end
  end.

(** Reading aids for the statements about [load_local_data]: the
    conversion of a row's position, and the entry of [current_results]
    and the tree row built for row number [idx]. *)
Definition convert_row (r : row) : result (F * F * F) :=
  CoordinateConverter.cartesian_to_geodetic (row_x r) (row_y r) (row_z r).

Definition tree_row_of (idx : nat) (lla : F * F * F)
  : string * string * string * string * string :=
  ("Satellite_" ++ str_nat (idx + 1), "LOCAL_" ++ str_nat (idx + 1),
   format_fixed 4 (fst (fst lla)), format_fixed 4 (snd (fst lla)),
   format_fixed 2 (snd lla)).

Definition entry_of (idx : nat) (r : row) (lla : F * F * F) : sat_data := {|
  sat_name := "Satellite_" ++ str_nat (idx + 1);
  sat_id := "LOCAL_" ++ str_nat (idx + 1);
  sat_latitude := fst (fst lla);
  sat_longitude := snd (fst lla);
  sat_altitude := snd lla;
  sat_x := row_x r;
  sat_y := row_y r;
  sat_z := row_z r;
  sat_time := row_time r
|}.
End Environment.
End Gui.
End SatelliteTrackerGUI.
(** * Properties *)

Import CoordinateConverter.
#[local] Existing Instance Ideal.ideal.

(** ** Exact arithmetic: the operators *)

Section IdealOperators.
Local Open Scope R_scope.

Lemma lit_a : Q2R 6378137.0 = Spec.a.
Proof. unfold Q2R, Spec.a; simpl. lra. Qed.

Lemma div_ok (x y : R) : y <> 0 -> Ideal.div x y = Ret (x / y).
Proof.
  intros Hy; unfold Ideal.div.
  destruct (Req_dec_T y 0); [ contradiction | reflexivity ].
Qed.

Lemma div_zero (x y : R) : y = 0 -> Ideal.div x y = Raise ZeroDivisionError.
Proof.
  intros Hy; unfold Ideal.div.
  destruct (Req_dec_T y 0); [ reflexivity | contradiction ].
Qed.

Lemma sqrt_ok (x : R) : 0 <= x -> Ideal.sqrt x = Ret (R_sqrt.sqrt x).
Proof.
  intros Hx; unfold Ideal.sqrt.
  destruct (Rlt_dec x 0); [ lra | reflexivity ].
Qed.

Lemma div_flattening : Ideal.div 1 298.257223563 = Ret Spec.f.
Proof. rewrite div_ok by lra. reflexivity. Qed.

Lemma div_1000 (x : R) : Ideal.div x 1000 = Ret (x / 1000).
Proof. apply div_ok. lra. Qed.

Lemma degrees_ideal (x : R) : x * (180 / PI) = Spec.degrees x.
Proof. unfold Spec.degrees. field. apply PI_neq0. Qed.

Lemma radians_ideal (x : R) : x * (PI / 180) = Spec.radians x.
Proof. unfold Spec.radians. field. Qed.

Lemma range_5 : range 5 = [0; 1; 2; 3; 4]%nat.
Proof. reflexivity. Qed.

Lemma atan2_zero_pos (x : R) : 0 < x -> Ideal.atan2 0 x = 0.
Proof.
  intros Hx. unfold Ideal.atan2. destruct (Rlt_dec 0 x); [ | contradiction ].
  unfold Rdiv. rewrite Rmult_0_l. apply atan_0.
Qed.

Lemma atan2_zero_zero : Ideal.atan2 0 0 = 0.
Proof.
  unfold Ideal.atan2.
  destruct (Rlt_dec 0 0); [ lra | ]. reflexivity.
Qed.

Lemma atan2_cos_pos (y x : R) : 0 < x -> 0 < cos (Ideal.atan2 y x).
Proof.
  intros Hx. unfold Ideal.atan2. destruct (Rlt_dec 0 x); [ | contradiction ].
  pose proof (atan_bound (y / x)). apply cos_gt_0; lra.
Qed.

End IdealOperators.

(** Unfolds the interface at [ideal], leaving literals and the real
    operators in place. *)
Ltac ideal_ops :=
  cbn [of_int of_lit fadd fsub fmul truediv math_sqrt math_sin math_cos
       math_atan2 math_degrees math_radians Ideal.ideal bind fst snd].

(** The first lines shared by both conversions: the WGS84 constants. *)
Ltac enter_converter :=
  ideal_ops; rewrite div_flattening; ideal_ops;
  replace (2 * Spec.f - Spec.f * Spec.f)%R with Spec.e2
    by (unfold Spec.e2; ring);
  rewrite lit_a.

(** ** Exact arithmetic: the ellipsoid *)

Section Ellipsoid.
Local Open Scope R_scope.

Lemma e2_bounds : 0 < Spec.e2 < 1.
Proof. unfold Spec.e2, Spec.f. lra. Qed.

Lemma a_pos : 0 < Spec.a.
Proof. unfold Spec.a. lra. Qed.

Lemma e2a_lt_a : Spec.e2 * Spec.a < Spec.a.
Proof. pose proof e2_bounds. pose proof a_pos. nra. Qed.

Lemma radicand_pos (lat : R) : 0 < 1 - Spec.e2 * sin lat * sin lat.
Proof.
  pose proof e2_bounds as [H0 H1].
  pose proof (sin2_cos2 lat) as Hsc. unfold Rsqr in Hsc.
  assert (0 <= cos lat * cos lat) by nra.
  assert (0 <= sin lat * sin lat) by nra.
  nra.
Qed.

Lemma sqrt_radicand (lat : R) :
  Ideal.sqrt (1 - Spec.e2 * sin lat * sin lat)
  = Ret (R_sqrt.sqrt (1 - Spec.e2 * sin lat ^ 2)).
Proof.
  rewrite sqrt_ok by (pose proof (radicand_pos lat); lra).
  do 2 f_equal. ring.
Qed.

Lemma sqrt_radicand_pos (lat : R) :
  0 < R_sqrt.sqrt (1 - Spec.e2 * sin lat ^ 2).
Proof.
  apply sqrt_lt_R0. pose proof (radicand_pos lat). lra.
Qed.

Lemma div_a_radicand (lat : R) :
  Ideal.div Spec.a (R_sqrt.sqrt (1 - Spec.e2 * sin lat ^ 2))
  = Ret (Spec.prime_vertical_radius lat).
Proof.
  rewrite div_ok by (pose proof (sqrt_radicand_pos lat); lra). reflexivity.
Qed.

Lemma prime_vertical_radius_0 : Spec.prime_vertical_radius 0 = Spec.a.
Proof.
  unfold Spec.prime_vertical_radius. rewrite sin_0.
  replace (1 - Spec.e2 * 0 ^ 2) with 1 by ring.
  rewrite sqrt_1. field.
Qed.

Lemma prime_vertical_radicand (lat : R) :
  Spec.prime_vertical_radius lat * (1 - Spec.e2 * sin lat ^ 2)
  = Spec.a * R_sqrt.sqrt (1 - Spec.e2 * sin lat ^ 2).
Proof.
  pose proof (sqrt_radicand_pos lat) as Hs.
  pose proof (radicand_pos lat) as Hr.
  unfold Spec.prime_vertical_radius.
  rewrite <- (sqrt_def (1 - Spec.e2 * sin lat ^ 2)) at 2 by lra.
  field. lra.
Qed.

Lemma cos_le_sqrt_radicand (lat : R) :
  0 < cos lat -> cos lat <= R_sqrt.sqrt (1 - Spec.e2 * sin lat ^ 2).
Proof.
  intros Hc. pose proof e2_bounds as [H0 H1].
  pose proof (sin2_cos2 lat) as Hsc. unfold Rsqr in Hsc.
  rewrite <- (sqrt_Rsqr (cos lat)) at 1 by lra.
  apply sqrt_le_1_alt. unfold Rsqr.
  assert (0 <= sin lat * sin lat) by nra. nra.
Qed.

Lemma prime_vertical_cos_le (lat : R) :
  0 < cos lat -> Spec.prime_vertical_radius lat * cos lat <= Spec.a.
Proof.
  intros Hc. pose proof (cos_le_sqrt_radicand lat Hc) as Hle.
  pose proof (sqrt_radicand_pos lat) as Hs.
  pose proof a_pos as Ha.
  unfold Spec.prime_vertical_radius.
  replace (Spec.a / R_sqrt.sqrt (1 - Spec.e2 * sin lat ^ 2) * cos lat)
    with (Spec.a * (cos lat / R_sqrt.sqrt (1 - Spec.e2 * sin lat ^ 2)))
    by (field; lra).
  assert (cos lat / R_sqrt.sqrt (1 - Spec.e2 * sin lat ^ 2) <= 1).
  { apply Rmult_le_reg_r with (R_sqrt.sqrt (1 - Spec.e2 * sin lat ^ 2));
      [ exact Hs | ].
    unfold Rdiv. rewrite Rmult_assoc, Rinv_l by lra. lra. }
  nra.
Qed.

End Ellipsoid.

(** ** Exact arithmetic: the refinement loop *)

Section RefinementLoop.
Local Open Scope R_scope.

Lemma refine_latitude_ret (p z : R) (k : nat) (lat : R) (o : option R) :
  Spec.refinement_defined p lat ->
  refine_latitude Spec.a Spec.e2 p z k (lat, o)
  = Ret (Spec.next_latitude p z lat, Some (Spec.altitude_at p lat)).
Proof.
  intros [Hc Hd]. unfold refine_latitude. ideal_ops.
  rewrite sqrt_radicand. ideal_ops. rewrite div_a_radicand. ideal_ops.
  rewrite (div_ok _ _ Hc). ideal_ops.
  fold (Spec.altitude_at p lat).
  rewrite (div_ok _ _ Hd). ideal_ops. reflexivity.
Qed.

Lemma refine_latitude_raise (p z : R) (k : nat) (lat : R) (o : option R) :
  ~ Spec.refinement_defined p lat ->
  refine_latitude Spec.a Spec.e2 p z k (lat, o) = Raise ZeroDivisionError.
Proof.
  intros Hn. unfold refine_latitude. ideal_ops.
  rewrite sqrt_radicand. ideal_ops. rewrite div_a_radicand. ideal_ops.
  destruct (Req_dec_T (cos lat) 0) as [Hc | Hc].
  - rewrite (div_zero _ _ Hc). reflexivity.
  - rewrite (div_ok _ _ Hc). ideal_ops. fold (Spec.altitude_at p lat).
    destruct (Req_dec_T
                (Spec.prime_vertical_radius lat + Spec.altitude_at p lat) 0)
      as [Hd | Hd].
    + rewrite (div_zero _ _ Hd). reflexivity.
    + exfalso. apply Hn. split; assumption.
Qed.

Lemma refinement_defined_dec (p lat : R) :
  {Spec.refinement_defined p lat} + {~ Spec.refinement_defined p lat}.
Proof.
  unfold Spec.refinement_defined.
  destruct (Req_dec_T (cos lat) 0) as [Hc | Hc].
  - right. intros [H _]. contradiction.
  - destruct (Req_dec_T
                (Spec.prime_vertical_radius lat + Spec.altitude_at p lat) 0)
      as [Hd | Hd].
    + right. intros [_ H]. contradiction.
    + left. split; assumption.
Qed.

(** The loop over any index list, from latitude [lat]: as many refinements
    as there are indices, the altitude being that of the last pass. *)
Lemma loop_ret (p z : R) (idx : list nat) :
  forall (lat : R) (o : option R),
  (forall k, (k < List.length idx)%nat ->
     Spec.refinement_defined p (Nat.iter k (Spec.next_latitude p z) lat)) ->
  for_in idx (refine_latitude Spec.a Spec.e2 p z) (lat, o)
  = Ret (Nat.iter (List.length idx) (Spec.next_latitude p z) lat,
         match List.length idx with
         | O => o
         | S m => Some (Spec.altitude_at p
                          (Nat.iter m (Spec.next_latitude p z) lat))
         end).
Proof.
  induction idx as [ | i idx IH ]; intros lat o Hdef.
  - reflexivity.
  - cbn [for_in List.length].
    rewrite refine_latitude_ret by (apply (Hdef 0%nat); cbn; lia).
    cbn [bind]. rewrite IH.
    + rewrite <- Nat.iter_succ_r. f_equal. f_equal.
      destruct (List.length idx) as [ | m ].
      * reflexivity.
      * rewrite <- Nat.iter_succ_r. reflexivity.
    + intros k Hk. rewrite <- Nat.iter_succ_r. apply Hdef. cbn. lia.
Qed.

Lemma loop_raise (p z : R) (idx : list nat) :
  forall (lat : R) (o : option R),
  ~ (forall k, (k < List.length idx)%nat ->
       Spec.refinement_defined p (Nat.iter k (Spec.next_latitude p z) lat)) ->
  for_in idx (refine_latitude Spec.a Spec.e2 p z) (lat, o)
  = Raise ZeroDivisionError.
Proof.
  induction idx as [ | i idx IH ]; intros lat o Hn.
  - exfalso. apply Hn. intros k Hk. cbn in Hk. lia.
  - cbn [for_in].
    destruct (refinement_defined_dec p lat) as [Hd | Hd].
    + rewrite (refine_latitude_ret _ z i _ o Hd). cbn [bind]. apply IH.
      intros Hall. apply Hn. intros [ | k ] Hk.
      * exact Hd.
      * rewrite Nat.iter_succ_r. apply Hall. cbn in Hk. lia.
    + rewrite (refine_latitude_raise _ z i _ o Hd). reflexivity.
Qed.

Lemma sqrt_horizontal (x y : R) :
  Ideal.sqrt (x * x + y * y) = Ret (R_sqrt.sqrt (x ^ 2 + y ^ 2)).
Proof.
  rewrite sqrt_ok by nra. do 2 f_equal. ring.
Qed.

Lemma cartesian_to_geodetic_defined (x y z : R) :
  Spec.refinements_defined x y z ->
  cartesian_to_geodetic x y z = Ret (Spec.spec_cartesian_to_geodetic x y z).
Proof.
  intros Hdef. unfold cartesian_to_geodetic. enter_converter.
  rewrite sqrt_horizontal. ideal_ops. rewrite range_5.
  rewrite loop_ret by exact Hdef.
  cbn [List.length fst snd bind]. rewrite div_1000. cbn [bind].
  rewrite !degrees_ideal. reflexivity.
Qed.

Lemma cartesian_to_geodetic_undefined (x y z : R) :
  ~ Spec.refinements_defined x y z ->
  cartesian_to_geodetic x y z = Raise ZeroDivisionError.
Proof.
  intros Hn. unfold cartesian_to_geodetic. enter_converter.
  rewrite sqrt_horizontal. ideal_ops. rewrite range_5.
  rewrite loop_raise by exact Hn. reflexivity.
Qed.

Lemma geodetic_to_cartesian_ideal (lat lon alt : R) :
  geodetic_to_cartesian lat lon alt
  = Ret (Spec.spec_geodetic_to_cartesian lat lon alt).
Proof.
  unfold geodetic_to_cartesian. enter_converter.
  rewrite !radians_ideal.
  rewrite sqrt_radicand. ideal_ops. rewrite div_a_radicand. ideal_ops.
  rewrite !div_1000. cbn [bind]. reflexivity.
Qed.

(** *** The Earth's centre *)

Lemma origin_first_pass_undefined : ~ Spec.refinement_defined 0 0.
Proof.
  intros [_ Hd]. apply Hd.
  unfold Spec.altitude_at. rewrite cos_0. field.
Qed.

Lemma origin_not_defined : ~ Spec.refinements_defined 0 0 0.
Proof.
  intros Hdef. apply origin_first_pass_undefined.
  specialize (Hdef 0%nat ltac:(lia)).
  cbn [Spec.latitude_after Nat.iter nat_rect] in Hdef.
  replace (0 * 1000) with 0 in Hdef by ring.
  replace (0 ^ 2 + 0 ^ 2) with 0 in Hdef by ring.
  rewrite sqrt_0, Rmult_0_l, atan2_zero_zero in Hdef. exact Hdef.
Qed.

Lemma cartesian_to_geodetic_origin_ideal :
  cartesian_to_geodetic 0 0 0 = Raise ZeroDivisionError.
Proof. apply cartesian_to_geodetic_undefined, origin_not_defined. Qed.

(** *** The equatorial plane: the latitude stays 0 *)

Lemma next_latitude_equator (p : R) :
  Spec.e2 * Spec.a < p -> Spec.next_latitude p 0 0 = 0.
Proof.
  intros Hp. unfold Spec.next_latitude, Spec.altitude_at.
  rewrite prime_vertical_radius_0, cos_0.
  apply atan2_zero_pos.
  pose proof e2_bounds as [H0 H1]. pose proof a_pos as Ha.
  assert (Hp0 : 0 < p) by nra.
  replace (p * (1 - Spec.e2 * Spec.a / (Spec.a + (p / 1 - Spec.a))))
    with (p - Spec.e2 * Spec.a) by (field; lra).
  lra.
Qed.

Lemma latitude_after_equator (p : R) (k : nat) :
  Spec.e2 * Spec.a < p -> Spec.latitude_after k p 0 = 0.
Proof.
  intros Hp. unfold Spec.latitude_after.
  pose proof e2_bounds as [H0 H1]. pose proof a_pos as Ha.
  assert (Hp0 : 0 < p) by nra.
  induction k as [ | k IH ].
  - cbn. apply atan2_zero_pos. nra.
  - rewrite Nat.iter_succ, IH. apply next_latitude_equator, Hp.
Qed.

Lemma equator_defined (p : R) :
  Spec.e2 * Spec.a < p -> Spec.refinement_defined p 0.
Proof.
  intros Hp. pose proof e2_bounds as [H0 H1]. pose proof a_pos as Ha.
  split.
  - rewrite cos_0. lra.
  - unfold Spec.altitude_at. rewrite prime_vertical_radius_0, cos_0. nra.
Qed.

Lemma reference_point_p :
  R_sqrt.sqrt ((6378.137 * 1000) ^ 2 + (0 * 1000) ^ 2) = Spec.a.
Proof.
  replace ((6378.137 * 1000) ^ 2 + (0 * 1000) ^ 2) with (Rsqr Spec.a)
    by (unfold Spec.a, Rsqr; lra).
  apply sqrt_Rsqr. unfold Spec.a. lra.
Qed.

Lemma reference_point_defined : Spec.refinements_defined 6378.137 0 0.
Proof.
  intros k Hk. cbv zeta. rewrite reference_point_p.
  replace (0 * 1000) with 0 by ring.
  rewrite latitude_after_equator by apply e2a_lt_a.
  apply equator_defined, e2a_lt_a.
Qed.

Lemma reference_point_value :
  Spec.spec_cartesian_to_geodetic 6378.137 0 0 = (0, 0, 0).
Proof.
  unfold Spec.spec_cartesian_to_geodetic.
  rewrite reference_point_p.
  replace (0 * 1000) with 0 by ring.
  rewrite !latitude_after_equator by apply e2a_lt_a.
  rewrite atan2_zero_pos by lra.
  unfold Spec.altitude_at. rewrite prime_vertical_radius_0, cos_0.
  unfold Spec.degrees, Spec.a.
  repeat f_equal; field; apply PI_neq0.
Qed.

Lemma cartesian_to_geodetic_reference_ideal :
  cartesian_to_geodetic 6378.137 0 0 = Ret (0, 0, 0).
Proof.
  rewrite cartesian_to_geodetic_defined by apply reference_point_defined.
  rewrite reference_point_value. reflexivity.
Qed.

Lemma geodetic_to_cartesian_origin_ideal :
  geodetic_to_cartesian 0 0 0 = Ret (6378.137, 0, 0).
Proof.
  rewrite geodetic_to_cartesian_ideal. unfold Spec.spec_geodetic_to_cartesian.
  unfold Spec.radians.
  replace (0 * PI / 180) with 0 by field.
  rewrite prime_vertical_radius_0, sin_0, cos_0. unfold Spec.a.
  repeat f_equal; lra.
Qed.

(** *** Away from the polar axis the cosine of the latitude stays positive *)

Lemma refinement_far (p z lat : R) :
  Spec.e2 * Spec.a < p -> 0 < cos lat ->
  Spec.refinement_defined p lat /\ 0 < cos (Spec.next_latitude p z lat).
Proof.
  intros Hp Hc. pose proof e2_bounds as [H0 H1]. pose proof a_pos as Ha.
  assert (Hp0 : 0 < p) by nra.
  pose proof (prime_vertical_cos_le lat Hc) as HN.
  assert (Hsum : Spec.prime_vertical_radius lat + Spec.altitude_at p lat
                 = p / cos lat).
  { unfold Spec.altitude_at. ring. }
  assert (Hq : 0 < p / cos lat) by (apply Rdiv_lt_0_compat; lra).
  split.
  - split; [ lra | rewrite Hsum; lra ].
  - unfold Spec.next_latitude. apply atan2_cos_pos. rewrite Hsum.
    replace (p * (1 - Spec.e2 * Spec.prime_vertical_radius lat / (p / cos lat)))
      with (p - Spec.e2 * (Spec.prime_vertical_radius lat * cos lat))
      by (field; lra).
    nra.
Qed.

Lemma latitude_after_far (p z : R) (k : nat) :
  Spec.e2 * Spec.a < p -> 0 < cos (Spec.latitude_after k p z).
Proof.
  intros Hp. pose proof e2_bounds as [H0 H1]. pose proof a_pos as Ha.
  assert (Hp0 : 0 < p) by nra.
  unfold Spec.latitude_after. induction k as [ | k IH ].
  - cbn. apply atan2_cos_pos. nra.
  - rewrite Nat.iter_succ. apply refinement_far; assumption.
Qed.

Lemma far_from_axis_defined (x y z : R) :
  Spec.e2 * Spec.a / 1000 < R_sqrt.sqrt (x ^ 2 + y ^ 2) ->
  Spec.refinements_defined x y z.
Proof.
  intros Hp k _. cbv zeta.
  assert (Hp' : Spec.e2 * Spec.a
                < R_sqrt.sqrt ((x * 1000) ^ 2 + (y * 1000) ^ 2)).
  { replace ((x * 1000) ^ 2 + (y * 1000) ^ 2)
      with ((x ^ 2 + y ^ 2) * Rsqr 1000) by (unfold Rsqr; ring).
    rewrite sqrt_mult_alt by nra. rewrite sqrt_Rsqr by lra. lra. }
  refine (proj1 (refinement_far _ (z * 1000) _ Hp' _)).
  apply latitude_after_far, Hp'.
Qed.

End RefinementLoop.

(** ** Exact arithmetic: a failure off the polar axis

    At distance e2 a / sqrt(2 - e2) from the axis (about 30 km) and height
    (1 - e2) times that, the first guess is 45 degrees, the first pass
    lands exactly on 90 degrees, and the second pass divides by
    cos(90 degrees) = 0. *)

Section OffAxisFailure.
Local Open Scope R_scope.

Lemma sqrt_2_minus_e2_pos : 0 < R_sqrt.sqrt (2 - Spec.e2).
Proof. apply sqrt_lt_R0. pose proof e2_bounds. lra. Qed.

Lemma critical_radius_pos : 0 < critical_radius.
Proof.
  unfold critical_radius. pose proof e2_bounds. pose proof a_pos.
  apply Rdiv_lt_0_compat; [ nra | apply sqrt_2_minus_e2_pos ].
Qed.

Lemma sin_PI4_sqr : sin (PI / 4) ^ 2 = 1 / 2.
Proof.
  rewrite sin_PI4. pose proof (sqrt_def 2 ltac:(lra)) as H2.
  assert (R_sqrt.sqrt 2 <> 0) by (intros E; rewrite E in H2; lra).
  field_simplify_eq; [ | assumption ]. nra.
Qed.

Lemma prime_vertical_radius_PI4 :
  Spec.prime_vertical_radius (PI / 4)
  = Spec.a * R_sqrt.sqrt 2 / R_sqrt.sqrt (2 - Spec.e2).
Proof.
  unfold Spec.prime_vertical_radius. rewrite sin_PI4_sqr.
  pose proof e2_bounds as [H0 H1].
  pose proof sqrt_2_minus_e2_pos as Hs.
  assert (H2 : 0 < R_sqrt.sqrt 2) by (apply sqrt_lt_R0; lra).
  replace (1 - Spec.e2 * (1 / 2)) with ((2 - Spec.e2) * / 2) by field.
  rewrite sqrt_mult_alt by lra.
  rewrite sqrt_inv. field. split; lra.
Qed.

Lemma next_latitude_critical :
  Spec.next_latitude critical_radius (critical_radius * (1 - Spec.e2)) (PI / 4)
  = PI / 2.
Proof.
  pose proof e2_bounds as [H0 H1]. pose proof a_pos as Ha.
  pose proof sqrt_2_minus_e2_pos as Hs.
  pose proof critical_radius_pos as Hp.
  assert (H2 : 0 < R_sqrt.sqrt 2) by (apply sqrt_lt_R0; lra).
  pose proof (sqrt_def 2 ltac:(lra)) as H22.
  unfold Spec.next_latitude, Spec.altitude_at.
  rewrite prime_vertical_radius_PI4, cos_PI4.
  replace (critical_radius
           * (1 - Spec.e2 * (Spec.a * R_sqrt.sqrt 2 / R_sqrt.sqrt (2 - Spec.e2))
                  / (Spec.a * R_sqrt.sqrt 2 / R_sqrt.sqrt (2 - Spec.e2)
                     + (critical_radius / (1 / R_sqrt.sqrt 2)
                        - Spec.a * R_sqrt.sqrt 2 / R_sqrt.sqrt (2 - Spec.e2)))))
    with 0.
  - unfold Ideal.atan2.
    destruct (Rlt_dec 0 0) as [H | _]; [ lra | ].
    destruct (Rlt_dec 0 0) as [H | _]; [ lra | ].
    destruct (Rlt_dec 0 (critical_radius * (1 - Spec.e2))) as [_ | H];
      [ reflexivity | exfalso; apply H; nra ].
  - unfold critical_radius. field.
    assert (0 < Spec.e2 * Spec.a * R_sqrt.sqrt 2)
      by (repeat apply Rmult_lt_0_compat; lra).
    repeat split; lra.
Qed.

Lemma critical_point_undefined :
  ~ Spec.refinements_defined (critical_radius / 1000) 0
      (critical_radius * (1 - Spec.e2) / 1000).
Proof.
  intros Hdef. destruct (Hdef 1%nat ltac:(lia)) as [Hc _]. apply Hc.
  pose proof critical_radius_pos as Hp. pose proof e2_bounds as [H0 H1].
  replace (R_sqrt.sqrt ((critical_radius / 1000 * 1000) ^ 2 + (0 * 1000) ^ 2))
    with critical_radius.
  2:{ replace ((critical_radius / 1000 * 1000) ^ 2 + (0 * 1000) ^ 2)
        with (Rsqr critical_radius) by (unfold Rsqr; field).
      rewrite sqrt_Rsqr; lra. }
  replace (critical_radius * (1 - Spec.e2) / 1000 * 1000)
    with (critical_radius * (1 - Spec.e2)) by field.
  unfold Spec.latitude_after. rewrite Nat.iter_succ. cbn [Nat.iter nat_rect].
  replace (Ideal.atan2 (critical_radius * (1 - Spec.e2))
                       (critical_radius * (1 - Spec.e2)))
    with (PI / 4).
  - rewrite next_latitude_critical. apply cos_PI2.
  - unfold Ideal.atan2.
    destruct (Rlt_dec 0 (critical_radius * (1 - Spec.e2))) as [_ | H];
      [ | exfalso; apply H; nra ].
    unfold Rdiv. rewrite Rinv_r by nra. symmetry. apply atan_1.
Qed.

Lemma cartesian_to_geodetic_critical_ideal :
  cartesian_to_geodetic (critical_radius / 1000) 0
                        (critical_radius * (1 - Spec.e2) / 1000)
  = Raise ZeroDivisionError.
Proof. apply cartesian_to_geodetic_undefined, critical_point_undefined. Qed.

End OffAxisFailure.

(** ** Exact arithmetic: distance from the centre as a function of altitude *)

Section Distance.
Local Open Scope R_scope.

Lemma squared_distance_nonneg (lat lon alt : R) :
  0 <= squared_distance lat lon alt.
Proof. unfold squared_distance. cbv zeta. nra. Qed.

Lemma distance_of_geodetic_ideal (lat lon alt : R) :
  distance_of_geodetic lat lon alt
  = Ret (R_sqrt.sqrt (squared_distance lat lon alt)).
Proof.
  unfold distance_of_geodetic. rewrite geodetic_to_cartesian_ideal.
  cbn [bind]. unfold distance_from_center.
  rewrite sqrt_ok by apply squared_distance_nonneg. reflexivity.
Qed.

(** The squared distance is a monic quadratic in the altitude. *)
Lemma squared_distance_diff (lat lon alt1 alt2 : R) :
  squared_distance lat lon alt2 - squared_distance lat lon alt1
  = (alt2 - alt1)
    * (alt1 + alt2
       + 2 * (Spec.a * R_sqrt.sqrt (1 - Spec.e2 * sin (Spec.radians lat) ^ 2))
         / 1000).
Proof.
  rewrite <- prime_vertical_radicand.
  unfold squared_distance, Spec.spec_geodetic_to_cartesian. cbv zeta.
  cbn [fst snd].
  pose proof (sin2_cos2 (Spec.radians lat)) as H1. unfold Rsqr in H1.
  pose proof (sin2_cos2 (Spec.radians lon)) as H2. unfold Rsqr in H2.
  generalize (Spec.prime_vertical_radius (Spec.radians lat)). intros N.
  set (s := sin (Spec.radians lat)) in *.
  set (c := cos (Spec.radians lat)) in *.
  set (sl := sin (Spec.radians lon)) in *.
  set (cl := cos (Spec.radians lon)) in *.
  assert (Hc : c * c = 1 - s * s) by lra.
  assert (Hcl : cl * cl = 1 - sl * sl) by lra.
  transitivity
    (((N + alt2 * 1000) ^ 2 * (c * c) * (cl * cl + sl * sl)
      + (N * (1 - Spec.e2) + alt2 * 1000) ^ 2 * (s * s)
      - (N + alt1 * 1000) ^ 2 * (c * c) * (cl * cl + sl * sl)
      - (N * (1 - Spec.e2) + alt1 * 1000) ^ 2 * (s * s)) / 1000000).
  - field.
  - rewrite Hcl, Hc. field.
Qed.

Lemma distance_monotone_iff (lat lon alt1 alt2 : R) :
  alt1 < alt2 ->
  (R_sqrt.sqrt (squared_distance lat lon alt1)
   < R_sqrt.sqrt (squared_distance lat lon alt2)
   <-> - 2 * (Spec.a * R_sqrt.sqrt (1 - Spec.e2 * sin (Spec.radians lat) ^ 2))
         / 1000 < alt1 + alt2).
Proof.
  intros Hlt. pose proof (squared_distance_diff lat lon alt1 alt2) as Hd.
  pose proof (squared_distance_nonneg lat lon alt1) as H1.
  pose proof (squared_distance_nonneg lat lon alt2) as H2.
  split.
  - intros Hs. apply sqrt_lt_0_alt in Hs. nra.
  - intros Hs. apply sqrt_lt_1_alt. split; [ exact H1 | nra ].
Qed.

(** The semi-minor axis bounds the turning altitude at every latitude. *)
Lemma semi_minor_le (lat : R) :
  R_sqrt.sqrt (1 - Spec.e2) <= R_sqrt.sqrt (1 - Spec.e2 * sin lat ^ 2).
Proof.
  pose proof e2_bounds as [H0 H1].
  pose proof (sin2_cos2 lat) as Hsc. unfold Rsqr in Hsc.
  apply sqrt_le_1_alt.
  assert (0 <= cos lat * cos lat) by nra.
  assert (sin lat ^ 2 <= 1) by nra.
  nra.
Qed.

End Distance.

(** ** Binary64: the calls that meet only special values

    At these inputs [sin] and [cos] are called at zero only and [atan2]
    with a zero first argument only, so the outcome is the same for every
    C library [M]. *)

Section Binary64Runs.
Import Binary64.
Local Open Scope float_scope.

Lemma literal_values :
  literal 6378137.0 = 6378137 /\ literal 298.257223563 = 298.257223563.
Proof. split; vm_compute; reflexivity. Qed.

Lemma cartesian_to_geodetic_origin_binary64 (M : Libm) :
  @cartesian_to_geodetic float (binary64 M) 0 0 0 = Raise ZeroDivisionError.
Proof. vm_compute. reflexivity. Qed.

(** 1e-16 km from the axis: [p] is 1e-13 m, [p / cos(0) - N] rounds to
    [-N], and [N + alt] is 0. *)
Lemma cartesian_to_geodetic_near_axis_binary64 (M : Libm) :
  @cartesian_to_geodetic float (binary64 M) 1e-16 0 0
  = Raise ZeroDivisionError.
Proof. vm_compute. reflexivity. Qed.

Lemma cartesian_to_geodetic_reference_binary64 (M : Libm) :
  @cartesian_to_geodetic float (binary64 M) 6378.137 0 0 = Ret (0, 0, 0).
Proof. vm_compute. reflexivity. Qed.

Lemma geodetic_to_cartesian_origin_binary64 (M : Libm) :
  @geodetic_to_cartesian float (binary64 M) 0 0 0 = Ret (6378.137, 0, 0).
Proof. vm_compute. reflexivity. Qed.

(** An altitude below half an ulp of [N] is absorbed: in binary64,
    for every C library, [geodetic_to_cartesian(0, 0, 1e-13)] returns the
    point of [geodetic_to_cartesian(0, 0, 0)]. *)
Lemma altitude_absorbed_binary64 (M : Libm) :
  @geodetic_to_cartesian float (binary64 M) 0 0 1e-13
  = @geodetic_to_cartesian float (binary64 M) 0 0 0.
Proof. vm_compute. reflexivity. Qed.

End Binary64Runs.

(** ** satellite_data_manager.py *)

Section DataManager.
Import SatelliteDataManager.
Local Open Scope string_scope.
Local Open Scope list_scope.
Local Open Scope nat_scope.

Lemma truthy_unset (key : option string) :
  key = None \/ key = Some "" -> truthy key = false.
Proof. intros [-> | ->]; reflexivity. Qed.

Lemma getitem_in_range (xs : list string) (i : nat) :
  i < List.length xs -> getitem xs i = Ret (nth i xs "").
Proof.
  intros Hi. unfold getitem.
  rewrite (nth_error_nth' xs "" Hi). reflexivity.
Qed.

Lemma complete_triple (n k : nat) : k < n / 3 -> 3 * k + 2 < n.
Proof.
  intros Hk. pose proof (Nat.div_mod_eq n 3).
  pose proof (Nat.mod_upper_bound n 3). lia.
Qed.

Lemma incomplete_triple (n k : nat) : n / 3 <= k -> n <= 3 * k + 2.
Proof.
  intros Hk. pose proof (Nat.div_mod_eq n 3).
  pose proof (Nat.mod_upper_bound n 3). lia.
Qed.

Variable str_strip : string -> string.
Variable int : string -> result Z.

Lemma parse_tle_step_complete (tle_lines : list string) (k : nat)
      (satellites : list pyvalue) (v : Z) :
  3 * k + 2 < List.length tle_lines ->
  int (norad_field tle_lines k) = Ret v ->
  parse_tle_step str_strip int tle_lines (0 + k * 3) satellites
  = Ret (satellites ++ [record_of str_strip tle_lines k v]).
Proof.
  intros Hlt Hint. unfold parse_tle_step.
  replace (0 + k * 3) with (3 * k) by lia.
  destruct (Nat.ltb_spec (3 * k + 2) (List.length tle_lines)) as [ _ | Hge ];
    [ | lia ].
  rewrite !getitem_in_range by lia. cbn [bind].
  unfold norad_field, line in Hint. rewrite Hint. reflexivity.
Qed.

Lemma parse_tle_step_incomplete (tle_lines : list string) (k : nat)
      (satellites : list pyvalue) :
  List.length tle_lines <= 3 * k + 2 ->
  parse_tle_step str_strip int tle_lines (0 + k * 3) satellites
  = Ret satellites.
Proof.
  intros Hge. unfold parse_tle_step.
  replace (0 + k * 3) with (3 * k) by lia.
  destruct (Nat.ltb_spec (3 * k + 2) (List.length tle_lines)); [ lia | ].
  reflexivity.
Qed.

(** The loop from triple [s] on, over [m] indices: one record per complete
    triple, appended in order. *)
Lemma parse_tle_loop (tle_lines : list string) (m : nat) :
  forall (s : nat) (satellites : list pyvalue),
  (forall k, s <= k < s + m -> k < List.length tle_lines / 3 ->
     returns (int (norad_field tle_lines k))) ->
  for_in (map (fun k => 0 + k * 3) (seq s m))
         (parse_tle_step str_strip int tle_lines) satellites
  = Ret (satellites ++
         map (fun k => record_of str_strip tle_lines k
                         (parsed_or_zero int (norad_field tle_lines k)))
             (seq s (Nat.min m (List.length tle_lines / 3 - s)))).
Proof.
  induction m as [ | m IH ]; intros s satellites Hint.
  - cbn. rewrite app_nil_r. reflexivity.
  - cbn [seq map for_in].
    destruct (Nat.lt_ge_cases s (List.length tle_lines / 3)) as [Hlt | Hge].
    + destruct (Hint s ltac:(lia) Hlt) as [v Hv].
      pose proof (complete_triple _ _ Hlt) as Hcomplete.
      rewrite (parse_tle_step_complete _ _ satellites _ Hcomplete Hv).
      cbn [bind].
      rewrite IH by (intros k Hk; apply Hint; lia).
      replace (Nat.min (S m) (List.length tle_lines / 3 - s))
        with (S (Nat.min m (List.length tle_lines / 3 - S s))) by lia.
      cbn [seq map]. rewrite <- app_assoc. cbn [app].
      unfold parsed_or_zero at 2. rewrite Hv. reflexivity.
    + pose proof (incomplete_triple _ _ Hge) as Hincomplete.
      rewrite (parse_tle_step_incomplete _ _ satellites Hincomplete).
      cbn [bind].
      rewrite IH by (intros k Hk Hk'; lia).
      replace (List.length tle_lines / 3 - S s) with 0 by lia.
      replace (List.length tle_lines / 3 - s) with 0 by lia.
      rewrite !Nat.min_0_r. reflexivity.
Qed.

Lemma parse_tle_value (tle_lines : list string) :
  (forall k, k < List.length tle_lines / 3 ->
     returns (int (norad_field tle_lines k))) ->
  parse_tle str_strip int tle_lines
  = Ret (map (fun k => record_of str_strip tle_lines k
                         (parsed_or_zero int (norad_field tle_lines k)))
             (seq 0 (List.length tle_lines / 3))).
Proof.
  intros Hint. unfold parse_tle, range3.
  rewrite parse_tle_loop by (intros k _ Hk; apply Hint, Hk).
  cbn [app]. do 3 f_equal.
  assert (List.length tle_lines / 3
          <= (List.length tle_lines - 0 + (3 - 1)) / 3).
  { apply Nat.Div0.div_le_mono. lia. }
  lia.
Qed.

End DataManager.

(** * The round trip in exact arithmetic *)

(** ** One pass of the loop acts on the tangent of the latitude *)

Section TangentForm.
Local Open Scope R_scope.

Lemma flat_radicand_pos (t : R) : 0 < 1 + (1 - Spec.e2) * t ^ 2.
Proof. pose proof e2_bounds. nra. Qed.

Lemma one_plus_sqr_pos (t : R) : 0 < 1 + t ^ 2.
Proof. nra. Qed.

Lemma reduced_radius_bounds (t : R) : 0 < reduced_radius t <= Spec.a.
Proof.
  unfold reduced_radius. pose proof a_pos as Ha.
  pose proof (flat_radicand_pos t) as Hr.
  assert (Hs : 1 <= R_sqrt.sqrt (1 + (1 - Spec.e2) * t ^ 2)).
  { rewrite <- sqrt_1 at 1. apply sqrt_le_1_alt. pose proof e2_bounds. nra. }
  split.
  - apply Rdiv_lt_0_compat; lra.
  - apply Rmult_le_reg_r with (R_sqrt.sqrt (1 + (1 - Spec.e2) * t ^ 2)); [ lra | ].
    unfold Rdiv. rewrite Rmult_assoc, Rinv_l by lra. nra.
Qed.

Lemma sin_atan_sqr (t : R) : sin (atan t) ^ 2 = t ^ 2 / (1 + t ^ 2).
Proof.
  rewrite sin_atan. unfold Rsqr.
  replace (1 + t * t) with (1 + t ^ 2) by ring.
  pose proof (one_plus_sqr_pos t) as H.
  pose proof (sqrt_def (1 + t ^ 2) ltac:(lra)) as Hd.
  pose proof (sqrt_lt_R0 _ H) as Hs.
  rewrite <- Hd at 2. field. lra.
Qed.

Lemma cos_atan_pos (t : R) : 0 < cos (atan t).
Proof. pose proof (atan_bound t). apply cos_gt_0; lra. Qed.

Lemma cos_atan_inv (t : R) : / cos (atan t) = R_sqrt.sqrt (1 + t ^ 2).
Proof.
  rewrite cos_atan. unfold Rsqr.
  replace (1 + t * t) with (1 + t ^ 2) by ring.
  pose proof (sqrt_lt_R0 _ (one_plus_sqr_pos t)). field. lra.
Qed.

Lemma prime_vertical_radius_atan (t : R) :
  Spec.prime_vertical_radius (atan t)
  = R_sqrt.sqrt (1 + t ^ 2) * reduced_radius t.
Proof.
  unfold Spec.prime_vertical_radius, reduced_radius.
  rewrite sin_atan_sqr.
  pose proof (one_plus_sqr_pos t) as H1.
  pose proof (flat_radicand_pos t) as H2.
  replace (1 - Spec.e2 * (t ^ 2 / (1 + t ^ 2)))
    with ((1 + (1 - Spec.e2) * t ^ 2) / (1 + t ^ 2)) by (field; lra).
  rewrite sqrt_div_alt by lra.
  pose proof (sqrt_lt_R0 _ H1). pose proof (sqrt_lt_R0 _ H2).
  field. lra.
Qed.

Lemma altitude_at_atan (p t : R) :
  Spec.altitude_at p (atan t)
  = R_sqrt.sqrt (1 + t ^ 2) * (p - reduced_radius t).
Proof.
  unfold Spec.altitude_at. rewrite prime_vertical_radius_atan.
  unfold Rdiv. rewrite cos_atan_inv. ring.
Qed.

Lemma refinement_defined_atan (p t : R) :
  0 < p -> Spec.refinement_defined p (atan t).
Proof.
  intros Hp. pose proof (cos_atan_pos t) as Hc. split; [ lra | ].
  unfold Spec.altitude_at.
  replace (Spec.prime_vertical_radius (atan t)
           + (p / cos (atan t) - Spec.prime_vertical_radius (atan t)))
    with (p / cos (atan t)) by ring.
  assert (0 < p / cos (atan t)) by (apply Rdiv_lt_0_compat; lra). lra.
Qed.

Lemma atan2_pos (y x : R) : 0 < x -> Ideal.atan2 y x = atan (y / x).
Proof.
  intros Hx. unfold Ideal.atan2.
  destruct (Rlt_dec 0 x); [ reflexivity | contradiction ].
Qed.

Lemma next_latitude_atan (p z t : R) :
  Spec.e2 * Spec.a < p ->
  Spec.next_latitude p z (atan t) = atan (next_tangent p z t).
Proof.
  intros Hp. pose proof e2_bounds as [H0 H1]. pose proof a_pos as Ha.
  pose proof (reduced_radius_bounds t) as [Hg0 Hg1].
  assert (Hp0 : 0 < p) by nra.
  assert (Hd : 0 < p - Spec.e2 * reduced_radius t) by nra.
  pose proof (sqrt_lt_R0 _ (one_plus_sqr_pos t)) as Hs.
  unfold Spec.next_latitude, next_tangent.
  rewrite altitude_at_atan, prime_vertical_radius_atan.
  replace (R_sqrt.sqrt (1 + t ^ 2) * reduced_radius t
           + R_sqrt.sqrt (1 + t ^ 2) * (p - reduced_radius t))
    with (R_sqrt.sqrt (1 + t ^ 2) * p) by ring.
  replace (p * (1 - Spec.e2 * (R_sqrt.sqrt (1 + t ^ 2) * reduced_radius t)
                    / (R_sqrt.sqrt (1 + t ^ 2) * p)))
    with (p - Spec.e2 * reduced_radius t) by (field; lra).
  apply atan2_pos, Hd.
Qed.

Lemma latitude_after_atan (p z : R) (k : nat) :
  Spec.e2 * Spec.a < p ->
  Spec.latitude_after k p z = atan (tangent_after k p z).
Proof.
  intros Hp. pose proof e2_bounds as [H0 H1]. pose proof a_pos as Ha.
  assert (Hp0 : 0 < p) by nra.
  unfold Spec.latitude_after, tangent_after. induction k as [ | k IH ].
  - cbn. apply atan2_pos. nra.
  - rewrite !Nat.iter_succ, IH. apply next_latitude_atan, Hp.
Qed.

End TangentForm.

(** ** Lipschitz bounds *)

Section Lipschitz.
Local Open Scope R_scope.

Lemma e2_numeric : 0.00669 < Spec.e2 < 0.0067.
Proof. unfold Spec.e2, Spec.f. lra. Qed.

(** Square roots move less than their arguments' roots: with
    u = sqrt(1 + k s^2), v = sqrt(1 + k t^2) and 0 <= k <= 1,
    |u - v| <= |s - t|. *)
Lemma sqrt_quadratic_lipschitz (k s t : R) :
  0 <= k <= 1 ->
  Rabs (R_sqrt.sqrt (1 + k * s ^ 2) - R_sqrt.sqrt (1 + k * t ^ 2))
  <= Rabs (s - t).
Proof.
  intros [Hk0 Hk1].
  set (u := R_sqrt.sqrt (1 + k * s ^ 2)).
  set (v := R_sqrt.sqrt (1 + k * t ^ 2)).
  assert (Hus : 0 < 1 + k * s ^ 2) by nra.
  assert (Hvs : 0 < 1 + k * t ^ 2) by nra.
  assert (Hu : 0 < u) by (apply sqrt_lt_R0; lra).
  assert (Hv : 0 < v) by (apply sqrt_lt_R0; lra).
  assert (Hu2 : u * u = 1 + k * s ^ 2) by (apply sqrt_def; lra).
  assert (Hv2 : v * v = 1 + k * t ^ 2) by (apply sqrt_def; lra).
  assert (Hks : k * Rabs s <= u).
  { apply Rsqr_incr_0_var; [ | lra ]. unfold Rsqr.
    pose proof (Rabs_pos s). 
    replace (k * Rabs s * (k * Rabs s)) with (k * k * (Rabs s * Rabs s)) by ring.
    rewrite <- Rabs_mult. rewrite (Rabs_pos_eq (s * s)) by nra. nra. }
  assert (Hkt : k * Rabs t <= v).
  { apply Rsqr_incr_0_var; [ | lra ]. unfold Rsqr.
    pose proof (Rabs_pos t).
    replace (k * Rabs t * (k * Rabs t)) with (k * k * (Rabs t * Rabs t)) by ring.
    rewrite <- Rabs_mult. rewrite (Rabs_pos_eq (t * t)) by nra. nra. }
  assert (Hprod : (u - v) * (u + v) = k * (s - t) * (s + t)) by nra.
  assert (Hsum : k * Rabs (s + t) <= u + v).
  { pose proof (Rabs_triang s t). nra. }
  apply Rmult_le_reg_r with (u + v); [ lra | ].
  rewrite <- (Rabs_pos_eq (u + v)) at 1 by lra.
  rewrite <- Rabs_mult, Hprod.
  replace (k * (s - t) * (s + t)) with ((s - t) * (k * (s + t))) by ring.
  rewrite Rabs_mult. rewrite (Rabs_mult k), (Rabs_pos_eq k) by lra.
  pose proof (Rabs_pos (s - t)). nra.
Qed.

Lemma atan_lipschitz (u v : R) : Rabs (atan u - atan v) <= Rabs (u - v).
Proof.
  assert (Hmono : forall a b, a < b -> 0 <= atan b - atan a <= b - a).
  { intros a b Hab.
    destruct (MVT_cor2 atan (fun x => / (1 + x ^ 2)) a b Hab) as [c [Hc _]].
    { intros c _. apply derivable_pt_lim_atan. }
    rewrite Hc.
    assert (H1 : 0 < / (1 + c ^ 2) <= 1).
    { split.
      - apply Rinv_0_lt_compat. nra.
      - pose proof (Rinv_le_contravar 1 (1 + c ^ 2) ltac:(lra) ltac:(nra))
          as Hi.
        rewrite Rinv_1 in Hi. exact Hi. }
    nra. }
  destruct (Rtotal_order u v) as [H | [H | H]].
  - pose proof (Hmono u v H). rewrite !Rabs_left1 by lra. lra.
  - subst. rewrite !Rminus_diag. lra.
  - pose proof (Hmono v u H). rewrite !Rabs_pos_eq by lra. lra.
Qed.

End Lipschitz.

(** ** The point at latitude [phi] and height [h], and the iterates
    around its tangent *)

Section TruePoint.
Local Open Scope R_scope.
Variables phi h : R.
Hypothesis Hphi : - (PI / 2) < phi < PI / 2.
Hypothesis Hcos : / 61 <= cos phi.
Hypothesis Hh : -10000 <= h <= 1000000.

Lemma true_radius_bounds :
  Spec.a <= Spec.prime_vertical_radius phi
  /\ 0.99 * Spec.prime_vertical_radius phi <= Spec.a.
Proof.
  pose proof e2_numeric as [H0 H1]. pose proof a_pos as Ha.
  pose proof (sqrt_radicand_pos phi) as Hs.
  pose proof (radicand_pos phi) as Hr.
  pose proof (sqrt_def (1 - Spec.e2 * sin phi ^ 2) ltac:(nra)) as Hd.
  pose proof (sin2_cos2 phi) as Hsc. unfold Rsqr in Hsc.
  assert (Hs2 : 0 <= sin phi ^ 2 <= 1) by nra.
  set (q := R_sqrt.sqrt (1 - Spec.e2 * sin phi ^ 2)) in *.
  assert (Hq1 : q <= 1) by nra.
  assert (Hq0 : 0.99 <= q) by nra.
  unfold Spec.prime_vertical_radius. fold q.
  split.
  - apply Rmult_le_reg_r with q; [ lra | ].
    unfold Rdiv. rewrite Rmult_assoc, Rinv_l by lra. nra.
  - apply Rmult_le_reg_r with q; [ lra | ].
    replace (0.99 * (Spec.a / q) * q) with (0.99 * Spec.a) by (field; lra).
    nra.
Qed.

Lemma cos_true_pos : 0 < cos phi.
Proof. apply cos_gt_0; lra. Qed.

Lemma atan_tan_true : atan (tan phi) = phi.
Proof. apply atan_tan. lra. Qed.

Lemma reduced_radius_true :
  reduced_radius (tan phi) = Spec.prime_vertical_radius phi * cos phi.
Proof.
  pose proof (prime_vertical_radius_atan (tan phi)) as HN.
  pose proof (cos_atan_inv (tan phi)) as Hc.
  rewrite atan_tan_true in HN, Hc. rewrite HN, <- Hc.
  pose proof cos_true_pos. field. lra.
Qed.

Lemma axis_distance_bounds :
  Spec.e2 * Spec.a < axis_distance phi h
  /\ axis_distance phi h <= 7500000.
Proof.
  pose proof e2_numeric as [H0 H1]. pose proof a_pos as Ha.
  pose proof true_radius_bounds as [HN0 HN1].
  pose proof cos_true_pos as Hc. pose proof (COS_bound phi) as [_ Hc1].
  unfold axis_distance, Spec.a in *.
  assert (Hc61 : 1 <= 61 * cos phi).
  { apply Rmult_le_reg_l with (/ 61); [ lra | ].
    rewrite <- Rmult_assoc, Rinv_l by lra. lra. }
  split; nra.
Qed.

Lemma plane_height_tan :
  plane_height phi h
  = (axis_distance phi h - Spec.e2 * reduced_radius (tan phi)) * tan phi.
Proof.
  rewrite reduced_radius_true. unfold plane_height, axis_distance, tan.
  pose proof cos_true_pos. field. lra.
Qed.

Lemma true_denominator_pos :
  0 < axis_distance phi h - Spec.e2 * reduced_radius (tan phi).
Proof.
  pose proof axis_distance_bounds as [HP _].
  pose proof (reduced_radius_bounds (tan phi)) as [Hg0 Hg1].
  pose proof e2_numeric. nra.
Qed.

(** The true tangent is a fixed point of the refinement. *)
Lemma next_tangent_true :
  next_tangent (axis_distance phi h) (plane_height phi h) (tan phi) = tan phi.
Proof.
  unfold next_tangent. rewrite plane_height_tan.
  pose proof true_denominator_pos. field. lra.
Qed.

Lemma admissible_far (t : R) :
  admissible phi h t ->
  102 * (Spec.e2 * Spec.a)
  <= R_sqrt.sqrt (1 + (1 - Spec.e2) * t ^ 2) * axis_distance phi h.
Proof.
  unfold admissible. intros Hadm.
  pose proof e2_numeric as [H0 H1]. pose proof a_pos as Ha.
  pose proof true_radius_bounds as [HN0 HN1].
  pose proof axis_distance_bounds as [HP _].
  pose proof (sin2_cos2 phi) as Hsc. unfold Rsqr in Hsc.
  pose proof (flat_radicand_pos t) as Hr.
  pose proof (sqrt_lt_R0 _ Hr) as Hu.
  pose proof (sqrt_def _ (Rlt_le _ _ Hr)) as Hu2.
  set (u := R_sqrt.sqrt (1 + (1 - Spec.e2) * t ^ 2)) in *.
  set (P := axis_distance phi h) in *.
  assert (HP0 : 0 < P) by nra.
  apply Rsqr_incr_0_var; [ | nra ]. unfold Rsqr.
  replace (u * P * (u * P)) with ((u * u) * (P * P)) by ring.
  rewrite Hu2.
  set (N := Spec.prime_vertical_radius phi) in *.
  set (m := N * (1 - Spec.e2) + h).
  assert (Hm : 6300000 <= m) by (unfold m, Spec.a in *; nra).
  assert (HmN : m <= N + h) by (unfold m; nra).
  assert (HZ : plane_height phi h ^ 2 = m ^ 2 * (sin phi * sin phi))
    by (unfold plane_height; fold N; fold m; ring).
  assert (HPP : P ^ 2 = (N + h) ^ 2 * (cos phi * cos phi))
    by (unfold P, axis_distance; fold N; ring).
  assert (Hlow : (1 - Spec.e2) * m ^ 2 <= (1 + (1 - Spec.e2) * t ^ 2) * (P * P)).
  { assert (Hc2 : 0 <= cos phi * cos phi) by nra.
    assert (Hs2 : 0 <= sin phi * sin phi) by nra.
    assert (H1' : (1 - Spec.e2) * m ^ 2 * (cos phi * cos phi)
                  <= (N + h) ^ 2 * (cos phi * cos phi)).
    { apply Rmult_le_compat_r; [ exact Hc2 | ]. nra. }
    assert (H2' : (1 - Spec.e2) * (m ^ 2 * (sin phi * sin phi))
                  <= (1 - Spec.e2) * (t ^ 2 * P ^ 2)).
    { apply Rmult_le_compat_l; [ lra | ]. rewrite <- HZ. exact Hadm. }
    replace ((1 - Spec.e2) * m ^ 2)
      with ((1 - Spec.e2) * m ^ 2 * (cos phi * cos phi)
            + (1 - Spec.e2) * (m ^ 2 * (sin phi * sin phi)))
      by (replace (cos phi * cos phi) with (1 - sin phi * sin phi) by lra; ring).
    nra. }
  assert (Hnum : 102 * (Spec.e2 * Spec.a) * (102 * (Spec.e2 * Spec.a))
                 <= (1 - Spec.e2) * m ^ 2).
  { unfold Spec.a in *.
    assert (102 * (Spec.e2 * 6378137) <= 4400000) by nra.
    assert (0 <= 102 * (Spec.e2 * 6378137)) by nra.
    assert (4400000 * 4400000 <= 0.99 * (6300000 * 6300000)) by lra.
    assert (6300000 * 6300000 <= m ^ 2) by nra.
    nra. }
  lra.
Qed.

Lemma next_tangent_contracts (t : R) :
  admissible phi h t ->
  Rabs (next_tangent (axis_distance phi h) (plane_height phi h) t - tan phi)
  <= Rabs (t - tan phi) / 100.
Proof.
  intros Hadm. pose proof (admissible_far t Hadm) as Hfar.
  pose proof e2_numeric as [H0 H1]. pose proof a_pos as Ha.
  pose proof axis_distance_bounds as [HP _].
  pose proof true_denominator_pos as HD.
  pose proof (flat_radicand_pos t) as Hr.
  pose proof (flat_radicand_pos (tan phi)) as Hrs.
  pose proof (sqrt_lt_R0 _ Hr) as Hu.
  pose proof (sqrt_lt_R0 _ Hrs) as Hus.
  pose proof (sqrt_def _ (Rlt_le _ _ Hrs)) as Hus2.
  pose proof (sqrt_quadratic_lipschitz (1 - Spec.e2) (tan phi) t ltac:(lra))
    as Hlip.
  unfold next_tangent at 1. rewrite plane_height_tan.
  unfold reduced_radius in *.
  set (u := R_sqrt.sqrt (1 + (1 - Spec.e2) * t ^ 2)) in *.
  set (us := R_sqrt.sqrt (1 + (1 - Spec.e2) * tan phi ^ 2)) in *.
  set (P := axis_distance phi h) in *.
  set (ts := tan phi) in *.
  assert (Hea : 0 < Spec.e2 * Spec.a) by nra.
  assert (Heps : 0.99 <= 1 - Spec.e2 <= 1) by lra.
  assert (HuP : 0 < u * P - Spec.e2 * Spec.a) by lra.
  (* the error after one pass, in closed form *)
  replace ((P - Spec.e2 * (Spec.a / us)) * ts / (P - Spec.e2 * (Spec.a / u)) - ts)
    with (ts * (Spec.e2 * Spec.a
                * ((us - u) * / (us * (u * P - Spec.e2 * Spec.a))))).
  2:{ field. repeat split; lra. }
  set (ea := Spec.e2 * Spec.a) in *.
  assert (Hts : Rabs ts <= 1.01 * us).
  { apply Rsqr_incr_0_var; [ | lra ]. unfold Rsqr.
    rewrite <- Rabs_mult, (Rabs_pos_eq (ts * ts)) by nra.
    replace (1.01 * us * (1.01 * us)) with (1.0201 * (us * us)) by nra.
    rewrite Hus2. nra. }
  rewrite Rabs_mult, (Rabs_mult ea), (Rabs_mult (us - u)).
  rewrite (Rabs_pos_eq ea) by lra.
  rewrite Rabs_inv.
  rewrite (Rabs_pos_eq (us * (u * P - ea))) by nra.
  rewrite (Rabs_minus_sym t ts).
  pose proof (Rabs_pos (ts - t)) as Hd0.
  pose proof (Rabs_pos ts) as Hts0.
  pose proof (Rabs_pos (us - u)) as Hu0.
  assert (Hden : 0 < us * (u * P - ea)) by nra.
  apply Rmult_le_reg_r with (us * (u * P - ea)); [ exact Hden | ].
  replace (Rabs ts * (ea * (Rabs (us - u) * / (us * (u * P - ea))))
           * (us * (u * P - ea)))
    with (Rabs ts * ea * Rabs (us - u)) by (field; lra).
  assert (Hstep1 : Rabs ts * ea * Rabs (us - u)
                   <= (1.01 * us) * ea * Rabs (ts - t)).
  { apply Rmult_le_compat; nra. }
  assert (Hstep2 : 1.01 * ea <= (u * P - ea) / 100) by lra.
  assert (Hstep3 : (1.01 * us) * ea * Rabs (ts - t)
                   <= us * ((u * P - ea) / 100) * Rabs (ts - t)).
  { apply Rmult_le_compat_r; [ lra | ]. nra. }
  lra.
Qed.

Lemma next_tangent_admissible (t : R) :
  admissible phi h (next_tangent (axis_distance phi h) (plane_height phi h) t).
Proof.
  unfold admissible, next_tangent.
  pose proof e2_numeric as [H0 H1]. pose proof a_pos as Ha.
  pose proof axis_distance_bounds as [HP _].
  pose proof (reduced_radius_bounds t) as [Hg0 Hg1].
  set (P := axis_distance phi h) in *.
  set (Z := plane_height phi h).
  set (D := P - Spec.e2 * reduced_radius t).
  assert (HD : 0 < D <= P) by (unfold D; nra).
  replace ((Z / D) ^ 2 * P ^ 2) with (Z ^ 2 * ((P / D) ^ 2)) by (field; lra).
  assert (1 <= P / D).
  { apply Rmult_le_reg_r with D; [ lra | ].
    unfold Rdiv. rewrite Rmult_assoc, Rinv_l by lra. lra. }
  assert (1 <= (P / D) ^ 2) by nra.
  assert (0 <= Z ^ 2) by nra.
  nra.
Qed.

Lemma first_tangent_admissible :
  admissible phi h (plane_height phi h / (axis_distance phi h * (1 - Spec.e2))).
Proof.
  unfold admissible.
  pose proof e2_numeric as [H0 H1]. pose proof a_pos as Ha.
  pose proof axis_distance_bounds as [HP _].
  set (P := axis_distance phi h) in *.
  set (Z := plane_height phi h).
  assert (HP0 : 0 < P) by nra.
  replace ((Z / (P * (1 - Spec.e2))) ^ 2 * P ^ 2)
    with (Z ^ 2 * ((/ (1 - Spec.e2)) ^ 2)) by (field; lra).
  assert (1 <= / (1 - Spec.e2)).
  { rewrite <- Rinv_1 at 1. apply Rinv_le_contravar; lra. }
  assert (1 <= (/ (1 - Spec.e2)) ^ 2) by nra.
  assert (0 <= Z ^ 2) by nra.
  nra.
Qed.

Lemma tangent_after_admissible (k : nat) :
  admissible phi h (tangent_after k (axis_distance phi h) (plane_height phi h)).
Proof.
  unfold tangent_after. destruct k as [ | k ].
  - apply first_tangent_admissible.
  - rewrite Nat.iter_succ. apply next_tangent_admissible.
Qed.

Lemma tan_true_bound : Rabs (tan phi) <= 61.
Proof.
  pose proof cos_true_pos as Hc. pose proof (SIN_bound phi) as Hs.
  unfold tan, Rdiv. rewrite Rabs_mult, Rabs_inv, (Rabs_pos_eq (cos phi)) by lra.
  assert (Hi : / cos phi <= 61).
  { rewrite <- (Rinv_inv 61). apply Rinv_le_contravar; lra. }
  assert (Rabs (sin phi) <= 1) by (apply Rabs_le; lra).
  pose proof (Rabs_pos (sin phi)).
  assert (0 < / cos phi) by (apply Rinv_0_lt_compat; lra).
  nra.
Qed.

Lemma first_tangent_error :
  Rabs (tangent_after 0 (axis_distance phi h) (plane_height phi h) - tan phi)
  <= 0.07.
Proof.
  unfold tangent_after. cbn [Nat.iter nat_rect].
  pose proof e2_numeric as [H0 H1]. pose proof a_pos as Ha.
  pose proof true_radius_bounds as [HN0 HN1].
  pose proof cos_true_pos as Hc.
  pose proof tan_true_bound as Ht.
  rewrite plane_height_tan, reduced_radius_true.
  unfold axis_distance.
  set (N := Spec.prime_vertical_radius phi) in *.
  assert (HNh : 6300000 <= N + h) by (unfold Spec.a in *; lra).
  replace (((N + h) * cos phi - Spec.e2 * (N * cos phi)) * tan phi
           / ((N + h) * cos phi * (1 - Spec.e2)) - tan phi)
    with (tan phi * (Spec.e2 * h * / ((N + h) * (1 - Spec.e2))))
    by (field; repeat split; lra).
  rewrite Rabs_mult.
  assert (Hq : Rabs (Spec.e2 * h * / ((N + h) * (1 - Spec.e2))) <= 0.00108).
  { rewrite !Rabs_mult, Rabs_inv.
    rewrite (Rabs_pos_eq Spec.e2) by lra.
    rewrite (Rabs_pos_eq ((N + h) * (1 - Spec.e2))) by nra.
    assert (Hh' : Rabs h <= 1000000) by (apply Rabs_le; lra).
    pose proof (Rabs_pos h).
    assert (Hden : 6237000 <= (N + h) * (1 - Spec.e2)) by nra.
    assert (Hinv : / ((N + h) * (1 - Spec.e2)) <= / 6237000)
      by (apply Rinv_le_contravar; lra).
    assert (0 < / ((N + h) * (1 - Spec.e2)))
      by (apply Rinv_0_lt_compat; lra).
    assert (Spec.e2 * Rabs h <= 6700) by nra.
    assert (0 <= Spec.e2 * Rabs h) by nra.
    assert (Spec.e2 * Rabs h * / ((N + h) * (1 - Spec.e2))
            <= 6700 * / 6237000).
    { apply Rmult_le_compat; lra. }
    lra. }
  pose proof (Rabs_pos (tan phi)).
  pose proof (Rabs_pos (Spec.e2 * h * / ((N + h) * (1 - Spec.e2)))).
  nra.
Qed.

Lemma tangent_after_error (k : nat) :
  Rabs (tangent_after k (axis_distance phi h) (plane_height phi h) - tan phi)
  <= 0.07 / 100 ^ k.
Proof.
  induction k as [ | k IH ].
  - replace (0.07 / 100 ^ 0) with 0.07 by (cbn; lra). apply first_tangent_error.
  - unfold tangent_after in *. rewrite Nat.iter_succ.
    eapply Rle_trans.
    + apply next_tangent_contracts. apply (tangent_after_admissible k).
    + assert (0 < 100 ^ k) by (apply pow_lt; lra).
      replace (0.07 / 100 ^ S k) with (0.07 / 100 ^ k / 100)
        by (cbn [pow]; field; lra).
      lra.
Qed.

(** The altitude as a function of the tangent moves by at most 1.4e7 m
    per unit of tangent, near the true point. *)
Lemma altitude_true : Spec.altitude_at (axis_distance phi h) phi = h.
Proof.
  unfold Spec.altitude_at, axis_distance.
  pose proof cos_true_pos. field. lra.
Qed.

Lemma altitude_error (t : R) :
  Rabs (Spec.altitude_at (axis_distance phi h) (atan t) - h)
  <= 14000000 * Rabs (t - tan phi).
Proof.
  replace (Spec.altitude_at (axis_distance phi h) (atan t) - h)
    with (Spec.altitude_at (axis_distance phi h) (atan t)
          - Spec.altitude_at (axis_distance phi h) (atan (tan phi)))
    by (rewrite atan_tan_true, altitude_true; reflexivity).
  rewrite !altitude_at_atan.
  pose proof e2_numeric as [H0 H1]. pose proof a_pos as Ha.
  pose proof axis_distance_bounds as [HP0 HP1].
  pose proof (reduced_radius_bounds t) as [Hg0 Hg1].
  pose proof (flat_radicand_pos t) as Hr.
  pose proof (flat_radicand_pos (tan phi)) as Hrs.
  pose proof (sqrt_lt_R0 _ Hr) as Hu.
  pose proof (sqrt_lt_R0 _ Hrs) as Hus.
  pose proof (sqrt_def _ (Rlt_le _ _ Hr)) as Hu2.
  pose proof (sqrt_def _ (Rlt_le _ _ Hrs)) as Hus2.
  pose proof (sqrt_lt_R0 _ (one_plus_sqr_pos (tan phi))) as Hvs.
  pose proof (sqrt_def _ (Rlt_le _ _ (one_plus_sqr_pos (tan phi)))) as Hvs2.
  pose proof (sqrt_quadratic_lipschitz (1 - Spec.e2) t (tan phi) ltac:(lra))
    as Hlipu.
  pose proof (sqrt_quadratic_lipschitz 1 t (tan phi) ltac:(lra)) as Hlipv.
  replace (1 + 1 * t ^ 2) with (1 + t ^ 2) in Hlipv by ring.
  replace (1 + 1 * tan phi ^ 2) with (1 + tan phi ^ 2) in Hlipv by ring.
  unfold reduced_radius in *.
  set (u := R_sqrt.sqrt (1 + (1 - Spec.e2) * t ^ 2)) in *.
  set (us := R_sqrt.sqrt (1 + (1 - Spec.e2) * tan phi ^ 2)) in *.
  set (v := R_sqrt.sqrt (1 + t ^ 2)) in *.
  set (vs := R_sqrt.sqrt (1 + tan phi ^ 2)) in *.
  set (P := axis_distance phi h) in *.
  set (d := Rabs (t - tan phi)) in *.
  assert (Hd0 : 0 <= d) by apply Rabs_pos.
  assert (Hu1 : 1 <= u).
  { apply Rsqr_incr_0_var; [ unfold Rsqr | lra ]. nra. }
  assert (Hvsus : vs <= 1.01 * us).
  { apply Rsqr_incr_0_var; [ unfold Rsqr | lra ].
    replace (1.01 * us * (1.01 * us)) with (1.0201 * (us * us)) by nra.
    rewrite Hvs2, Hus2. nra. }
  replace (v * (P - Spec.a / u) - vs * (P - Spec.a / us))
    with ((v - vs) * (P - Spec.a / u)
          + vs * Spec.a * ((u - us) * / (u * us)))
    by (field; lra).
  eapply Rle_trans; [ apply Rabs_triang | ].
  rewrite !Rabs_mult, Rabs_inv.
  rewrite (Rabs_pos_eq vs), (Rabs_pos_eq Spec.a), (Rabs_pos_eq (u * us))
    by nra.
  assert (HPg : Rabs (P - Spec.a / u) <= 7500000).
  { apply Rabs_le. unfold Spec.a in *. lra. }
  pose proof (Rabs_pos (P - Spec.a / u)).
  pose proof (Rabs_pos (v - vs)). pose proof (Rabs_pos (u - us)).
  assert (H1' : Rabs (v - vs) * Rabs (P - Spec.a / u) <= d * 7500000).
  { apply Rmult_le_compat; lra. }
  assert (H2' : vs * Spec.a * (Rabs (u - us) * / (u * us))
                <= 1.01 * Spec.a * d).
  { apply Rmult_le_reg_r with (u * us); [ nra | ].
    replace (vs * Spec.a * (Rabs (u - us) * / (u * us)) * (u * us))
      with (vs * Spec.a * Rabs (u - us)) by (field; lra).
    assert (vs * Spec.a * Rabs (u - us) <= (1.01 * us) * Spec.a * d).
    { apply Rmult_le_compat; nra. }
    assert (1.01 * us * Spec.a * d <= 1.01 * Spec.a * d * (u * us)).
    { assert (Hw : 0 <= 1.01 * Spec.a * d * us)
        by (apply Rmult_le_pos; [ apply Rmult_le_pos | ]; lra).
      replace (1.01 * us * Spec.a * d) with (1.01 * Spec.a * d * us) by ring.
      replace (1.01 * Spec.a * d * (u * us))
        with (1.01 * Spec.a * d * us * u) by ring.
      nra. }
    lra. }
  unfold Spec.a in *. lra.
Qed.

End TruePoint.

(** ** The range of angles, and the longitude *)

Section Angles.
Local Open Scope R_scope.

Lemma PI_bounds : 3 < PI <= 4.
Proof. pose proof PI2_3_2. pose proof PI_4. lra. Qed.

Lemma sin_one_degree : / 61 <= sin (PI / 180).
Proof.
  pose proof PI_bounds as [H3 H4].
  assert (Hx : / 60 <= PI / 180 <= / 45) by lra.
  pose proof (sin_bound (PI / 180) 0 ltac:(lra) ltac:(lra)) as [Hlb _].
  cbn in Hlb. unfold sin_term in Hlb. cbn in Hlb.
  set (x := PI / 180) in *.
  assert (Hx3 : x * (x * (x * 1)) <= x * (/ 45 * / 45)) by nra.
  assert (0 < x) by lra.
  lra.
Qed.

Lemma latitude_in_range (lat : R) :
  -89 <= lat <= 89 ->
  - (PI / 2) < Spec.radians lat < PI / 2 /\ / 61 <= cos (Spec.radians lat).
Proof.
  intros Hlat. pose proof PI_bounds as [H3 H4]. unfold Spec.radians.
  assert (Hr : - (89 * PI / 180) <= lat * PI / 180 <= 89 * PI / 180) by nra.
  split; [ lra | ].
  eapply Rle_trans; [ apply sin_one_degree | ].
  rewrite <- cos_shift.
  replace (PI / 2 - PI / 180) with (89 * PI / 180) by field.
  destruct (Rle_dec 0 (lat * PI / 180)) as [Hpos | Hneg].
  - apply cos_decr_1; lra.
  - rewrite <- (cos_neg (lat * PI / 180)). apply cos_decr_1; lra.
Qed.

(** Longitude: atan2 inverts the polar angle on (-pi, pi]. *)
Lemma atan2_polar (r lam : R) :
  0 < r -> - PI < lam <= PI -> Ideal.atan2 (r * sin lam) (r * cos lam) = lam.
Proof.
  intros Hr Hlam. pose proof PI_bounds as [H3 H4]. unfold Ideal.atan2.
  assert (Hquot : forall mu, cos mu <> 0 ->
                    r * sin mu / (r * cos mu) = tan mu).
  { intros mu Hmu. unfold tan. field. split; lra. }
  destruct (Rtotal_order lam (- (PI / 2))) as [Hlo | [Heq | Hmid]].
  - (* third quadrant *)
    assert (Hc : cos lam < 0).
    { rewrite <- cos_neg. apply cos_lt_0; lra. }
    assert (Hs : sin lam < 0) by (apply sin_lt_0_var; lra).
    destruct (Rlt_dec 0 (r * cos lam)) as [H | _]; [ nra | ].
    destruct (Rlt_dec (r * cos lam) 0) as [_ | H]; [ | nra ].
    destruct (Rle_dec 0 (r * sin lam)) as [H | _]; [ nra | ].
    rewrite Hquot by lra.
    replace (tan lam) with (tan (lam + PI)).
    + rewrite atan_tan by lra. ring.
    + unfold tan. rewrite neg_sin, neg_cos. field. lra.
  - subst lam. rewrite cos_neg, sin_neg, cos_PI2, sin_PI2.
    rewrite Rmult_0_r.
    destruct (Rlt_dec 0 0) as [H | _]; [ lra | ].
    destruct (Rlt_dec 0 (r * - (1))) as [H | _]; [ lra | ].
    destruct (Rlt_dec (r * - (1)) 0) as [_ | H]; [ reflexivity | lra ].
  - destruct (Rtotal_order lam (PI / 2)) as [Hlo | [Heq | Hhi]].
    + (* right half plane *)
      assert (Hc : 0 < cos lam) by (apply cos_gt_0; lra).
      destruct (Rlt_dec 0 (r * cos lam)) as [_ | H]; [ | nra ].
      rewrite Hquot by lra. apply atan_tan. lra.
    + subst lam. rewrite cos_PI2, sin_PI2, Rmult_0_r.
      destruct (Rlt_dec 0 0) as [H | _]; [ lra | ].
      destruct (Rlt_dec 0 (r * 1)) as [_ | H]; [ reflexivity | lra ].
    + (* second quadrant *)
      assert (Hc : cos lam < 0) by (apply cos_lt_0; lra).
      assert (Hs : 0 <= sin lam) by (apply sin_ge_0; lra).
      destruct (Rlt_dec 0 (r * cos lam)) as [H | _]; [ nra | ].
      destruct (Rlt_dec (r * cos lam) 0) as [_ | H]; [ | nra ].
      destruct (Rle_dec 0 (r * sin lam)) as [_ | H]; [ | nra ].
      rewrite Hquot by lra.
      replace (tan lam) with (tan (lam - PI)).
      * rewrite atan_tan by lra. ring.
      * unfold tan.
        replace lam with (lam - PI + PI) at 3 4 by ring.
        rewrite neg_sin, neg_cos. field.
        replace lam with (lam - PI + PI) in Hc by ring.
        rewrite neg_cos in Hc. lra.
Qed.

End Angles.

(** ** There and back *)

Section RoundTrip.
Local Open Scope R_scope.
Variables lat lon alt : R.
Hypothesis Hlat : -89 <= lat <= 89.
Hypothesis Hlon : -180 < lon <= 180.
Hypothesis Halt : -10 <= alt <= 1000.

Lemma geodetic_point :
  - (PI / 2) < Spec.radians lat < PI / 2
  /\ / 61 <= cos (Spec.radians lat)
  /\ -10000 <= alt * 1000 <= 1000000.
Proof.
  destruct (latitude_in_range lat Hlat) as [H1 H2].
  repeat split; lra.
Qed.

Lemma forward_metres :
  let xyz := Spec.spec_geodetic_to_cartesian lat lon alt in
  let P := axis_distance (Spec.radians lat) (alt * 1000) in
  fst (fst xyz) * 1000 = P * cos (Spec.radians lon)
  /\ snd (fst xyz) * 1000 = P * sin (Spec.radians lon)
  /\ snd xyz * 1000 = plane_height (Spec.radians lat) (alt * 1000).
Proof.
  unfold Spec.spec_geodetic_to_cartesian, axis_distance, plane_height.
  cbv zeta. cbn [fst snd]. repeat split; field.
Qed.

Lemma forward_axis_distance :
  let xyz := Spec.spec_geodetic_to_cartesian lat lon alt in
  R_sqrt.sqrt ((fst (fst xyz) * 1000) ^ 2 + (snd (fst xyz) * 1000) ^ 2)
  = axis_distance (Spec.radians lat) (alt * 1000).
Proof.
  cbv zeta. destruct forward_metres as [Hx [Hy _]]. cbv zeta in Hx, Hy.
  rewrite Hx, Hy.
  destruct geodetic_point as [Hphi [Hcos Hh]].
  pose proof (axis_distance_bounds _ _ Hphi Hcos Hh) as [HP _].
  pose proof e2_numeric. pose proof a_pos.
  set (P := axis_distance (Spec.radians lat) (alt * 1000)) in *.
  pose proof (sin2_cos2 (Spec.radians lon)) as Hsc. unfold Rsqr in Hsc.
  replace ((P * cos (Spec.radians lon)) ^ 2 + (P * sin (Spec.radians lon)) ^ 2)
    with (Rsqr P).
  - apply sqrt_Rsqr. nra.
  - unfold Rsqr.
    replace ((P * cos (Spec.radians lon)) ^ 2 + (P * sin (Spec.radians lon)) ^ 2)
      with (P * P * (sin (Spec.radians lon) * sin (Spec.radians lon)
                     + cos (Spec.radians lon) * cos (Spec.radians lon)))
      by ring.
    rewrite Hsc. ring.
Qed.

Lemma degrees_radians (d : R) : Spec.degrees (Spec.radians d) = d.
Proof. unfold Spec.degrees, Spec.radians. field. apply PI_neq0. Qed.

Lemma round_trip_spec :
  let xyz := Spec.spec_geodetic_to_cartesian lat lon alt in
  let back := Spec.spec_cartesian_to_geodetic
                (fst (fst xyz)) (snd (fst xyz)) (snd xyz) in
  Spec.refinements_defined (fst (fst xyz)) (snd (fst xyz)) (snd xyz)
  /\ Rabs (fst (fst back) - lat) <= 1e-5
  /\ snd (fst back) = lon
  /\ Rabs (snd back - alt) <= 0.01.
Proof.
  cbv zeta.
  destruct geodetic_point as [Hphi [Hcos Hh]].
  destruct forward_metres as [Hx [Hy Hz]]. cbv zeta in Hx, Hy, Hz.
  pose proof forward_axis_distance as Hp. cbv zeta in Hp.
  pose proof (axis_distance_bounds _ _ Hphi Hcos Hh) as [HP HP'].
  pose proof e2_numeric as [H0 H1]. pose proof a_pos as Ha.
  pose proof PI_bounds as [H3 H4].
  set (phi := Spec.radians lat) in *.
  set (h := alt * 1000) in *.
  set (P := axis_distance phi h) in *.
  set (Z := plane_height phi h) in *.
  split; [ | split; [ | split ] ].
  - (* every pass is defined *)
    apply far_from_axis_defined.
    replace (R_sqrt.sqrt (fst (fst (Spec.spec_geodetic_to_cartesian lat lon alt)) ^ 2
                          + snd (fst (Spec.spec_geodetic_to_cartesian lat lon alt)) ^ 2))
      with (P / 1000); [ lra | ].
    rewrite <- Hp.
    replace ((fst (fst (Spec.spec_geodetic_to_cartesian lat lon alt)) * 1000) ^ 2
             + (snd (fst (Spec.spec_geodetic_to_cartesian lat lon alt)) * 1000) ^ 2)
      with ((fst (fst (Spec.spec_geodetic_to_cartesian lat lon alt)) ^ 2
             + snd (fst (Spec.spec_geodetic_to_cartesian lat lon alt)) ^ 2)
            * Rsqr 1000) by (unfold Rsqr; ring).
    rewrite sqrt_mult_alt by nra. rewrite sqrt_Rsqr by lra. field.
  - (* latitude *)
    unfold Spec.spec_cartesian_to_geodetic. cbn [fst snd].
    rewrite Hp, Hz. fold P Z.
    rewrite (latitude_after_atan P Z 5 HP).
    pose proof (tangent_after_error phi h Hphi Hcos Hh 5) as Herr.
    fold P Z in Herr.
    pose proof (atan_lipschitz (tangent_after 5 P Z) (tan phi)) as Hlip.
    rewrite (atan_tan_true phi Hphi) in Hlip.
    replace (Spec.degrees (atan (tangent_after 5 P Z)) - lat)
      with ((atan (tangent_after 5 P Z) - phi) * (180 / PI))
      by (unfold Spec.degrees, phi, Spec.radians; field; lra).
    rewrite Rabs_mult, (Rabs_pos_eq (180 / PI))
      by (apply Rlt_le, Rdiv_lt_0_compat; lra).
    assert (H180 : 180 / PI <= 60).
    { apply Rmult_le_reg_r with PI; [ lra | ].
      unfold Rdiv. rewrite Rmult_assoc, Rinv_l by lra. lra. }
    assert (H0' : 0 < 180 / PI) by (apply Rdiv_lt_0_compat; lra).
    assert (Hsmall : 0.07 / 100 ^ 5 <= 1e-11) by (cbn; lra).
    pose proof (Rabs_pos (atan (tangent_after 5 P Z) - phi)).
    assert (Rabs (atan (tangent_after 5 P Z) - phi) * (180 / PI)
            <= 1e-11 * 60).
    { apply Rmult_le_compat; lra. }
    lra.
  - (* longitude *)
    unfold Spec.spec_cartesian_to_geodetic. cbn [fst snd].
    rewrite Hx, Hy. fold P.
    rewrite atan2_polar.
    + apply degrees_radians.
    + nra.
    + unfold Spec.radians. nra.
  - (* altitude *)
    unfold Spec.spec_cartesian_to_geodetic. cbn [fst snd].
    rewrite Hp, Hz. fold P Z.
    rewrite (latitude_after_atan P Z 4 HP).
    pose proof (tangent_after_error phi h Hphi Hcos Hh 4) as Herr.
    fold P Z in Herr.
    pose proof (altitude_error phi h Hphi Hcos Hh (tangent_after 4 P Z))
      as Halt'.
    fold P in Halt'.
    replace (Spec.altitude_at P (atan (tangent_after 4 P Z)) / 1000 - alt)
      with ((Spec.altitude_at P (atan (tangent_after 4 P Z)) - h) / 1000)
      by (unfold h; field).
    unfold Rdiv at 1. rewrite Rabs_mult, (Rabs_pos_eq (/ 1000)) by lra.
    assert (Hsmall : 0.07 / 100 ^ 4 <= 1e-9) by (cbn; lra).
    lra.
Qed.

End RoundTrip.


(** * The claims of the specification *)

Section Claims.
Import Binary64 SatelliteDataManager.
Local Open Scope R_scope.

(** C2, as stated, fails: [cartesian_to_geodetic(0, 0, 0)] ends in an
    arithmetic fault, in exact arithmetic and in binary64 with any C
    library. *)
Lemma earth_centre_arithmetic_fault :
  arithmetic_fault (@cartesian_to_geodetic R Ideal.ideal 0 0 0)
  /\ (forall M : Libm,
        arithmetic_fault
          (@cartesian_to_geodetic float (binary64 M) 0 0 0)%float).
Proof.
  split.
  - left. apply cartesian_to_geodetic_origin_ideal.
  - intros M. left. apply cartesian_to_geodetic_origin_binary64.
Qed.

(** C2, amended: at the Earth's centre [cartesian_to_geodetic(0, 0, 0)]
    raises Python's own ZeroDivisionError, and does so in the first pass
    of the loop, from latitude 0 with p = 0 (there N + alt = 0); no
    degenerate-position error is defined and no sentinel is returned. *)
Theorem earth_centre_raises_zero_division :
  @cartesian_to_geodetic R Ideal.ideal 0 0 0 = Raise ZeroDivisionError
  /\ (forall M : Libm,
        @cartesian_to_geodetic float (binary64 M) 0%float 0%float 0%float
        = Raise ZeroDivisionError)
  /\ (forall o : option R,
        @refine_latitude R Ideal.ideal Spec.a Spec.e2 0 0 0%nat (0, o)
        = Raise ZeroDivisionError).
Proof.
  split; [ | split ].
  - apply cartesian_to_geodetic_origin_ideal.
  - intros M. apply cartesian_to_geodetic_origin_binary64.
  - intros o. apply refine_latitude_raise, origin_first_pass_undefined.
Qed.

(** C3, as stated, fails at the Earth's centre: there the function does
    not return the value of the described computation (it raises). *)
Lemma earth_centre_not_computed :
  @cartesian_to_geodetic R Ideal.ideal 0 0 0
  <> Ret (Spec.spec_cartesian_to_geodetic 0 0 0).
Proof. rewrite cartesian_to_geodetic_origin_ideal. discriminate. Qed.

(** C3, amended: for every input, either no divisor met in the five
    passes (cos(lat), N + alt) is zero, and then
    [cartesian_to_geodetic] returns exactly what the specification
    describes: the longitude atan2(y, x) taken once, the latitude after
    five refinements of atan2(z, p (1 - e2)), both in degrees, and the
    altitude of the fifth pass in kilometres; or some divisor is zero
    and it raises ZeroDivisionError. *)
Theorem cartesian_to_geodetic_computes (x y z : R) :
  (Spec.refinements_defined x y z
   /\ @cartesian_to_geodetic R Ideal.ideal x y z
      = Ret (Spec.spec_cartesian_to_geodetic x y z))
  \/ (~ Spec.refinements_defined x y z
      /\ @cartesian_to_geodetic R Ideal.ideal x y z
         = Raise ZeroDivisionError).
Proof.
  destruct (classic (Spec.refinements_defined x y z)) as [Hd | Hn].
  - left. split; [ exact Hd | apply cartesian_to_geodetic_defined, Hd ].
  - right. split; [ exact Hn | apply cartesian_to_geodetic_undefined, Hn ].
Qed.

(** C4: for every real latitude, longitude (degrees) and altitude (km),
    [geodetic_to_cartesian] raises nothing and returns the
    specification's formulas: N = a / sqrt(1 - e2 sin^2 lat) with
    a = 6378137, f = 1 / 298.257223563 and e2 = 2f - f^2, then
    x = (N + alt) cos lat cos lon, y = (N + alt) cos lat sin lon and
    z = (N (1 - e2) + alt) sin lat, each divided by 1000. *)
Theorem geodetic_to_cartesian_computes (lat lon alt : R) :
  @geodetic_to_cartesian R Ideal.ideal lat lon alt
  = Ret (Spec.spec_geodetic_to_cartesian lat lon alt)
  /\ Spec.a = 6378137
  /\ Spec.f = 1 / 298.257223563
  /\ Spec.e2 = 2 * Spec.f - Spec.f ^ 2.
Proof.
  split; [ apply geodetic_to_cartesian_ideal | ].
  repeat split; reflexivity.
Qed.

(** C5, as stated, fails: x^2 + y^2 > 0 does not keep the divisions
    defined. In binary64 the input (1e-16, 0, 0) raises
    ZeroDivisionError for every C library; in exact arithmetic the
    point at [critical_radius] from the axis does. *)
Lemma off_axis_failures :
  ~ (forall (M : Libm) (x y z : float),
       is_finite x = true -> is_finite y = true -> is_finite z = true ->
       (0 <? x * x + y * y)%float = true ->
       returns (@cartesian_to_geodetic float (binary64 M) x y z))
  /\ (0 < (critical_radius / 1000) ^ 2 + 0 ^ 2
      /\ @cartesian_to_geodetic R Ideal.ideal (critical_radius / 1000) 0
           (critical_radius * (1 - Spec.e2) / 1000)
         = Raise ZeroDivisionError).
Proof.
  split.
  - intros H.
    pose (M := {| libm_sin := fun x => x; libm_cos := fun x => x;
                  libm_atan2 := fun y x => y |}).
    destruct (H M 1e-16%float 0%float 0%float) as [r Hr];
      try (vm_compute; reflexivity).
    rewrite cartesian_to_geodetic_near_axis_binary64 in Hr. discriminate.
  - split; [ | apply cartesian_to_geodetic_critical_ideal ].
    pose proof critical_radius_pos. nra.
Qed.

(** C5, amended: in exact arithmetic, for every input farther than
    e2 a / 1000 km (about 42.7 km) from the polar axis, every division
    and square root of [cartesian_to_geodetic] is defined and the call
    returns. *)
Theorem cartesian_to_geodetic_total_far_from_axis (x y z : R) :
  Spec.e2 * Spec.a / 1000 < R_sqrt.sqrt (x ^ 2 + y ^ 2) ->
  returns (@cartesian_to_geodetic R Ideal.ideal x y z).
Proof.
  intros Hfar. eexists.
  apply cartesian_to_geodetic_defined, far_from_axis_defined, Hfar.
Qed.

(** C5, witness: the reference point on the equator is far from the
    axis. *)
Lemma cartesian_to_geodetic_total_far_from_axis_witness :
  Spec.e2 * Spec.a / 1000 < R_sqrt.sqrt (6378.137 ^ 2 + 0 ^ 2)
  /\ returns (@cartesian_to_geodetic R Ideal.ideal 6378.137 0 0).
Proof.
  assert (H : Spec.e2 * Spec.a / 1000 < R_sqrt.sqrt (6378.137 ^ 2 + 0 ^ 2)).
  { replace (6378.137 ^ 2 + 0 ^ 2) with (Rsqr 6378.137)
      by (unfold Rsqr; ring).
    rewrite sqrt_Rsqr by lra.
    pose proof e2a_lt_a. unfold Spec.a in *. lra. }
  split; [ exact H | ].
  apply (cartesian_to_geodetic_total_far_from_axis 6378.137 0 0 H).
Defined.

(** C6: [geodetic_to_cartesian(0, 0, 0)] returns x equal to 6378.137 and
    y, z within 1e-5 of 0 (they are 0), in exact arithmetic and in
    binary64 with any C library. *)
Theorem equator_prime_meridian_fixed_point :
  (exists x y z : R,
     @geodetic_to_cartesian R Ideal.ideal 0 0 0 = Ret (x, y, z)
     /\ x = 6378.137 /\ Rabs y <= 1e-5 /\ Rabs z <= 1e-5)
  /\ (forall M : Libm,
        exists x y z : float,
          @geodetic_to_cartesian float (binary64 M) 0%float 0%float 0%float
          = Ret (x, y, z)
          /\ x = 6378.137%float
          /\ (abs y <=? 1e-5)%float = true
          /\ (abs z <=? 1e-5)%float = true).
Proof.
  split.
  - exists 6378.137, 0, 0. rewrite Rabs_R0.
    split; [ apply geodetic_to_cartesian_origin_ideal | ].
    split; [ reflexivity | split; lra ].
  - intros M. exists 6378.137%float, 0%float, 0%float.
    split; [ apply geodetic_to_cartesian_origin_binary64 | ].
    repeat split.
Qed.

(** C7: [cartesian_to_geodetic(6378.137, 0, 0)] returns latitude and
    longitude within 1e-5 degrees of 0 and altitude within 0.01 km of 0
    (all three are 0), in exact arithmetic and in binary64 with any C
    library. *)
Theorem inverse_at_reference_point :
  (exists lat lon alt : R,
     @cartesian_to_geodetic R Ideal.ideal 6378.137 0 0 = Ret (lat, lon, alt)
     /\ Rabs lat <= 1e-5 /\ Rabs lon <= 1e-5 /\ Rabs alt <= 0.01)
  /\ (forall M : Libm,
        exists lat lon alt : float,
          @cartesian_to_geodetic float (binary64 M)
            6378.137%float 0%float 0%float
          = Ret (lat, lon, alt)
          /\ (abs lat <=? 1e-5)%float = true
          /\ (abs lon <=? 1e-5)%float = true
          /\ (abs alt <=? 0.01)%float = true).
Proof.
  split.
  - exists 0, 0, 0. rewrite Rabs_R0.
    split; [ apply cartesian_to_geodetic_reference_ideal | ].
    repeat split; lra.
  - intros M. exists 0%float, 0%float, 0%float.
    split; [ apply cartesian_to_geodetic_reference_binary64 | ].
    repeat split.
Qed.

(** C8, as stated, fails: at latitude 0, longitude 0, raising the
    altitude from -20000 km to -10000 km brings the point closer to the
    centre (13621.863 km, then 3621.863 km). *)
Lemma altitude_not_monotone_below_centre :
  distance_of_geodetic 0 0 (-20000) = Ret 13621.863
  /\ distance_of_geodetic 0 0 (-10000) = Ret 3621.863
  /\ -20000 < -10000
  /\ ~ 13621.863 < 3621.863.
Proof.
  assert (Hx : forall alt d : R,
             0 <= d -> (Spec.a + alt * 1000) / 1000 = - d ->
             distance_of_geodetic 0 0 alt = Ret d).
  { intros alt d Hd Hv. rewrite distance_of_geodetic_ideal. f_equal.
    unfold squared_distance, Spec.spec_geodetic_to_cartesian, Spec.radians.
    cbv zeta. cbn [fst snd].
    replace (0 * PI / 180) with 0 by field.
    rewrite prime_vertical_radius_0, sin_0, cos_0.
    replace ((Spec.a + alt * 1000) * 1 * 1 / 1000) with (- d)
      by (rewrite <- Hv; field).
    replace ((- d) ^ 2 + ((Spec.a + alt * 1000) * 1 * 0 / 1000) ^ 2
             + ((Spec.a * (1 - Spec.e2) + alt * 1000) * 0 / 1000) ^ 2)
      with (Rsqr d) by (unfold Rsqr; field).
    apply sqrt_Rsqr, Hd. }
  repeat split; try lra.
  - apply Hx; [ lra | unfold Spec.a; lra ].
  - apply Hx; [ lra | unfold Spec.a; lra ].
Qed.

(** C8, amended: in exact arithmetic, for fixed latitude and longitude
    and alt1 < alt2, the distance from the centre at alt2 is strictly
    greater than at alt1 exactly when
    alt1 + alt2 > -2 a sqrt(1 - e2 sin^2 lat) / 1000; in particular
    whenever alt1 is at least minus the semi-minor axis,
    -a sqrt(1 - e2) / 1000 km (about -6356.75 km). *)
Theorem altitude_monotone_iff (lat lon alt1 alt2 : R) :
  alt1 < alt2 ->
  exists d1 d2 : R,
    distance_of_geodetic lat lon alt1 = Ret d1
    /\ distance_of_geodetic lat lon alt2 = Ret d2
    /\ (d1 < d2
        <-> - 2 * (Spec.a
                   * R_sqrt.sqrt (1 - Spec.e2 * sin (Spec.radians lat) ^ 2))
              / 1000 < alt1 + alt2)
    /\ (- (Spec.a * R_sqrt.sqrt (1 - Spec.e2)) / 1000 <= alt1 -> d1 < d2).
Proof.
  intros Hlt.
  exists (R_sqrt.sqrt (squared_distance lat lon alt1)),
         (R_sqrt.sqrt (squared_distance lat lon alt2)).
  split; [ apply distance_of_geodetic_ideal | ].
  split; [ apply distance_of_geodetic_ideal | ].
  pose proof (distance_monotone_iff lat lon alt1 alt2 Hlt) as Hiff.
  split; [ exact Hiff | ].
  intros Hfloor. apply Hiff.
  pose proof (semi_minor_le (Spec.radians lat)) as Hb.
  pose proof a_pos as Ha.
  assert (Spec.a * R_sqrt.sqrt (1 - Spec.e2)
          <= Spec.a
             * R_sqrt.sqrt (1 - Spec.e2 * sin (Spec.radians lat) ^ 2))
    by (apply Rmult_le_compat_l; lra).
  lra.
Qed.

(** C8, witness: sea level and one kilometre up, on the equator. *)
Lemma altitude_monotone_iff_witness :
  0 < 1
  /\ exists d1 d2 : R,
       distance_of_geodetic 0 0 0 = Ret d1
       /\ distance_of_geodetic 0 0 1 = Ret d2
       /\ (d1 < d2
           <-> - 2 * (Spec.a
                      * R_sqrt.sqrt (1 - Spec.e2 * sin (Spec.radians 0) ^ 2))
                 / 1000 < 0 + 1)
       /\ (- (Spec.a * R_sqrt.sqrt (1 - Spec.e2)) / 1000 <= 0 -> d1 < d2).
Proof.
  split; [ lra | ].
  apply (altitude_monotone_iff 0 0 0 1). lra.
Defined.

End Claims.

Section DataManagerClaims.
Import SatelliteDataManager.
Local Open Scope string_scope.
Local Open Scope list_scope.
Local Open Scope nat_scope.

(** C9: when the stored N2YO API key is unset ([None] or the empty
    string), [get_satellites_above] and [get_satellite_positions] each
    return the dictionary {"error": "N2YO API key not set"} and send no
    HTTP request (the request log is unchanged), whatever their other
    arguments. *)
Theorem api_key_unset_no_request
        (format : pyvalue -> string)
        (network : list request -> request -> reply) (self : t)
        (norad_id lat lon alt radius seconds category : pyvalue)
        (log : list request) :
  n2yo_api_key self = None \/ n2yo_api_key self = Some "" ->
  get_satellites_above format network self lat lon alt radius category log
  = (log, Ret (PDict [("error", PStr "N2YO API key not set")]))
  /\ get_satellite_positions format network self norad_id lat lon alt
       seconds log
     = (log, Ret (PDict [("error", PStr "N2YO API key not set")])).
Proof.
  intros Hkey. apply truthy_unset in Hkey.
  unfold get_satellites_above, get_satellite_positions.
  rewrite Hkey. split; reflexivity.
Qed.

(** C9, witness: a manager fresh from [__init__] (the configured key is
    the empty string), asked about the point (0, 0, 0) within 100 km. *)
Lemma api_key_unset_no_request_witness :
  (n2yo_api_key __init__ = None \/ n2yo_api_key __init__ = Some "")
  /\ get_satellites_above (fun _ => "0") (fun _ _ => Json PNone) __init__
       (PInt 0) (PInt 0) (PInt 0) (PInt 100) (PStr "0") []
     = ([], Ret (PDict [("error", PStr "N2YO API key not set")]))
  /\ get_satellite_positions (fun _ => "0") (fun _ _ => Json PNone) __init__
       (PInt 25544) (PInt 0) (PInt 0) (PInt 0) (PInt 1) []
     = ([], Ret (PDict [("error", PStr "N2YO API key not set")])).
Proof.
  split; [ right; reflexivity | ].
  apply (api_key_unset_no_request (fun _ => "0") (fun _ _ => Json PNone)
           __init__ (PInt 25544) (PInt 0) (PInt 0) (PInt 0) (PInt 100)
           (PInt 1) (PStr "0") []).
  right; reflexivity.
Defined.

(** C10: for every list of n lines in which the NORAD field
    ([line1[2:7]]) of each complete triple parses as an integer,
    [parse_tle] returns exactly n / 3 records, in input order; record k
    has 'name' the stripped line 3k, 'norad_id' the parsed integer,
    'line1' line 3k+1 and 'line2' line 3k+2. Lines after the last
    complete triple leave no record. *)
Theorem parse_tle_records
        (str_strip : string -> string) (int : string -> result Z)
        (tle_lines : list string) :
  (forall k, k < List.length tle_lines / 3 ->
     returns (int (norad_field tle_lines k))) ->
  exists satellites : list pyvalue,
    parse_tle str_strip int tle_lines = Ret satellites
    /\ List.length satellites = List.length tle_lines / 3
    /\ forall k, k < List.length tle_lines / 3 ->
         exists norad_id : Z,
           int (slice 2 7 (nth (3 * k + 1) tle_lines "")) = Ret norad_id
           /\ nth_error satellites k
              = Some (PDict
                        [("name", PStr (str_strip (nth (3 * k) tle_lines "")));
                         ("norad_id", PInt norad_id);
                         ("line1", PStr (nth (3 * k + 1) tle_lines ""));
                         ("line2", PStr (nth (3 * k + 2) tle_lines ""))]).
Proof.
  intros Hint. eexists. split; [ apply parse_tle_value, Hint | ].
  split.
  - rewrite length_map, length_seq. reflexivity.
  - intros k Hk. destruct (Hint k Hk) as [v Hv].
    exists v. split; [ exact Hv | ].
    rewrite nth_error_map, nth_error_seq.
    destruct (Nat.ltb_spec k (List.length tle_lines / 3)) as [ _ | Hge ];
      [ | lia ].
    cbn [option_map Nat.add]. unfold parsed_or_zero. rewrite Hv.
    reflexivity.
Qed.

(** C10, witness: one complete triple and a trailing name line; the
    built-ins are [strip] and [decimal_int]. *)
Lemma parse_tle_records_witness :
  (forall k, k < List.length iss_tle / 3 ->
     returns (decimal_int (norad_field iss_tle k)))
  /\ exists satellites : list pyvalue,
       parse_tle strip decimal_int iss_tle = Ret satellites
       /\ List.length satellites = List.length iss_tle / 3
       /\ forall k, k < List.length iss_tle / 3 ->
            exists norad_id : Z,
              decimal_int (slice 2 7 (nth (3 * k + 1) iss_tle ""))
              = Ret norad_id
              /\ nth_error satellites k
                 = Some (PDict
                           [("name", PStr (strip (nth (3 * k) iss_tle "")));
                            ("norad_id", PInt norad_id);
                            ("line1", PStr (nth (3 * k + 1) iss_tle ""));
                            ("line2", PStr (nth (3 * k + 2) iss_tle ""))]).
Proof.
  assert (H : forall k, k < List.length iss_tle / 3 ->
                returns (decimal_int (norad_field iss_tle k))).
  { intros k Hk. change (List.length iss_tle / 3) with 1 in Hk.
    assert (k = 0) as -> by lia. exists 25544%Z. reflexivity. }
  split; [ exact H | ].
  apply (parse_tle_records strip decimal_int iss_tle H).
Defined.

End DataManagerClaims.

(** * Further properties of the converter (exact arithmetic) *)

Section ConverterLaws.
Local Open Scope R_scope.

(** X1. Round-trip law in exact arithmetic: for latitude in [-89, 89]
    degrees, longitude in (-180, 180] degrees and altitude in
    [-10, 1000] km, [cartesian_to_geodetic] applied to the result of
    [geodetic_to_cartesian] returns, and recovers the latitude within
    1e-5 degrees, the longitude exactly, and the altitude within 0.01 km. *)
Theorem round_trip_exact (lat lon alt : R) :
  -89 <= lat <= 89 -> -180 < lon <= 180 -> -10 <= alt <= 1000 ->
  exists x y z lat' lon' alt' : R,
    @geodetic_to_cartesian R Ideal.ideal lat lon alt = Ret (x, y, z)
    /\ @cartesian_to_geodetic R Ideal.ideal x y z = Ret (lat', lon', alt')
    /\ Rabs (lat' - lat) <= 1e-5
    /\ lon' = lon
    /\ Rabs (alt' - alt) <= 0.01.
Proof.
  intros Hlat Hlon Halt.
  destruct (round_trip_spec lat lon alt Hlat Hlon Halt)
    as [Hdef [Hlat' [Hlon' Halt']]].
  cbv zeta in Hdef, Hlat', Hlon', Halt'.
  destruct (Spec.spec_geodetic_to_cartesian lat lon alt) as [[x y] z] eqn:Hfwd.
  cbn [fst snd] in *.
  destruct (Spec.spec_cartesian_to_geodetic x y z) as [[lat' lon'] alt']
    eqn:Hback.
  cbn [fst snd] in *.
  exists x, y, z, lat', lon', alt'.
  split; [ rewrite geodetic_to_cartesian_ideal, Hfwd; reflexivity | ].
  split; [ rewrite (cartesian_to_geodetic_defined x y z Hdef), Hback;
           reflexivity | ].
  repeat split; assumption.
Qed.

(** X1, witness: the round trip of the test suite, 34 N, 118 W, 100 km
    up. *)
Lemma round_trip_exact_witness :
  (-89 <= 34 <= 89 /\ -180 < -118 <= 180 /\ -10 <= 100 <= 1000)
  /\ exists x y z lat' lon' alt' : R,
       @geodetic_to_cartesian R Ideal.ideal 34 (-118) 100 = Ret (x, y, z)
       /\ @cartesian_to_geodetic R Ideal.ideal x y z = Ret (lat', lon', alt')
       /\ Rabs (lat' - 34) <= 1e-5
       /\ lon' = -118
       /\ Rabs (alt' - 100) <= 0.01.
Proof.
  split; [ lra | ].
  apply (round_trip_exact 34 (-118) 100); lra.
Defined.

(** On the antimeridian exact arithmetic answers +180 degrees, also for
    -180: there sin(-pi) is exactly 0 and atan2(0, x) with x < 0 is pi. *)
Lemma antimeridian_exact :
  @geodetic_to_cartesian R Ideal.ideal 0 (-180) 0 = Ret (-6378.137, 0, 0)
  /\ @cartesian_to_geodetic R Ideal.ideal (-6378.137) 0 0 = Ret (0, 180, 0).
Proof.
  assert (Hp : R_sqrt.sqrt ((-6378.137 * 1000) ^ 2 + (0 * 1000) ^ 2) = Spec.a).
  { replace ((-6378.137 * 1000) ^ 2 + (0 * 1000) ^ 2) with (Rsqr Spec.a)
      by (unfold Spec.a, Rsqr; lra).
    apply sqrt_Rsqr. unfold Spec.a. lra. }
  split.
  - rewrite geodetic_to_cartesian_ideal.
    unfold Spec.spec_geodetic_to_cartesian, Spec.radians.
    replace (0 * PI / 180) with 0 by field.
    replace (-180 * PI / 180) with (- PI) by field.
    rewrite prime_vertical_radius_0, sin_0, cos_0, cos_neg, sin_neg,
      cos_PI, sin_PI.
    unfold Spec.a. repeat f_equal; lra.
  - rewrite cartesian_to_geodetic_defined.
    + unfold Spec.spec_cartesian_to_geodetic. rewrite Hp.
      replace (0 * 1000) with 0 by ring.
      rewrite !latitude_after_equator by apply e2a_lt_a.
      unfold Spec.altitude_at. rewrite prime_vertical_radius_0, cos_0.
      assert (Hlon : Ideal.atan2 0 (-6378.137 * 1000) = PI).
      { unfold Ideal.atan2.
        destruct (Rlt_dec 0 (-6378.137 * 1000)) as [H | _]; [ lra | ].
        destruct (Rlt_dec (-6378.137 * 1000) 0) as [_ | H]; [ | lra ].
        destruct (Rle_dec 0 0) as [_ | H]; [ | lra ].
        unfold Rdiv. rewrite Rmult_0_l, atan_0. ring. }
      rewrite Hlon. unfold Spec.degrees, Spec.a.
      repeat f_equal; field; apply PI_neq0.
    + intros k Hk. cbv zeta. rewrite Hp.
      replace (0 * 1000) with 0 by ring.
      rewrite latitude_after_equator by apply e2a_lt_a.
      apply equator_defined, e2a_lt_a.
Qed.

(** X2. Symmetry under longitude rotation: at fixed latitude and altitude
    the point moves on a circle around the polar axis as the longitude
    varies: x = rho cos(lon), y = rho sin(lon) with rho and z the same
    for every longitude. *)
Theorem longitude_rotation (lat alt : R) :
  exists rho z : R,
    forall lon : R,
      @geodetic_to_cartesian R Ideal.ideal lat lon alt
      = Ret (rho * cos (Spec.radians lon), rho * sin (Spec.radians lon), z).
Proof.
  exists (axis_distance (Spec.radians lat) (alt * 1000) / 1000),
         (plane_height (Spec.radians lat) (alt * 1000) / 1000).
  intros lon. rewrite geodetic_to_cartesian_ideal.
  unfold Spec.spec_geodetic_to_cartesian, axis_distance, plane_height.
  cbv zeta.
  match goal with
  | |- Ret (?x, ?y, ?z) = Ret (?x', ?y', ?z') =>
      replace x with x' by field; replace y with y' by field;
      replace z with z' by field
  end.
  reflexivity.
Qed.

End ConverterLaws.

(** * The converter at the edges of its domain (exact arithmetic) *)

Section ConverterEdges.
Local Open Scope R_scope.

Lemma atan2_bounds (y x : R) : - PI < Ideal.atan2 y x <= PI.
Proof.
  pose proof PI_bounds as [H3 H4]. unfold Ideal.atan2.
  pose proof (atan_bound (y / x)) as Hb.
  destruct (Rlt_dec 0 x) as [Hx | Hx]; [ lra | ].
  destruct (Rlt_dec x 0) as [Hx' | Hx'].
  - destruct (Rle_dec 0 y) as [Hy | Hy].
    + assert (Hq : y / x <= 0).
      { unfold Rdiv. pose proof (Rinv_lt_0_compat x Hx'). nra. }
      assert (atan (y / x) <= 0).
      { rewrite <- atan_0. destruct Hq as [Hq | Hq].
        - left. apply atan_increasing, Hq.
        - rewrite Hq. lra. }
      lra.
    + assert (Hq : 0 < y / x).
      { unfold Rdiv. pose proof (Rinv_lt_0_compat x Hx'). nra. }
      pose proof (atan_increasing 0 (y / x) Hq) as Hi.
      rewrite atan_0 in Hi. lra.
  - destruct (Rlt_dec 0 y); [ lra | ].
    destruct (Rlt_dec y 0); lra.
Qed.

Lemma atan2_zero_neg (x : R) : x < 0 -> Ideal.atan2 0 x = PI.
Proof.
  intros Hx. unfold Ideal.atan2.
  destruct (Rlt_dec 0 x); [ lra | ].
  destruct (Rlt_dec x 0); [ | contradiction ].
  destruct (Rle_dec 0 0); [ | lra ].
  unfold Rdiv. rewrite Rmult_0_l, atan_0. ring.
Qed.

Lemma atan2_pos_zero (y : R) : 0 < y -> Ideal.atan2 y 0 = PI / 2.
Proof.
  intros Hy. unfold Ideal.atan2.
  destruct (Rlt_dec 0 0); [ lra | ].
  destruct (Rlt_dec 0 y); [ reflexivity | contradiction ].
Qed.

Lemma atan2_neg_zero (y : R) : y < 0 -> Ideal.atan2 y 0 = - (PI / 2).
Proof.
  intros Hy. unfold Ideal.atan2.
  destruct (Rlt_dec 0 0); [ lra | ].
  destruct (Rlt_dec 0 y); [ lra | ].
  destruct (Rlt_dec y 0); [ reflexivity | contradiction ].
Qed.

Lemma axis_horizontal :
  R_sqrt.sqrt ((0 * 1000) ^ 2 + (0 * 1000) ^ 2) = 0.
Proof.
  replace ((0 * 1000) ^ 2 + (0 * 1000) ^ 2) with 0 by ring. apply sqrt_0.
Qed.

Lemma polar_axis_not_defined (z : R) : ~ Spec.refinements_defined 0 0 z.
Proof.
  intros Hdef. specialize (Hdef 0%nat ltac:(lia)).
  cbn [Spec.latitude_after Nat.iter nat_rect] in Hdef.
  rewrite axis_horizontal, Rmult_0_l in Hdef.
  destruct Hdef as [Hcos Hsum].
  destruct (Rtotal_order (z * 1000) 0) as [Hz | [Hz | Hz]].
  - rewrite atan2_neg_zero in Hcos by exact Hz.
    apply Hcos. rewrite cos_neg. apply cos_PI2.
  - rewrite Hz, atan2_zero_zero in Hsum. apply Hsum.
    unfold Spec.altitude_at. rewrite cos_0. field.
  - rewrite atan2_pos_zero in Hcos by exact Hz.
    apply Hcos, cos_PI2.
Qed.

Lemma horizontal_metres (x y : R) :
  R_sqrt.sqrt ((x * 1000) ^ 2 + (y * 1000) ^ 2)
  = R_sqrt.sqrt (x ^ 2 + y ^ 2) * 1000.
Proof.
  replace ((x * 1000) ^ 2 + (y * 1000) ^ 2)
    with ((x ^ 2 + y ^ 2) * Rsqr 1000) by (unfold Rsqr; ring).
  rewrite sqrt_mult_alt by nra. rewrite sqrt_Rsqr by lra. reflexivity.
Qed.

Lemma degrees_PI : Spec.degrees PI = 180.
Proof. unfold Spec.degrees. field. apply PI_neq0. Qed.


Lemma prime_vertical_radius_PI : Spec.prime_vertical_radius PI = Spec.a.
Proof.
  unfold Spec.prime_vertical_radius. rewrite sin_PI.
  replace (1 - Spec.e2 * 0 ^ 2) with 1 by ring.
  rewrite sqrt_1. field.
Qed.

(** Inside the critical cylinder the latitude flips between 0 and pi. *)
Lemma next_latitude_near_0 (p : R) :
  0 < p < Spec.e2 * Spec.a -> Spec.next_latitude p 0 0 = PI.
Proof.
  intros Hp. unfold Spec.next_latitude, Spec.altitude_at.
  rewrite prime_vertical_radius_0, cos_0.
  apply atan2_zero_neg.
  replace (p * (1 - Spec.e2 * Spec.a / (Spec.a + (p / 1 - Spec.a))))
    with (p - Spec.e2 * Spec.a) by (field; lra).
  lra.
Qed.

Lemma next_latitude_near_PI (p : R) :
  0 < p < Spec.e2 * Spec.a -> Spec.next_latitude p 0 PI = 0.
Proof.
  intros Hp. unfold Spec.next_latitude, Spec.altitude_at.
  rewrite prime_vertical_radius_PI, cos_PI.
  apply atan2_zero_pos.
  pose proof e2_bounds as [H0 H1]. pose proof a_pos as Ha.
  replace (p * (1 - Spec.e2 * Spec.a / (Spec.a + (p / -1 - Spec.a))))
    with (p + Spec.e2 * Spec.a) by (field; lra).
  nra.
Qed.

Lemma latitude_after_near (p : R) (k : nat) :
  0 < p < Spec.e2 * Spec.a ->
  Spec.latitude_after (2 * k) p 0 = 0
  /\ Spec.latitude_after (2 * k + 1) p 0 = PI.
Proof.
  intros Hp. pose proof e2_bounds as [H0 H1].
  unfold Spec.latitude_after. induction k as [ | k [IH0 IH1] ].
  - cbn [Nat.mul Nat.add Nat.iter nat_rect].
    assert (Hg : Ideal.atan2 0 (p * (1 - Spec.e2)) = 0)
      by (apply atan2_zero_pos; nra).
    rewrite Hg. split; [ reflexivity | apply next_latitude_near_0, Hp ].
  - replace (2 * S k)%nat with (S (2 * k + 1)) by lia.
    replace (S (2 * k + 1) + 1)%nat with (S (S (2 * k + 1))) by lia.
    rewrite !Nat.iter_succ, IH1.
    rewrite next_latitude_near_PI by exact Hp.
    split; [ reflexivity | apply next_latitude_near_0, Hp ].
Qed.

Lemma near_axis_defined (p lat : R) :
  0 < p -> lat = 0 \/ lat = PI -> Spec.refinement_defined p lat.
Proof.
  intros Hp [-> | ->]; split.
  - rewrite cos_0. lra.
  - unfold Spec.altitude_at. rewrite cos_0. lra.
  - rewrite cos_PI. lra.
  - unfold Spec.altitude_at. rewrite cos_PI.
    replace (Spec.prime_vertical_radius PI
             + (p / -1 - Spec.prime_vertical_radius PI)) with (- p)
      by (field; lra).
    lra.
Qed.

Lemma latitude_after_near_cases (p : R) (k : nat) :
  0 < p < Spec.e2 * Spec.a ->
  Spec.latitude_after k p 0 = 0 \/ Spec.latitude_after k p 0 = PI.
Proof.
  intros Hp. destruct (Nat.Even_or_Odd k) as [[m ->] | [m ->]].
  - left. apply latitude_after_near, Hp.
  - right. apply latitude_after_near, Hp.
Qed.

Lemma sqrt_above (b q : R) : 0 <= b -> b * b < q -> b < R_sqrt.sqrt q.
Proof.
  intros Hb Hq. rewrite <- (sqrt_square b Hb).
  apply sqrt_lt_1_alt. nra.
Qed.

Lemma sqrt_below (b q : R) : 0 <= q -> q < b * b -> 0 <= b ->
  R_sqrt.sqrt q < b.
Proof.
  intros Hq Hlt Hb. rewrite <- (sqrt_square b Hb).
  apply sqrt_lt_1_alt. lra.
Qed.

Lemma critical_distance_bounds : 42 < Spec.e2 * Spec.a / 1000 < 43.
Proof. pose proof e2_numeric as [Hlo Hhi]. unfold Spec.a. lra. Qed.

(** X3. On the polar axis, the poles included, [cartesian_to_geodetic]
    raises ZeroDivisionError in exact arithmetic: for [z = 0] the first
    pass divides by [N + alt = 0], elsewhere by [cos(lat) = 0]. *)
Theorem polar_axis_raises_zero_division (z : R) :
  @cartesian_to_geodetic R Ideal.ideal 0 0 z = Raise ZeroDivisionError.
Proof.
  apply cartesian_to_geodetic_undefined, polar_axis_not_defined.
Qed.



(** X5. In the equatorial plane, between a micrometre (1e-9 km) and
    42 km from the polar axis, exact arithmetic returns a latitude of
    magnitude 180 degrees and the altitude p - a: the refinement flips
    between 0 and pi and its fifth pass ends on pi. (Exact arithmetic
    has the one zero and gives +180; closer to the axis than about
    1e-12 km the floating-point code raises instead, see
    [cartesian_to_geodetic_near_axis_binary64].) *)
Theorem equatorial_plane_near_axis (x y : R) :
  1 / 1000000000 <= R_sqrt.sqrt (x ^ 2 + y ^ 2) <= 42 ->
  exists lat : R,
    @cartesian_to_geodetic R Ideal.ideal x y 0
    = Ret (lat, Spec.degrees (Ideal.atan2 (y * 1000) (x * 1000)),
           R_sqrt.sqrt (x ^ 2 + y ^ 2) - 6378.137)
    /\ Rabs lat = 180.
Proof.
  intros Hp. pose proof critical_distance_bounds as Hc.
  assert (Hp' : 0 < R_sqrt.sqrt (x ^ 2 + y ^ 2) * 1000 < Spec.e2 * Spec.a)
    by lra.
  exists 180. split; [ | apply Rabs_pos_eq; lra ].
  rewrite cartesian_to_geodetic_defined.
  - unfold Spec.spec_cartesian_to_geodetic. cbv zeta.
    rewrite horizontal_metres, Rmult_0_l.
    pose proof (latitude_after_near _ 2 Hp') as [Hfour Hfive].
    change (2 * 2)%nat with 4%nat in Hfour.
    change (2 * 2 + 1)%nat with 5%nat in Hfive.
    rewrite Hfour, Hfive.
    unfold Spec.altitude_at.
    rewrite prime_vertical_radius_0, cos_0, degrees_PI.
    do 2 f_equal. unfold Spec.a. lra.
  - intros k _. cbv zeta. rewrite horizontal_metres, Rmult_0_l.
    apply near_axis_defined; [ lra | ].
    apply latitude_after_near_cases, Hp'.
Qed.

(** X5, witness: 10 km from the centre, on the x axis. *)
Lemma equatorial_plane_near_axis_witness :
  1 / 1000000000 <= R_sqrt.sqrt (10 ^ 2 + 0 ^ 2) <= 42
  /\ exists lat : R,
       @cartesian_to_geodetic R Ideal.ideal 10 0 0
       = Ret (lat, Spec.degrees (Ideal.atan2 (0 * 1000) (10 * 1000)),
              R_sqrt.sqrt (10 ^ 2 + 0 ^ 2) - 6378.137)
       /\ Rabs lat = 180.
Proof.
  assert (H : 1 / 1000000000 <= R_sqrt.sqrt (10 ^ 2 + 0 ^ 2) <= 42).
  { pose proof (sqrt_above 1 (10 ^ 2 + 0 ^ 2) ltac:(lra) ltac:(lra)).
    pose proof (sqrt_below 42 (10 ^ 2 + 0 ^ 2) ltac:(lra) ltac:(lra)
                  ltac:(lra)).
    lra. }
  split; [ exact H | ].
  apply (equatorial_plane_near_axis 10 0 H).
Defined.

(** X6. At 43 km or more from the polar axis the result of
    [cartesian_to_geodetic] in exact arithmetic is a geodetic position:
    latitude between -90 and 90 degrees, longitude between -180 and 180
    degrees, bounds included (the rounded result reaches them: 90.0 far
    above the poles, -180.0 for y = -0.0 and x < 0). *)
Theorem far_from_axis_angles_in_range (x y z : R) :
  43 <= R_sqrt.sqrt (x ^ 2 + y ^ 2) ->
  exists lat lon alt : R,
    @cartesian_to_geodetic R Ideal.ideal x y z = Ret (lat, lon, alt)
    /\ -90 <= lat <= 90 /\ -180 <= lon <= 180.
Proof.
  intros Hfar. pose proof PI_bounds as [H3 H4].
  assert (Hp : Spec.e2 * Spec.a / 1000 < R_sqrt.sqrt (x ^ 2 + y ^ 2))
    by (pose proof critical_distance_bounds; lra).
  rewrite cartesian_to_geodetic_defined by (apply far_from_axis_defined, Hp).
  unfold Spec.spec_cartesian_to_geodetic. cbv zeta.
  do 3 eexists. split; [ reflexivity | ].
  rewrite horizontal_metres.
  set (p := R_sqrt.sqrt (x ^ 2 + y ^ 2) * 1000).
  assert (Hp' : Spec.e2 * Spec.a < p) by (unfold p; lra).
  pose proof (latitude_after_far p (z * 1000) 5 Hp') as Hcos.
  assert (Hlat : - PI < Spec.latitude_after 5 p (z * 1000) <= PI).
  { unfold Spec.latitude_after. rewrite Nat.iter_succ.
    unfold Spec.next_latitude at 1. apply atan2_bounds. }
  set (lat := Spec.latitude_after 5 p (z * 1000)) in *.
  pose proof (atan2_bounds (y * 1000) (x * 1000)) as Hlon.
  set (lon := Ideal.atan2 (y * 1000) (x * 1000)) in *.
  assert (Hhalf : - (PI / 2) < lat < PI / 2).
  { split.
    - destruct (Rlt_dec (- (PI / 2)) lat) as [ | Hn ]; [ assumption | ].
      exfalso. rewrite <- cos_neg in Hcos.
      pose proof (cos_le_0 (- lat) ltac:(lra) ltac:(lra)). lra.
    - destruct (Rlt_dec lat (PI / 2)) as [ | Hn ]; [ assumption | ].
      exfalso. pose proof (cos_le_0 lat ltac:(lra) ltac:(lra)). lra. }
  unfold Spec.degrees.
  assert (Hinv : 0 < / PI) by (apply Rinv_0_lt_compat; lra).
  assert (Hd : forall t, t * 180 / PI = 180 * (t * / PI))
    by (intros t; unfold Rdiv; ring).
  rewrite !Hd.
  assert (Hone : PI * / PI = 1) by (apply Rinv_r; lra).
  repeat split; nra.
Qed.

(** X6, witness: the first sample position of data_analysis.py. *)
Lemma far_from_axis_angles_in_range_witness :
  43 <= R_sqrt.sqrt (5000 ^ 2 + (-3000) ^ 2)
  /\ exists lat lon alt : R,
       @cartesian_to_geodetic R Ideal.ideal 5000 (-3000) 4000
       = Ret (lat, lon, alt)
       /\ -90 <= lat <= 90 /\ -180 <= lon <= 180.
Proof.
  assert (H : 43 <= R_sqrt.sqrt (5000 ^ 2 + (-3000) ^ 2)).
  { pose proof (sqrt_above 43 (5000 ^ 2 + (-3000) ^ 2) ltac:(lra)
                  ltac:(lra)).
    lra. }
  split; [ exact H | ].
  apply (far_from_axis_angles_in_range 5000 (-3000) 4000 H).
Defined.

Lemma prime_vertical_radius_even (phi : R) :
  Spec.prime_vertical_radius (- phi) = Spec.prime_vertical_radius phi.
Proof.
  unfold Spec.prime_vertical_radius. rewrite sin_neg.
  replace ((- sin phi) ^ 2) with (sin phi ^ 2) by ring. reflexivity.
Qed.

(** X18. North-south mirror symmetry: changing the sign of the latitude
    changes the sign of z and leaves x and y as they are, for every
    longitude and altitude (exact arithmetic). *)
Theorem latitude_mirror (lat lon alt : R) :
  exists x y z : R,
    @geodetic_to_cartesian R Ideal.ideal lat lon alt = Ret (x, y, z)
    /\ @geodetic_to_cartesian R Ideal.ideal (- lat) lon alt
       = Ret (x, y, - z).
Proof.
  rewrite !geodetic_to_cartesian_ideal.
  unfold Spec.spec_geodetic_to_cartesian. cbv zeta.
  replace (Spec.radians (- lat)) with (- Spec.radians lat)
    by (unfold Spec.radians; field).
  rewrite prime_vertical_radius_even, cos_neg, sin_neg.
  do 3 eexists. split; [ reflexivity | ].
  do 2 f_equal. field.
Qed.

End ConverterEdges.

(** * The visualizer's geometry (exact arithmetic) *)

Section Visualizer.
Import SatelliteVisualizer.
Local Open Scope R_scope.

Lemma prime_vertical_radius_sqr (lat : R) :
  Spec.prime_vertical_radius lat ^ 2 * (1 - Spec.e2 * sin lat ^ 2)
  = Spec.a ^ 2.
Proof.
  pose proof (prime_vertical_radicand lat) as HN.
  pose proof (radicand_pos lat) as Hr.
  set (N := Spec.prime_vertical_radius lat) in *.
  set (q := 1 - Spec.e2 * sin lat ^ 2) in *.
  assert (Hq : 0 < q) by (unfold q; lra).
  pose proof (sqrt_def q ltac:(lra)) as Hs.
  set (r := R_sqrt.sqrt q) in *.
  apply (Rmult_eq_reg_r q); [ | lra ].
  replace (N ^ 2 * q * q) with ((N * q) ^ 2) by ring.
  rewrite HN. replace (Spec.a ^ 2 * q) with (Spec.a ^ 2 * (r * r)) by (rewrite Hs; reflexivity). ring.
Qed.

(** The surface point of a geodetic position satisfies the equation of
    the WGS84 ellipsoid (lengths in km). *)
Lemma surface_point_on_ellipsoid (lat lon : R) :
  let xyz := Spec.spec_geodetic_to_cartesian lat lon 0 in
  (fst (fst xyz) ^ 2 + snd (fst xyz) ^ 2) / (Spec.a / 1000) ^ 2
  + snd xyz ^ 2 / ((Spec.a / 1000) ^ 2 * (1 - Spec.e2)) = 1.
Proof.
  cbv zeta. unfold Spec.spec_geodetic_to_cartesian. cbn [fst snd].
  pose proof e2_bounds as [H0 H1]. pose proof a_pos as Ha.
  pose proof (prime_vertical_radius_sqr (Spec.radians lat)) as HN.
  set (N := Spec.prime_vertical_radius (Spec.radians lat)) in *.
  pose proof (sin2_cos2 (Spec.radians lat)) as Hphi.
  pose proof (sin2_cos2 (Spec.radians lon)) as Hlam.
  unfold Rsqr in Hphi, Hlam.
  set (s := sin (Spec.radians lat)) in *.
  set (c := cos (Spec.radians lat)) in *.
  set (sl := sin (Spec.radians lon)) in *.
  set (cl := cos (Spec.radians lon)) in *.
  replace (((N + 0 * 1000) * c * cl / 1000) ^ 2
           + ((N + 0 * 1000) * c * sl / 1000) ^ 2)
    with (N ^ 2 * (c * c) * (sl * sl + cl * cl) / 1000 ^ 2) by (field; lra).
  rewrite Hlam.
  replace (c * c) with (1 - s * s) by lra.
  replace (N ^ 2 * (1 - s * s) * 1 / 1000 ^ 2 / (Spec.a / 1000) ^ 2
           + ((N * (1 - Spec.e2) + 0 * 1000) * s / 1000) ^ 2
             / ((Spec.a / 1000) ^ 2 * (1 - Spec.e2)))
    with (N ^ 2 * (1 - Spec.e2 * s ^ 2) / Spec.a ^ 2) by (field; lra).
  rewrite HN. field. lra.
Qed.

(** X7. Whenever the radius of the sphere is not zero, [create_cone]
    returns a cone whose apex is the Earth's centre, whose axis and target
    point are the same point of the WGS84 ellipsoid (the altitude-0 point
    of the target position, in km), and whose opening angle is the angle
    in (-pi/2, pi/2) with tangent radius_km / earth_radius. *)
Theorem create_cone_target_on_ellipsoid
        (self : SatelliteVisualizer.t) (target_lat target_lon radius_km : R) :
  earth_radius self <> 0 ->
  exists (c : cone) (x y z : R),
    create_cone self target_lat target_lon radius_km = Ret c
    /\ apex c = (0%Z, 0%Z, 0%Z)
    /\ axis c = (x, y, z) /\ target_surface c = (x, y, z)
    /\ (x ^ 2 + y ^ 2) / (Spec.a / 1000) ^ 2
       + z ^ 2 / ((Spec.a / 1000) ^ 2 * (1 - Spec.e2)) = 1
    /\ - (PI / 2) < angle c < PI / 2
    /\ tan (angle c) = radius_km / earth_radius self.
Proof.
  intros HR. unfold create_cone.
  rewrite geodetic_to_cartesian_ideal. cbn [bind].
  rewrite div_ok by exact HR. cbn [bind].
  pose proof (surface_point_on_ellipsoid target_lat target_lon) as Hon.
  cbv zeta in Hon.
  destruct (Spec.spec_geodetic_to_cartesian target_lat target_lon 0)
    as [[x y] z].
  cbn [fst snd] in Hon.
  eexists; exists x, y, z.
  split; [ reflexivity | ]. cbn [apex axis target_surface angle].
  pose proof (atan_bound (radius_km / earth_radius self)) as Hb.
  repeat split; try reflexivity; try exact Hon; try lra.
  apply tan_atan.
Qed.

(** X7, witness: the default target of config.py (New York, 100 km
    radius) on the default sphere. *)
Lemma create_cone_target_on_ellipsoid_witness :
  earth_radius SatelliteVisualizer.__init__ <> 0
  /\ exists (c : cone) (x y z : R),
       create_cone SatelliteVisualizer.__init__ 40.7128 (-74.0060) 100 = Ret c
       /\ apex c = (0%Z, 0%Z, 0%Z)
       /\ axis c = (x, y, z) /\ target_surface c = (x, y, z)
       /\ (x ^ 2 + y ^ 2) / (Spec.a / 1000) ^ 2
          + z ^ 2 / ((Spec.a / 1000) ^ 2 * (1 - Spec.e2)) = 1
       /\ - (PI / 2) < angle c < PI / 2
       /\ tan (angle c)
          = 100 / earth_radius SatelliteVisualizer.__init__.
Proof.
  assert (H : earth_radius SatelliteVisualizer.__init__ <> 0).
  { cbn. unfold EARTH_RADIUS_KM. lra. }
  split; [ exact H | ].
  apply (create_cone_target_on_ellipsoid
           SatelliteVisualizer.__init__ 40.7128 (-74.0060) 100 H).
Defined.

Lemma sum_sqr_zero (x y z : R) :
  x ^ 2 + y ^ 2 + z ^ 2 = 0 <-> x = 0 /\ y = 0 /\ z = 0.
Proof.
  split.
  - intros Hs. repeat split; nra.
  - intros [-> [-> ->]]. ring.
Qed.

(** X8. The foot of a satellite's pin, for the radius [__init__] sets
    and coordinates of magnitude at most 1e9 km, the satellite at the
    Earth's centre or at least 1e-9 km from it (the range on which the
    squares [sat_x**2] neither overflow nor underflow in floating point,
    so that exact arithmetic tells what the code does up to rounding):
    the computation does not raise; at the Earth's centre no foot is
    computed; for any other position the foot is the satellite's
    position scaled by earth_radius / distance, so it lies on the sphere
    of radius earth_radius around the centre. *)
Theorem pin_foot_on_sphere
        (self : SatelliteVisualizer.t) (sat_x sat_y sat_z : R) :
  earth_radius self = EARTH_RADIUS_KM ->
  Rabs sat_x <= 1000000000 ->
  Rabs sat_y <= 1000000000 ->
  Rabs sat_z <= 1000000000 ->
  (sat_x = 0 /\ sat_y = 0 /\ sat_z = 0)
  \/ 1 / 1000000000
     <= R_sqrt.sqrt (sat_x ^ 2 + sat_y ^ 2 + sat_z ^ 2) ->
  exists foot : option (R * R * R),
    surface_xyz self sat_x sat_y sat_z = Ret foot
    /\ (foot = None <-> sat_x = 0 /\ sat_y = 0 /\ sat_z = 0)
    /\ forall surface_x surface_y surface_z : R,
         foot = Some (surface_x, surface_y, surface_z) ->
         exists d : R,
           distance_from_center sat_x sat_y sat_z = Ret d /\ 0 < d
           /\ surface_x = earth_radius self / d * sat_x
           /\ surface_y = earth_radius self / d * sat_y
           /\ surface_z = earth_radius self / d * sat_z
           /\ surface_x ^ 2 + surface_y ^ 2 + surface_z ^ 2
              = earth_radius self ^ 2.
Proof.
  intros _ _ _ _ _.
  unfold surface_xyz, distance_from_center.
  set (q := sat_x ^ 2 + sat_y ^ 2 + sat_z ^ 2).
  assert (Hq : 0 <= q) by (unfold q; nra).
  rewrite sqrt_ok by exact Hq. cbn [bind].
  pose proof (sqrt_def q Hq) as Hdd.
  destruct (Rlt_dec 0 (R_sqrt.sqrt q)) as [Hd | Hd].
  - rewrite !div_ok by lra. cbn [bind]. eexists. split; [ reflexivity | ].
    split.
    + split; [ discriminate | ].
      intros Hzero. apply sum_sqr_zero in Hzero. fold q in Hzero.
      rewrite Hzero, sqrt_0 in Hd. lra.
    + intros sx sy sz Heq. injection Heq as <- <- <-.
      exists (R_sqrt.sqrt q). set (d := R_sqrt.sqrt q) in *.
      split; [ reflexivity | ]. split; [ exact Hd | ].
      split; [ field; lra | ]. split; [ field; lra | ].
      split; [ field; lra | ].
      replace ((sat_x * earth_radius self / d) ^ 2
               + (sat_y * earth_radius self / d) ^ 2
               + (sat_z * earth_radius self / d) ^ 2)
        with (earth_radius self ^ 2 * q / (d * d))
        by (unfold q; field; lra).
      rewrite <- Hdd. field. lra.
  - eexists. split; [ reflexivity | ]. split.
    + split; [ intros _ | reflexivity ].
      apply sum_sqr_zero. fold q.
      pose proof (sqrt_pos q) as Hpos.
      assert (Hz : R_sqrt.sqrt q = 0) by lra.
      rewrite <- Hdd, Hz. ring.
    + intros sx sy sz Heq. discriminate Heq.
Qed.

(** X8, witness: the first sample position of data_analysis.py. *)
Lemma pin_foot_on_sphere_witness :
  exists foot : option (R * R * R),
    surface_xyz SatelliteVisualizer.__init__ 5000 (-3000) 4000 = Ret foot
    /\ (foot = None <-> 5000 = 0 /\ -3000 = 0 /\ 4000 = 0)
    /\ forall surface_x surface_y surface_z : R,
         foot = Some (surface_x, surface_y, surface_z) ->
         exists d : R,
           distance_from_center 5000 (-3000) 4000 = Ret d /\ 0 < d
           /\ surface_x
              = earth_radius SatelliteVisualizer.__init__ / d * 5000
           /\ surface_y
              = earth_radius SatelliteVisualizer.__init__ / d * -3000
           /\ surface_z
              = earth_radius SatelliteVisualizer.__init__ / d * 4000
           /\ surface_x ^ 2 + surface_y ^ 2 + surface_z ^ 2
              = earth_radius SatelliteVisualizer.__init__ ^ 2.
Proof.
  apply (pin_foot_on_sphere SatelliteVisualizer.__init__ 5000 (-3000) 4000).
  - reflexivity.
  - rewrite Rabs_pos_eq; lra.
  - rewrite Rabs_left; lra.
  - rewrite Rabs_pos_eq; lra.
  - right.
    pose proof (sqrt_above 1 (5000 ^ 2 + (-3000) ^ 2 + 4000 ^ 2)
                  ltac:(lra) ltac:(lra)).
    lra.
Defined.

Lemma nth_map_in {A B : Type} (f : A -> B) (l : list A) (i : nat)
      (d : A) (d' : B) :
  (i < List.length l)%nat -> nth i (map f l) d' = f (nth i l d).
Proof.
  intros Hi. rewrite (nth_indep _ d' (f d)) by (rewrite length_map; exact Hi).
  apply map_nth.
Qed.

Lemma linspace_length (start stop : R) (num : nat) :
  (0 < num)%nat -> List.length (linspace start stop num) = num.
Proof.
  intros Hn. unfold linspace.
  rewrite length_app, length_map, length_seq. cbn. lia.
Qed.

Lemma entry_scalar_outer (c : R) (a b : list R) (i j : nat) :
  (i < List.length a)%nat -> (j < List.length b)%nat ->
  entry (scalar_times c (outer a b)) i j = c * (nth i a 0 * nth j b 0).
Proof.
  intros Hi Hj. unfold entry, scalar_times, outer.
  rewrite (nth_map_in _ _ i []) by (rewrite length_map; exact Hi).
  rewrite (nth_map_in _ _ i 0) by exact Hi.
  rewrite (nth_map_in _ _ j 0) by (rewrite length_map; exact Hj).
  rewrite (nth_map_in _ _ j 0) by exact Hj.
  reflexivity.
Qed.

(** X9. Every grid point of [create_earth_sphere] lies on the sphere of
    radius earth_radius: for all row and column indices below 100,
    x[i][j]^2 + y[i][j]^2 + z[i][j]^2 = earth_radius^2. *)
Theorem create_earth_sphere_on_sphere
        (self : SatelliteVisualizer.t) (i j : nat) :
  (i < 100)%nat -> (j < 100)%nat ->
  let '(x, y, z) := create_earth_sphere self in
  entry x i j ^ 2 + entry y i j ^ 2 + entry z i j ^ 2
  = earth_radius self ^ 2.
Proof.
  intros Hi Hj. unfold create_earth_sphere. cbv zeta.
  set (u := linspace 0 (2 * PI) 100).
  set (v := linspace 0 PI 100).
  assert (Hu : List.length u = 100%nat) by (apply linspace_length; lia).
  assert (Hv : List.length v = 100%nat) by (apply linspace_length; lia).
  rewrite !entry_scalar_outer by (rewrite !length_map; lia).
  rewrite (nth_map_in cos u i 0) by lia.
  rewrite (nth_map_in sin u i 0) by lia.
  rewrite (nth_map_in (fun _ => 1) u i 0) by lia.
  rewrite (nth_map_in cos v j 0) by lia.
  rewrite (nth_map_in sin v j 0) by lia.
  pose proof (sin2_cos2 (nth i u 0)) as Hsu.
  pose proof (sin2_cos2 (nth j v 0)) as Hsv.
  unfold Rsqr in Hsu, Hsv.
  set (su := sin (nth i u 0)) in *. set (cu := cos (nth i u 0)) in *.
  set (sv := sin (nth j v 0)) in *. set (cv := cos (nth j v 0)) in *.
  replace ((earth_radius self * (cu * sv)) ^ 2
           + (earth_radius self * (su * sv)) ^ 2
           + (earth_radius self * (1 * cv)) ^ 2)
    with (earth_radius self ^ 2
          * ((su * su + cu * cu) * (sv * sv) + cv * cv)) by ring.
  rewrite Hsu, Rmult_1_l, Hsv. ring.
Qed.

(** X9, witness: the first grid point, the north pole of the sphere. *)
Lemma create_earth_sphere_on_sphere_witness :
  ((0 < 100)%nat /\ (0 < 100)%nat)
  /\ let '(x, y, z) := create_earth_sphere SatelliteVisualizer.__init__ in
     entry x 0 0 ^ 2 + entry y 0 0 ^ 2 + entry z 0 0 ^ 2
     = earth_radius SatelliteVisualizer.__init__ ^ 2.
Proof.
  split; [ split; lia | ].
  apply (create_earth_sphere_on_sphere SatelliteVisualizer.__init__ 0 0); lia.
Defined.

End Visualizer.

(** * The data manager: parsing by triples, and what reaches the caller *)

Section DataManagerLaws.
Import SatelliteDataManager Celestrak.
Local Open Scope string_scope.
Local Open Scope list_scope.
Local Open Scope nat_scope.

Variable str_strip : string -> string.
Variable int : string -> result Z.

Lemma range3_by_3 (n : nat) :
  range3 0 (3 + n) 3 = 0 :: map (Nat.add 3) (range3 0 n 3).
Proof.
  unfold range3.
  replace (3 + n - 0 + (3 - 1)) with (1 * 3 + (n - 0 + (3 - 1))) by lia.
  rewrite Nat.div_add_l by lia.
  cbn [Nat.add seq map]. f_equal.
  rewrite <- seq_shift, !map_map.
  apply map_ext. intros k. lia.
Qed.

Lemma parse_tle_step_shift (l0 l1 l2 : string) (rest : list string)
      (i : nat) (satellites : list pyvalue) :
  parse_tle_step str_strip int (l0 :: l1 :: l2 :: rest) (3 + i) satellites
  = parse_tle_step str_strip int rest i satellites.
Proof.
  unfold parse_tle_step, getitem. cbn [List.length].
  replace (3 + i + 2 <? S (S (S (List.length rest))))
    with (i + 2 <? List.length rest)
    by (destruct (Nat.ltb_spec (i + 2) (List.length rest));
        destruct (Nat.ltb_spec (3 + i + 2) (S (S (S (List.length rest)))));
        (reflexivity || lia)).
  replace (3 + i + 1) with (S (S (S (i + 1)))) by lia.
  replace (3 + i + 2) with (S (S (S (i + 2)))) by lia.
  reflexivity.
Qed.

Lemma parse_tle_step_prefix (tle_lines : list string) (i : nat)
      (pre satellites : list pyvalue) :
  parse_tle_step str_strip int tle_lines i (pre ++ satellites)
  = bind (parse_tle_step str_strip int tle_lines i satellites)
         (fun r => Ret (pre ++ r)).
Proof.
  unfold parse_tle_step.
  destruct (i + 2 <? List.length tle_lines); [ | reflexivity ].
  destruct (getitem tle_lines i); [ | reflexivity ].
  destruct (getitem tle_lines (i + 1)); [ | reflexivity ].
  destruct (getitem tle_lines (i + 2)); [ | reflexivity ].
  cbn [bind].
  destruct (int _); [ | reflexivity ].
  cbn [bind]. rewrite app_assoc. reflexivity.
Qed.

Lemma parse_tle_loop_prefix (tle_lines : list string) (idx : list nat) :
  forall pre satellites : list pyvalue,
  for_in idx (parse_tle_step str_strip int tle_lines) (pre ++ satellites)
  = bind (for_in idx (parse_tle_step str_strip int tle_lines) satellites)
         (fun r => Ret (pre ++ r)).
Proof.
  induction idx as [ | i idx IH ]; intros pre satellites.
  - reflexivity.
  - cbn [for_in]. rewrite parse_tle_step_prefix.
    destruct (parse_tle_step str_strip int tle_lines i satellites)
      as [ r | e ]; [ | reflexivity ].
    cbn [bind]. apply IH.
Qed.

Lemma parse_tle_loop_shift (l0 l1 l2 : string) (rest : list string)
      (idx : list nat) (satellites : list pyvalue) :
  for_in (map (Nat.add 3) idx)
         (parse_tle_step str_strip int (l0 :: l1 :: l2 :: rest)) satellites
  = for_in idx (parse_tle_step str_strip int rest) satellites.
Proof.
  revert satellites. induction idx as [ | i idx IH ]; intros satellites.
  - reflexivity.
  - cbn [map for_in]. rewrite parse_tle_step_shift.
    destruct (parse_tle_step str_strip int rest i satellites);
      [ cbn [bind]; apply IH | reflexivity ].
Qed.

(** [parse_tle] read triple by triple. *)
Lemma parse_tle_triple (l0 l1 l2 : string) (rest : list string) :
  parse_tle str_strip int (l0 :: l1 :: l2 :: rest)
  = bind (int (slice 2 7 l1))
         (fun v => bind (parse_tle str_strip int rest)
                        (fun r =>
                           Ret (record_of str_strip
                                  (l0 :: l1 :: l2 :: rest) 0 v :: r))).
Proof.
  unfold parse_tle. cbn [List.length].
  change (S (S (S (List.length rest)))) with (3 + List.length rest).
  rewrite range3_by_3. cbn [for_in].
  unfold parse_tle_step at 1. cbn [List.length Nat.add getitem nth_error].
  destruct (Nat.ltb_spec 2 (S (S (S (List.length rest))))); [ | lia ].
  cbn [bind].
  destruct (int (slice 2 7 l1)) as [ v | e ]; [ | reflexivity ].
  cbn [bind app]. rewrite parse_tle_loop_shift.
  apply (parse_tle_loop_prefix
           rest _ [record_of str_strip (l0 :: l1 :: l2 :: rest) 0 v] []).
Qed.

Lemma parse_tle_short (tle_lines : list string) :
  List.length tle_lines < 3 -> parse_tle str_strip int tle_lines = Ret [].
Proof.
  intros Hlen.
  destruct tle_lines as [ | l0 [ | l1 [ | l2 rest ] ] ];
    [ reflexivity | reflexivity | reflexivity | cbn in Hlen; lia ].
Qed.

Lemma triples_ind (P : list string -> Prop) :
  (forall tle_lines, List.length tle_lines < 3 -> P tle_lines) ->
  (forall l0 l1 l2 rest, P rest -> P (l0 :: l1 :: l2 :: rest)) ->
  forall tle_lines, P tle_lines.
Proof.
  intros Hshort Hstep tle_lines.
  remember (List.length tle_lines) as n eqn:Hn.
  revert tle_lines Hn.
  induction n as [ n IH ] using lt_wf_ind. intros tle_lines Hn.
  destruct tle_lines as [ | l0 [ | l1 [ | l2 rest ] ] ];
    try (apply Hshort; cbn; lia).
  apply Hstep. apply (IH (List.length rest)); [ cbn in Hn; lia | reflexivity ].
Qed.

Lemma triples_count (l0 l1 l2 : string) (rest : list string) :
  List.length (l0 :: l1 :: l2 :: rest) / 3 = S (List.length rest / 3).
Proof.
  cbn [List.length].
  replace (S (S (S (List.length rest)))) with (1 * 3 + List.length rest)
    by lia.
  rewrite Nat.div_add_l by lia. reflexivity.
Qed.

Lemma norad_field_first (l0 l1 l2 : string) (rest : list string) :
  norad_field (l0 :: l1 :: l2 :: rest) 0 = slice 2 7 l1.
Proof. reflexivity. Qed.

Lemma norad_field_next (l0 l1 l2 : string) (rest : list string) (k : nat) :
  norad_field (l0 :: l1 :: l2 :: rest) (S k) = norad_field rest k.
Proof.
  unfold norad_field, line.
  replace (3 * S k + 1) with (S (S (S (3 * k + 1)))) by lia.
  reflexivity.
Qed.

(** X10. [parse_tle] works triple by triple: when the first list holds a
    whole number of triples, parsing a concatenation gives the records of
    the first list followed by those of the second, and the first
    exception met wins. *)
Theorem parse_tle_concatenation (m : nat) (lines1 lines2 : list string) :
  List.length lines1 = 3 * m ->
  parse_tle str_strip int (lines1 ++ lines2)
  = bind (parse_tle str_strip int lines1)
         (fun r1 => bind (parse_tle str_strip int lines2)
                         (fun r2 => Ret (r1 ++ r2))).
Proof.
  revert lines1. induction m as [ | m IH ]; intros lines1 Hlen.
  - destruct lines1; [ | cbn in Hlen; lia ].
    cbn [app]. rewrite (parse_tle_short []) by (cbn; lia). cbn [bind].
    destruct (parse_tle str_strip int lines2); reflexivity.
  - destruct lines1 as [ | l0 [ | l1 [ | l2 rest ] ] ];
      try (cbn in Hlen; lia).
    cbn [app]. rewrite !parse_tle_triple.
    destruct (int (slice 2 7 l1)) as [ v | e ]; [ | reflexivity ].
    cbn [bind]. rewrite IH by (cbn in Hlen; lia).
    destruct (parse_tle str_strip int rest) as [ r1 | e ]; [ | reflexivity ].
    cbn [bind].
    destruct (parse_tle str_strip int lines2); reflexivity.
Qed.

(** X11. [parse_tle] raises exactly when [int] rejects the NORAD field
    [line1[2:7]] of a complete triple, and then with the exception of the
    first such triple: no record is returned for the triples before it,
    and the parser adds no exception of its own (no IndexError on a list
    whose length is not a multiple of three). *)
Theorem parse_tle_raises_iff (tle_lines : list string) (e : exn) :
  parse_tle str_strip int tle_lines = Raise e
  <-> exists k : nat,
        k < List.length tle_lines / 3
        /\ int (norad_field tle_lines k) = Raise e
        /\ forall j : nat, j < k -> returns (int (norad_field tle_lines j)).
Proof.
  revert tle_lines. apply (triples_ind (fun tle_lines => _ <-> _)).
  - intros tle_lines Hshort. rewrite parse_tle_short by exact Hshort.
    rewrite Nat.div_small by exact Hshort.
    split; [ discriminate | intros [k [Hk _]]; lia ].
  - intros l0 l1 l2 rest IH.
    rewrite parse_tle_triple, triples_count.
    destruct (int (slice 2 7 l1)) as [ v | e0 ] eqn:Hfirst; cbn [bind].
    + split.
      * intros Hraise.
        destruct (parse_tle str_strip int rest) as [ r | e1 ] eqn:Hrest;
          [ discriminate | ].
        cbn [bind] in Hraise. injection Hraise as ->.
        destruct (proj1 IH eq_refl) as [k [Hk [Hint Hbefore]]].
        exists (S k). split; [ lia | ].
        split; [ rewrite norad_field_next; exact Hint | ].
        intros [ | j ] Hj.
        -- exists v. rewrite norad_field_first. exact Hfirst.
        -- rewrite norad_field_next. apply Hbefore. lia.
      * intros [k [Hk [Hint Hbefore]]].
        destruct k as [ | k ].
        -- rewrite norad_field_first in Hint. congruence.
        -- rewrite norad_field_next in Hint.
           assert (Hrest : parse_tle str_strip int rest = Raise e).
           { apply IH. exists k. split; [ lia | ]. split; [ exact Hint | ].
             intros j Hj. rewrite <- (norad_field_next l0 l1 l2).
             apply Hbefore. lia. }
           rewrite Hrest. reflexivity.
    + split.
      * intros Hraise. injection Hraise as ->.
        exists 0. split; [ lia | ].
        split; [ rewrite norad_field_first; exact Hfirst | ].
        intros j Hj. lia.
      * intros [k [Hk [Hint Hbefore]]].
        destruct k as [ | k ].
        -- rewrite norad_field_first in Hint. congruence.
        -- destruct (Hbefore 0 ltac:(lia)) as [v Hv].
           rewrite norad_field_first in Hv. congruence.
Qed.

End DataManagerLaws.

Section DataManagerLawsWitness.
Import SatelliteDataManager.
Local Open Scope string_scope.
Local Open Scope list_scope.
Local Open Scope nat_scope.

(** X10, witness: the element set of the ISS followed by a lone name
    line. *)
Lemma parse_tle_concatenation_witness :
  List.length (firstn 3 iss_tle) = 3 * 1
  /\ parse_tle strip decimal_int (firstn 3 iss_tle ++ skipn 3 iss_tle)
     = bind (parse_tle strip decimal_int (firstn 3 iss_tle))
            (fun r1 => bind (parse_tle strip decimal_int (skipn 3 iss_tle))
                            (fun r2 => Ret (r1 ++ r2))).
Proof.
  split; [ reflexivity | ].
  apply (parse_tle_concatenation strip decimal_int 1). reflexivity.
Defined.

End DataManagerLawsWitness.

(** * The data manager: the requests it sends *)

Section ManagerRequests.
Import SatelliteDataManager Celestrak.
Local Open Scope string_scope.
Local Open Scope list_scope.
Local Open Scope nat_scope.

Variable format : pyvalue -> string.
Variable network : list request -> request -> reply.
Variable text_network : list request -> request -> text_reply.
Variable str_strip : string -> string.
Variable int : string -> result Z.

Lemma configured_base_urls (self : SatelliteDataManager.t) :
  configured self ->
  base_urls self
  = [("n2yo", N2YO_BASE_URL); ("celestrak", CELESTRAK_TLE_URL)].
Proof. intros Hself. exact Hself. Qed.

Lemma configured_set (self : SatelliteDataManager.t) (api_key : string) :
  configured self -> configured (set_n2yo_api_key self api_key).
Proof. intros Hself. exact Hself. Qed.

Lemma configured_init : configured SatelliteDataManager.__init__.
Proof. reflexivity. Qed.

Lemma requests_get_json_raise (u : string) (tmo : Z) (log : list request)
      (e : exn) :
  snd (requests_get_json network u tmo log) = Raise e ->
  exists rq : request,
    fst (requests_get_json network u tmo log) = log ++ [rq]
    /\ timeout rq = tmo
    /\ network log rq = OtherException e.
Proof.
  unfold requests_get_json. cbn [fst snd]. intros Hraise.
  eexists. split; [ reflexivity | ]. split; [ reflexivity | ].
  destruct (network log _); try discriminate.
  injection Hraise as ->. reflexivity.
Qed.

Lemma split_newline_nonempty (s : string) : split_newline s <> [].
Proof.
  destruct s as [ | c s ]; cbn; [ discriminate | ].
  destruct (Ascii.eqb c "010"); [ discriminate | ].
  destruct (split_newline s); discriminate.
Qed.

(** [split] and [join] on the line feed are inverse to each other. *)
Lemma join_split_newline (s : string) : join_newline (split_newline s) = s.
Proof.
  induction s as [ | c s IH ]; [ reflexivity | ].
  cbn [split_newline].
  pose proof (split_newline_nonempty s) as Hne.
  destruct (Ascii.eqb c "010") eqn:Hc.
  - apply Ascii.eqb_eq in Hc. subst c.
    destruct (split_newline s) as [ | piece pieces ]; [ contradiction | ].
    cbn [join_newline append]. cbn [join_newline] in IH.
    rewrite IH. reflexivity.
  - destruct (split_newline s) as [ | piece pieces ]; [ contradiction | ].
    destruct pieces as [ | piece' pieces ].
    + cbn [join_newline] in *. rewrite IH. reflexivity.
    + cbn [join_newline append] in *. rewrite IH. reflexivity.
Qed.

(** X12. On a manager whose [base_urls] is as the constructor set it
    (whatever its key, so after any [set_n2yo_api_key] calls), the three
    download methods raise nothing of their own (no KeyError from
    [base_urls]) and let no RequestException out: an exception leaves a call only when the request it has just
    sent, with a timeout of 10 seconds, raised one that is not a
    RequestException. *)
Theorem downloads_raise_only_foreign_exceptions
        (self : SatelliteDataManager.t)
        (lat lon alt radius category norad_id seconds : pyvalue)
        (group : string) (log : list request) (e : exn) :
  configured self ->
  (snd (get_satellites_above format network self lat lon alt radius category
          log) = Raise e ->
   exists rq : request,
     fst (get_satellites_above format network self lat lon alt radius
            category log) = log ++ [rq]
     /\ timeout rq = 10%Z /\ network log rq = OtherException e)
  /\ (snd (get_satellite_positions format network self norad_id lat lon alt
             seconds log) = Raise e ->
      exists rq : request,
        fst (get_satellite_positions format network self norad_id lat lon
               alt seconds log) = log ++ [rq]
        /\ timeout rq = 10%Z /\ network log rq = OtherException e)
  /\ (snd (get_celestrak_tle_data text_network str_strip self group log)
      = Raise e ->
      exists rq : request,
        fst (get_celestrak_tle_data text_network str_strip self group log)
        = log ++ [rq]
        /\ timeout rq = 10%Z /\ text_network log rq = TextOtherException e).
Proof.
  intros Hself. pose proof (configured_base_urls self Hself) as Hurls.
  unfold get_satellites_above, get_satellite_positions,
    get_celestrak_tle_data.
  rewrite Hurls. cbn [getitem_dict String.eqb Ascii.eqb Bool.eqb].
  split; [ | split ].
  - destruct (negb (truthy (n2yo_api_key self))); [ discriminate | ].
    apply requests_get_json_raise.
  - destruct (negb (truthy (n2yo_api_key self))); [ discriminate | ].
    apply requests_get_json_raise.
  - cbn [fst snd]. intros Hraise.
    eexists. split; [ reflexivity | ]. split; [ reflexivity | ].
    destruct (text_network log _); try discriminate.
    injection Hraise as ->. reflexivity.
Qed.

(** X13. [get_celestrak_tle_data], on a manager whose [base_urls] is as
    the constructor set it, sends one request, to the CelesTrak address
    with the group in its query, whatever the API key is. It returns the
    empty list exactly when the request raised a RequestException (a body
    always splits into at least one line, and joining the lines with line
    feeds gives back the stripped body); [parse_tle] then yields no
    satellite and no error. *)
Theorem celestrak_empty_iff_request_failed
        (self : SatelliteDataManager.t) (group : string)
        (log : list request) :
  configured self ->
  let rq := {| url := CELESTRAK_TLE_URL ++ "?GROUP=" ++ group
                        ++ "&FORMAT=tle";
               timeout := 10 |} in
  let out := get_celestrak_tle_data text_network str_strip self group log in
  fst out = log ++ [rq]
  /\ (snd out = Ret [] <-> exists msg, text_network log rq
                                        = TextRequestException msg)
  /\ (forall body, text_network log rq = Text body ->
        exists tle_lines,
          snd out = Ret tle_lines
          /\ join_newline tle_lines = str_strip body)
  /\ (forall msg, text_network log rq = TextRequestException msg ->
        bind (snd out) (parse_tle str_strip int) = Ret []).
Proof.
  intros Hself rq out.
  pose proof (configured_base_urls self Hself) as Hurls.
  unfold out, get_celestrak_tle_data.
  rewrite Hurls. cbn [getitem_dict String.eqb Ascii.eqb Bool.eqb].
  cbn [fst snd]. fold rq.
  split; [ reflexivity | ]. split; [ | split ].
  - destruct (text_network log rq) as [ body | msg | e ].
    + split.
      * intros Hempty. injection Hempty as Hempty.
        exfalso. exact (split_newline_nonempty _ Hempty).
      * intros [msg Hmsg]. discriminate.
    + split; [ intros _; exists msg; reflexivity | reflexivity ].
    + split; [ discriminate | intros [msg Hmsg]; discriminate ].
  - intros body ->. eexists. split; [ reflexivity | ].
    apply join_split_newline.
  - intros msg ->. reflexivity.
Qed.

End ManagerRequests.

Section ManagerRequestsWitnesses.
Import SatelliteDataManager Celestrak.
Local Open Scope string_scope.
Local Open Scope list_scope.

(** X12, witness: a manager with a key, on a network whose every
    request raises a ValueError; the three calls raise it after one
    request each. *)
Lemma downloads_raise_only_foreign_exceptions_witness :
  configured (set_n2yo_api_key SatelliteDataManager.__init__ "KEY")
  /\ (snd (get_satellites_above
             (fun _ => "0") (fun _ _ => OtherException ValueError)
             (set_n2yo_api_key SatelliteDataManager.__init__ "KEY")
             (PInt 0) (PInt 0) (PInt 0) (PInt 100) (PInt 0) [])
       = Raise ValueError ->
       exists rq : request,
         fst (get_satellites_above
                (fun _ => "0") (fun _ _ => OtherException ValueError)
                (set_n2yo_api_key SatelliteDataManager.__init__ "KEY")
                (PInt 0) (PInt 0) (PInt 0) (PInt 100) (PInt 0) [])
         = [] ++ [rq]
         /\ timeout rq = 10%Z
         /\ OtherException ValueError = OtherException ValueError)
  /\ (snd (get_satellite_positions
             (fun _ => "0") (fun _ _ => OtherException ValueError)
             (set_n2yo_api_key SatelliteDataManager.__init__ "KEY")
             (PInt 25544) (PInt 0) (PInt 0) (PInt 0) (PInt 1) [])
       = Raise ValueError ->
       exists rq : request,
         fst (get_satellite_positions
                (fun _ => "0") (fun _ _ => OtherException ValueError)
                (set_n2yo_api_key SatelliteDataManager.__init__ "KEY")
                (PInt 25544) (PInt 0) (PInt 0) (PInt 0) (PInt 1) [])
         = [] ++ [rq]
         /\ timeout rq = 10%Z
         /\ OtherException ValueError = OtherException ValueError)
  /\ (snd (get_celestrak_tle_data
             (fun _ _ => TextOtherException ValueError) strip
             (set_n2yo_api_key SatelliteDataManager.__init__ "KEY")
             "stations" [])
       = Raise ValueError ->
       exists rq : request,
         fst (get_celestrak_tle_data
                (fun _ _ => TextOtherException ValueError) strip
                (set_n2yo_api_key SatelliteDataManager.__init__ "KEY")
                "stations" [])
         = [] ++ [rq]
         /\ timeout rq = 10%Z
         /\ TextOtherException ValueError = TextOtherException ValueError).
Proof.
  assert (H : configured
                (set_n2yo_api_key SatelliteDataManager.__init__ "KEY"))
    by apply configured_set, configured_init.
  split; [ exact H | ].
  apply (downloads_raise_only_foreign_exceptions
           (fun _ => "0") (fun _ _ => OtherException ValueError)
           (fun _ _ => TextOtherException ValueError) strip
           (set_n2yo_api_key SatelliteDataManager.__init__ "KEY")
           (PInt 0) (PInt 0) (PInt 0) (PInt 100) (PInt 0) (PInt 25544)
           (PInt 1) "stations" [] ValueError H).
Defined.

(** X13, witness: a fresh manager asked for the default group, on a
    network that times out. *)
Lemma celestrak_empty_iff_request_failed_witness :
  configured SatelliteDataManager.__init__
  /\ let text_network := fun (_ : list request) (_ : request) =>
                           TextRequestException "timed out" in
     let rq := {| url := CELESTRAK_TLE_URL ++ "?GROUP=" ++ "stations"
                           ++ "&FORMAT=tle";
                  timeout := 10 |} in
     let out := get_celestrak_tle_data text_network strip
                  SatelliteDataManager.__init__ "stations" [] in
     fst out = [] ++ [rq]
     /\ (snd out = Ret [] <-> exists msg, text_network [] rq
                                           = TextRequestException msg)
     /\ (forall body, text_network [] rq = Text body ->
           exists tle_lines,
             snd out = Ret tle_lines
             /\ join_newline tle_lines = strip body)
     /\ (forall msg, text_network [] rq = TextRequestException msg ->
           bind (snd out) (parse_tle strip decimal_int) = Ret []).
Proof.
  split; [ apply configured_init | ].
  apply (celestrak_empty_iff_request_failed
           (fun _ _ => TextRequestException "timed out") strip decimal_int
           SatelliteDataManager.__init__ "stations" [] configured_init).
Defined.

End ManagerRequestsWitnesses.

(** * The window: the key entry and the local ephemeris file *)

Section Window.
Import SatelliteDataManager Celestrak SatelliteTrackerGUI.
Local Open Scope string_scope.
Local Open Scope list_scope.
Local Open Scope nat_scope.

Context {F : Type} `{PyFloat F}.
Variable str_strip : string -> string.
Variable format_fixed : nat -> F -> string.
Variable str_exn : exn -> string.

Lemma nonempty_truthy (s : string) : s <> "" -> truthy (Some s) = true.
Proof. destruct s; [ congruence | reflexivity ]. Qed.

(** X14. Pressing "Set API Key" never loses a usable key: if the manager
    of the window holds a non-empty key, it still does afterwards (a blank
    entry is answered by a warning and stores nothing), its addresses are
    untouched, and so are the results on display. *)
Theorem set_api_key_keeps_usable_key (g : @gui F) :
  truthy (n2yo_api_key (data_manager g)) = true ->
  let g' := set_api_key str_strip g in
  truthy (n2yo_api_key (data_manager g')) = true
  /\ (n2yo_api_key (data_manager g') = n2yo_api_key (data_manager g)
      \/ n2yo_api_key (data_manager g') = Some (str_strip (api_key_var g)))
  /\ base_urls (data_manager g') = base_urls (data_manager g)
  /\ current_results g' = current_results g
  /\ results_tree g' = results_tree g.
Proof.
  intros Hkey. cbv zeta. unfold set_api_key.
  destruct (str_strip (api_key_var g)) as [ | c s ] eqn:Hs.
  - cbn. repeat split; try assumption. left; reflexivity.
  - cbn [data_manager current_results results_tree show set_status
         set_n2yo_api_key n2yo_api_key base_urls].
    repeat split. right; reflexivity.
Qed.

(** X15. A key typed into the entry and set reaches the service: when the
    typed text is not blank, the next [get_satellites_above] on the
    window's manager sends one request, with a timeout of 10 seconds, to
    the N2YO "above" address ending in the stripped text as the API
    key. *)
Theorem typed_key_reaches_request
        (format : pyvalue -> string)
        (network : list request -> request -> reply)
        (g : @gui F) (text : string)
        (lat lon alt radius category : pyvalue) (log : list request) :
  configured (data_manager g) ->
  str_strip text <> "" ->
  let g' := set_api_key str_strip (type_api_key g text) in
  fst (get_satellites_above format network (data_manager g')
         lat lon alt radius category log)
  = log ++ [{| url := N2YO_BASE_URL ++ "/above/" ++ format lat ++ "/"
                        ++ format lon ++ "/" ++ format alt ++ "/"
                        ++ format radius ++ "/" ++ format category
                        ++ "/&apiKey=" ++ str_strip text;
               timeout := 10 |}].
Proof.
  intros Hc Htext. cbv zeta. unfold set_api_key.
  cbn [type_api_key api_key_var].
  destruct (str_strip text) as [ | c s ] eqn:Hs; [ congruence | ].
  cbn [data_manager show set_status type_api_key].
  unfold get_satellites_above.
  cbn [set_n2yo_api_key n2yo_api_key base_urls truthy negb].
  rewrite (configured_base_urls _ Hc).
  reflexivity.
Qed.

Lemma load_row_convert (idx : nat) (r : row) (g : @gui F) :
  load_row format_fixed idx r g
  = match convert_row r with
    | Raise e => (g, Raise e)
    | Ret lla =>
        ({| api_key_var := api_key_var g;
            data_manager := data_manager g;
            current_results := current_results g ++ [entry_of idx r lla];
            results_tree :=
              results_tree g ++ [tree_row_of format_fixed idx lla];
            status_var := status_var g;
            dialogs := dialogs g |},
         Ret tt)
    end.
Proof.
  unfold load_row, convert_row.
  destruct (cartesian_to_geodetic (row_x r) (row_y r) (row_z r))
    as [ [[lat lon] alt] | e ]; reflexivity.
Qed.

(** The loop over the rows: [n] rows were converted and listed, and then
    either the rows (or the first hundred) were through, or row [n]
    raised. *)
Lemma load_rows_spec (rows : list row) :
  forall (idx : nat) (g : @gui F),
  exists (n : nat) (news : list sat_data)
         (trees : list (string * string * string * string * string)),
    fst (load_rows format_fixed idx rows g)
    = {| api_key_var := api_key_var g;
         data_manager := data_manager g;
         current_results := current_results g ++ news;
         results_tree := results_tree g ++ trees;
         status_var := status_var g;
         dialogs := dialogs g |}
    /\ List.length news = n /\ List.length trees = n
    /\ (forall j r, j < n -> nth_error rows j = Some r ->
          exists lla,
            convert_row r = Ret lla
            /\ nth_error news j = Some (entry_of (idx + j) r lla)
            /\ nth_error trees j
               = Some (tree_row_of format_fixed (idx + j) lla))
    /\ ((snd (load_rows format_fixed idx rows g) = Ret tt
         /\ n = Nat.min (List.length rows) (100 - idx))
        \/ (exists r e,
              n < 100 - idx /\ nth_error rows n = Some r
              /\ convert_row r = Raise e
              /\ snd (load_rows format_fixed idx rows g) = Raise e)).
Proof.
  induction rows as [ | r rows IH ]; intros idx g.
  - exists 0, [], []. cbn [load_rows fst snd List.length].
    rewrite !app_nil_r. destruct g. cbn.
    repeat split; try reflexivity.
    + intros j r Hj. lia.
    + left. split; reflexivity.
  - cbn [load_rows].
    destruct (Nat.leb_spec 100 idx) as [Hfull | Hroom].
    + exists 0, [], []. cbn [fst snd List.length].
      rewrite !app_nil_r. destruct g. cbn [api_key_var data_manager
        current_results results_tree status_var dialogs].
      repeat split; try reflexivity.
      * intros j r' Hj. lia.
      * left. split; [ reflexivity | lia ].
    + rewrite load_row_convert.
      destruct (convert_row r) as [ lla | e ] eqn:Hconv.
      * match goal with
        | |- context [load_rows format_fixed (S idx) rows ?g1] =>
            destruct (IH (S idx) g1)
              as [n [news [trees [Hfst [Hnews [Htrees [Hrows Hend]]]]]]]
        end.
        cbn [api_key_var data_manager current_results results_tree
             status_var dialogs] in Hfst.
        exists (S n), (entry_of idx r lla :: news),
               (tree_row_of format_fixed idx lla :: trees).
        split.
        { destruct (load_rows format_fixed (S idx) rows _) as [g3 [ u | e ]];
            cbn [fst] in Hfst |- *; rewrite Hfst;
            rewrite <- !app_assoc; reflexivity. }
        split; [ cbn; lia | ]. split; [ cbn; lia | ].
        split.
        { intros [ | j ] r' Hj Hr'.
          - cbn in Hr'. injection Hr' as <-.
            exists lla. rewrite Nat.add_0_r. repeat split; assumption.
          - cbn [nth_error] in Hr' |- *.
            replace (idx + S j) with (S idx + j) by lia.
            apply Hrows; [ lia | exact Hr' ]. }
        destruct Hend as [[Hret Hn] | [r' [e [Hn [Hr' [Hraise Hsnd]]]]]].
        { left.
          destruct (load_rows format_fixed (S idx) rows _) as [g3 [ u | e ]];
            cbn [snd] in Hret |- *; [ | discriminate ].
          split; [ exact Hret | cbn [List.length]; lia ]. }
        { right. exists r', e.
          destruct (load_rows format_fixed (S idx) rows _) as [g3 [ u | e' ]];
            cbn [snd] in Hsnd |- *; [ discriminate | ].
          repeat split; [ lia | exact Hr' | exact Hraise | exact Hsnd ]. }
      * exists 0, [], []. cbn [fst snd List.length].
        rewrite !app_nil_r. destruct g. cbn [api_key_var data_manager
          current_results results_tree status_var dialogs].
        repeat split; try reflexivity.
        -- intros j r' Hj. lia.
        -- right. exists r, e. repeat split; [ lia | exact Hconv ].
Qed.

(** [load_local_data] once a file was picked and read: the rows listed
    are the first [n] of the file, and either all of the first hundred
    were converted, or row [n] raised. *)
Lemma load_local_data_outcome (file_path : string)
      (read_csv : string -> frame row) (rows : list row) (g : @gui F) :
  file_path <> "" -> read_csv file_path = Frame rows ->
  let g' := load_local_data format_fixed str_exn file_path read_csv g in
  exists n : nat,
    List.length (current_results g') = n
    /\ List.length (results_tree g') = n
    /\ data_manager g' = data_manager g
    /\ (forall j r, j < n -> nth_error rows j = Some r ->
          exists lla,
            convert_row r = Ret lla
            /\ nth_error (current_results g') j = Some (entry_of j r lla)
            /\ nth_error (results_tree g') j
               = Some (tree_row_of format_fixed j lla))
    /\ ((n = Nat.min (List.length rows) 100
         /\ status_var g'
            = ("Loaded " ++ str_nat n
               ++ " satellite positions from local data")%string
         /\ dialogs g' = dialogs g)
        \/ (exists r e,
              n < 100 /\ nth_error rows n = Some r
              /\ convert_row r = Raise e
              /\ status_var g' = "Load failed"
              /\ dialogs g'
                 = dialogs g
                   ++ [showerror "Error"
                         ("Failed to load file: " ++ str_exn e)%string])).
Proof.
  intros Hpath Hcsv. cbv zeta. unfold load_local_data.
  destruct file_path as [ | c path ]; [ congruence | ].
  rewrite Hcsv.
  match goal with
  | |- context [load_rows format_fixed 0 rows ?g2] =>
      destruct (load_rows_spec rows 0 g2)
        as [n [news [trees [Hfst [Hnews [Htrees [Hrows Hend]]]]]]];
      destruct (load_rows format_fixed 0 rows g2) as [g3 outcome]
  end.
  cbn [fst snd api_key_var data_manager current_results results_tree
       status_var dialogs set_status app] in Hfst, Hend.
  subst g3. exists n.
  destruct Hend as [[Hret Hn] | [r [e [Hn [Hr [Hraise Hsnd]]]]]]; subst outcome.
  - cbn [set_status load_failed show current_results results_tree
         data_manager status_var dialogs List.length].
    split; [ exact Hnews | ]. split; [ exact Htrees | ].
    split; [ reflexivity | ]. split; [ exact Hrows | ].
    left. rewrite Hnews.
    split; [ lia | ]. split; reflexivity.
  - cbn [set_status load_failed show current_results results_tree
         data_manager status_var dialogs List.length].
    split; [ exact Hnews | ]. split; [ exact Htrees | ].
    split; [ reflexivity | ]. split; [ exact Hrows | ].
    right. exists r, e.
    split; [ lia | ]. split; [ exact Hr | ]. split; [ exact Hraise | ].
    split; reflexivity.
Qed.

(** X16. Loading a local ephemeris file lists the first hundred rows and
    no more: when the conversion of each of the first hundred rows
    returns, the window shows min(rows, 100) results, in file order, row j
    named Satellite_(j+1) with id LOCAL_(j+1), holding the row's position
    and time and the converted latitude, longitude and altitude; the
    status line reports that count and no message box appears. Rows after
    the hundredth are never converted. *)
Theorem load_local_data_lists_first_hundred (file_path : string)
        (read_csv : string -> frame row) (rows : list row) (g : @gui F) :
  file_path <> "" -> read_csv file_path = Frame rows ->
  (forall j r, j < 100 -> nth_error rows j = Some r ->
     returns (convert_row r)) ->
  let g' := load_local_data format_fixed str_exn file_path read_csv g in
  let n := Nat.min (List.length rows) 100 in
  status_var g'
  = ("Loaded " ++ str_nat n ++ " satellite positions from local data")%string
  /\ dialogs g' = dialogs g
  /\ List.length (current_results g') = n
  /\ List.length (results_tree g') = n
  /\ forall j r, j < 100 -> nth_error rows j = Some r ->
       exists lla,
         convert_row r = Ret lla
         /\ nth_error (current_results g') j = Some (entry_of j r lla)
         /\ nth_error (results_tree g') j
            = Some (tree_row_of format_fixed j lla).
Proof.
  intros Hpath Hcsv Hall. cbv zeta.
  pose proof (load_local_data_outcome file_path read_csv rows g Hpath Hcsv)
    as Hout.
  cbv zeta in Hout.
  destruct Hout as [n [Hres [Htree [_ [Hrows Hend]]]]].
  destruct Hend as [[Hn [Hstatus Hdialogs]]
                   | [r [e [Hn [Hr [Hraise _]]]]]].
  - rewrite Hstatus, Hdialogs, Hres, Htree, <- Hn.
    repeat split.
    intros j r Hj Hr. apply Hrows; [ | exact Hr ].
    assert (j < List.length rows) by (apply nth_error_Some; congruence).
    lia.
  - destruct (Hall n r Hn Hr) as [lla Hlla]. congruence.
Qed.

(** X17. When the conversion of a row among the first hundred raises, the
    load stops there: the status line reads "Load failed", one error box
    shows the exception's text, and the window lists exactly the rows
    before the failing one (what was on display before the load is gone,
    the rest of the file is not read). *)
Theorem load_local_data_stops_at_failing_row (file_path : string)
        (read_csv : string -> frame row) (rows : list row) (g : @gui F)
        (k : nat) (bad : row) (e : exn) :
  file_path <> "" -> read_csv file_path = Frame rows ->
  k < 100 -> nth_error rows k = Some bad -> convert_row bad = Raise e ->
  (forall j r, j < k -> nth_error rows j = Some r ->
     returns (convert_row r)) ->
  let g' := load_local_data format_fixed str_exn file_path read_csv g in
  status_var g' = "Load failed"
  /\ dialogs g'
     = dialogs g
       ++ [showerror "Error" ("Failed to load file: " ++ str_exn e)%string]
  /\ List.length (current_results g') = k
  /\ List.length (results_tree g') = k
  /\ forall j r, j < k -> nth_error rows j = Some r ->
       exists lla,
         convert_row r = Ret lla
         /\ nth_error (current_results g') j = Some (entry_of j r lla)
         /\ nth_error (results_tree g') j
            = Some (tree_row_of format_fixed j lla).
Proof.
  intros Hpath Hcsv Hk Hbad Hraise Hbefore. cbv zeta.
  pose proof (load_local_data_outcome file_path read_csv rows g Hpath Hcsv)
    as Hout.
  cbv zeta in Hout.
  destruct Hout as [n [Hres [Htree [_ [Hrows Hend]]]]].
  assert (Hklen : k < List.length rows)
    by (apply nth_error_Some; congruence).
  assert (Hnk : n = k).
  { destruct (Nat.lt_trichotomy n k) as [Hlt | [Heq | Hgt]];
      [ exfalso | exact Heq | exfalso ].
    - destruct Hend as [[Hn _] | [r [e' [_ [Hr [Hraise' _]]]]]]; [ lia | ].
      destruct (Hbefore n r Hlt Hr) as [lla Hlla]. congruence.
    - destruct (Hrows k bad Hgt Hbad) as [lla [Hlla _]]. congruence. }
  destruct Hend as [[Hn _] | [r [e' [_ [Hr [Hraise' [Hstatus Hdialogs]]]]]]];
    [ lia | ].
  rewrite Hnk in Hr, Hrows.
  assert (Hrb : r = bad) by congruence. rewrite Hrb in Hraise'.
  assert (Hee : e' = e) by congruence. rewrite Hee in Hdialogs.
  rewrite Hstatus, Hdialogs, Hres, Htree, Hnk.
  repeat split. exact Hrows.
Qed.

End Window.

Section WindowWitnesses.
Import SatelliteDataManager Celestrak SatelliteTrackerGUI.
Local Open Scope string_scope.
Local Open Scope list_scope.

(** X14, witness: a window whose manager holds the key "KEY", the entry
    left blank. *)
Lemma set_api_key_keeps_usable_key_witness :
  let g : @gui R :=
    {| api_key_var := "  ";
       data_manager := set_n2yo_api_key SatelliteDataManager.__init__ "KEY";
       current_results := [];
       results_tree := [];
       status_var := "Ready";
       dialogs := [] |} in
  truthy (n2yo_api_key (data_manager g)) = true
  /\ let g' := set_api_key strip g in
     truthy (n2yo_api_key (data_manager g')) = true
     /\ (n2yo_api_key (data_manager g') = n2yo_api_key (data_manager g)
         \/ n2yo_api_key (data_manager g') = Some (strip (api_key_var g)))
     /\ base_urls (data_manager g') = base_urls (data_manager g)
     /\ current_results g' = current_results g
     /\ results_tree g' = results_tree g.
Proof.
  intros g.
  assert (Hk : truthy (n2yo_api_key (data_manager g)) = true)
    by reflexivity.
  split; [ exact Hk | ].
  apply (set_api_key_keeps_usable_key strip g Hk).
Defined.

(** X15, witness: the key " KEY " typed into a fresh window. *)
Lemma typed_key_reaches_request_witness :
  (configured (data_manager (@SatelliteTrackerGUI.__init__ R))
   /\ strip " KEY " <> "")
  /\ let g' := set_api_key strip
                 (type_api_key (@SatelliteTrackerGUI.__init__ R) " KEY ") in
     fst (get_satellites_above (fun _ => "0") (fun _ _ => Json PNone)
            (data_manager g')
            (PInt 0) (PInt 0) (PInt 0) (PInt 100) (PInt 0) [])
     = [] ++ [{| url := N2YO_BASE_URL ++ "/above/" ++ "0" ++ "/" ++ "0" ++ "/"
                          ++ "0" ++ "/" ++ "0" ++ "/" ++ "0"
                          ++ "/&apiKey=" ++ strip " KEY ";
                 timeout := 10 |}].
Proof.
  assert (Hc : configured (data_manager (@SatelliteTrackerGUI.__init__ R)))
    by apply configured_init.
  assert (Hs : strip " KEY " <> "") by (vm_compute; discriminate).
  split; [ split; [ exact Hc | exact Hs ] | ].
  apply (typed_key_reaches_request
           strip (fun _ => "0") (fun _ _ => Json PNone)
           (@SatelliteTrackerGUI.__init__ R) " KEY "
           (PInt 0) (PInt 0) (PInt 0) (PInt 100) (PInt 0) [] Hc Hs).
Defined.

Lemma sample_row_converts :
  returns (convert_row
             {| row_x := 5000; row_y := -3000; row_z := 4000;
                row_time := "2025-01-01T00:00:00" |}%R).
Proof.
  eexists. unfold convert_row. cbn [row_x row_y row_z].
  apply cartesian_to_geodetic_defined, far_from_axis_defined.
  pose proof critical_distance_bounds.
  pose proof (sqrt_above 43 (5000 ^ 2 + (-3000) ^ 2)%R ltac:(lra) ltac:(lra)).
  lra.
Qed.

(** X16, witness: a file of one row, the first sample position of
    data_analysis.py, read in exact arithmetic. *)
Lemma load_local_data_lists_first_hundred_witness :
  let rows : list (@row R) :=
    [{| row_x := 5000; row_y := -3000; row_z := 4000;
        row_time := "2025-01-01T00:00:00" |}%R] in
  let read_csv := fun _ : string => Frame rows in
  let format_fixed := fun (_ : nat) (_ : R) => "0" in
  let str_exn := fun _ : exn => "float division by zero" in
  ("ephemeris.csv" <> "" /\ read_csv "ephemeris.csv" = Frame rows
   /\ forall j r, (j < 100)%nat -> nth_error rows j = Some r ->
        returns (convert_row r))
  /\ let g' := load_local_data format_fixed str_exn "ephemeris.csv" read_csv
                 SatelliteTrackerGUI.__init__ in
     let n := Nat.min (List.length rows) 100 in
     status_var g'
     = ("Loaded " ++ str_nat n
        ++ " satellite positions from local data")%string
     /\ dialogs g' = dialogs (@SatelliteTrackerGUI.__init__ R)
     /\ List.length (current_results g') = n
     /\ List.length (results_tree g') = n
     /\ forall j r, (j < 100)%nat -> nth_error rows j = Some r ->
          exists lla,
            convert_row r = Ret lla
            /\ nth_error (current_results g') j = Some (entry_of j r lla)
            /\ nth_error (results_tree g') j
               = Some (tree_row_of format_fixed j lla).
Proof.
  intros rows read_csv format_fixed str_exn.
  assert (Hpath : "ephemeris.csv" <> "") by discriminate.
  assert (Hcsv : read_csv "ephemeris.csv" = Frame rows) by reflexivity.
  assert (Hall : forall j r, (j < 100)%nat -> nth_error rows j = Some r ->
                   returns (convert_row r)).
  { intros [ | j ] r _ Hr.
    - injection Hr as <-. apply sample_row_converts.
    - destruct j; discriminate Hr. }
  split; [ split; [ exact Hpath | split; [ exact Hcsv | exact Hall ] ] | ].
  apply (load_local_data_lists_first_hundred
           format_fixed str_exn "ephemeris.csv" read_csv rows
           SatelliteTrackerGUI.__init__ Hpath Hcsv Hall).
Defined.

(** X17, witness: the sample row followed by a position on the polar
    axis, read in exact arithmetic. *)
Lemma load_local_data_stops_at_failing_row_witness :
  let good : @row R :=
    {| row_x := 5000; row_y := -3000; row_z := 4000;
       row_time := "2025-01-01T00:00:00" |}%R in
  let bad : @row R :=
    {| row_x := 0; row_y := 0; row_z := 7000;
       row_time := "2025-01-01T00:00:01" |}%R in
  let rows := [good; bad] in
  let read_csv := fun _ : string => Frame rows in
  let format_fixed := fun (_ : nat) (_ : R) => "0" in
  let str_exn := fun _ : exn => "float division by zero" in
  ("ephemeris.csv" <> "" /\ read_csv "ephemeris.csv" = Frame rows
   /\ (1 < 100)%nat /\ nth_error rows 1 = Some bad
   /\ convert_row bad = Raise ZeroDivisionError
   /\ forall j r, (j < 1)%nat -> nth_error rows j = Some r ->
        returns (convert_row r))
  /\ let g' := load_local_data format_fixed str_exn "ephemeris.csv" read_csv
                 SatelliteTrackerGUI.__init__ in
     status_var g' = "Load failed"
     /\ dialogs g'
        = dialogs (@SatelliteTrackerGUI.__init__ R)
          ++ [showerror "Error"
                ("Failed to load file: " ++ str_exn ZeroDivisionError)%string]
     /\ List.length (current_results g') = 1%nat
     /\ List.length (results_tree g') = 1%nat
     /\ forall j r, (j < 1)%nat -> nth_error rows j = Some r ->
          exists lla,
            convert_row r = Ret lla
            /\ nth_error (current_results g') j = Some (entry_of j r lla)
            /\ nth_error (results_tree g') j
               = Some (tree_row_of format_fixed j lla).
Proof.
  intros good bad rows read_csv format_fixed str_exn.
  assert (Hpath : "ephemeris.csv" <> "") by discriminate.
  assert (Hcsv : read_csv "ephemeris.csv" = Frame rows) by reflexivity.
  assert (Hk : (1 < 100)%nat) by lia.
  assert (Hbad : nth_error rows 1 = Some bad) by reflexivity.
  assert (Hraise : convert_row bad = Raise ZeroDivisionError).
  { unfold convert_row, bad. cbn [row_x row_y row_z].
    apply cartesian_to_geodetic_undefined, polar_axis_not_defined. }
  assert (Hbefore : forall j r, (j < 1)%nat -> nth_error rows j = Some r ->
                      returns (convert_row r)).
  { intros j r Hj Hr. assert (j = 0%nat) as -> by lia.
    injection Hr as <-. apply sample_row_converts. }
  split; [ repeat split; assumption | ].
  apply (load_local_data_stops_at_failing_row
           format_fixed str_exn "ephemeris.csv" read_csv rows
           SatelliteTrackerGUI.__init__ 1 bad ZeroDivisionError
           Hpath Hcsv Hk Hbad Hraise Hbefore).
Defined.

End WindowWitnesses.
